(** * Financial-Analysis-Agents: the document-intelligence layer

    A shallow embedding of
      - [app/utils/number_parsing.py]            (modules [Regex], [NumberParsing]),
      - [app/tools/financial_extractor_tool.py]  (modules [Extractor],
        [ExtractorBackends], [Enricher]),
      - [app/tools/qualitative_analysis_tool.py] (modules [FakeEmbedder],
        [Qualitative]),
    then the notions the statements use and a few sample inputs, and last
    the properties of the specification with their proofs.

    Conventions.
      - A Python [str] is the list of its code points ([pystr]); a literal
        is written [u "..."] and decoded from the UTF-8 bytes of the Rocq
        string.
      - A Python [float] is an IEEE-754 binary64 number, i.e. Rocq's
        primitive [float]; [+ - * /], [abs] and the comparisons are the
        primitive ones.  Where a result depends on the interpreter's [sum]
        or on the platform's [pow], these are parameters.
      - A Python [dict] with [str] keys is a [gmap string _].
      - What the optional libraries (Camelot, pdfplumber, OCR, numpy,
        FAISS, sentence-transformers) and the Unicode tables return is a
        parameter of the function that calls them; an exception is [None]
        or a constructor of its own. *)

From Stdlib Require Import ZArith NArith List Bool Lia Ascii String.
From Stdlib Require Import Floats.
From Stdlib Require Import Sorting.Sorted.
From Stdlib Require Import Reals Lra Psatz.
From stdpp Require Import base option list strings gmap sorting.

Local Open Scope Z_scope.

(** Decimal float literals denote, as in Python, the nearest binary64. *)
#[global] Set Warnings "-inexact-float".

(* ===================================================================== *)
(** * Python strings *)
(* ===================================================================== *)

Module PyStr.

Definition pystr := list N.

(** ** UTF-8 decoding of Rocq string literals *)

Definition byte_of (a : ascii) : N := N_of_ascii a.

(** Continuation byte payload (low six bits). *)
Definition cont (b : N) : N := N.land b 63.

Fixpoint utf8_decode (bs : list N) (fuel : nat) : pystr :=
  match fuel with
  | O => []
  | S fuel' =>
    match bs with
    | [] => []
    | b0 :: t =>
      if (b0 <? 128)%N then b0 :: utf8_decode t fuel'
      else if (b0 <? 224)%N then
        match t with
        | b1 :: t' => (N.land b0 31 * 64 + cont b1)%N :: utf8_decode t' fuel'
        | _ => []
        end
      else if (b0 <? 240)%N then
        match t with
        | b1 :: b2 :: t' =>
            (N.land b0 15 * 4096 + cont b1 * 64 + cont b2)%N :: utf8_decode t' fuel'
        | _ => []
        end
      else
        match t with
        | b1 :: b2 :: b3 :: t' =>
            (N.land b0 7 * 262144 + cont b1 * 4096 + cont b2 * 64 + cont b3)%N
              :: utf8_decode t' fuel'
        | _ => []
        end
    end
  end.

Definition u (s : string) : pystr :=
  let bs := map byte_of (list_ascii_of_string s) in
  utf8_decode bs (length bs).

(** ** Character classes *)

Definition chr (a : ascii) : N := N_of_ascii a.

Definition is_char (c : N) : N -> bool := N.eqb c.

Definition is_ascii_digit (c : N) : bool := (48 <=? c)%N && (c <=? 57)%N.
Definition is_ascii_upper (c : N) : bool := (65 <=? c)%N && (c <=? 90)%N.
Definition is_ascii_lower (c : N) : bool := (97 <=? c)%N && (c <=? 122)%N.

(** [str.isspace] / the regex class [\s] on [str] patterns: CPython's
    [_PyUnicode_IsWhitespace]. *)
Definition py_isspace (c : N) : bool :=
  ((9 <=? c) && (c <=? 13) || (28 <=? c) && (c <=? 32)
   || (c =? 133) || (c =? 160) || (c =? 5760)
   || (8192 <=? c) && (c <=? 8202)
   || (c =? 8232) || (c =? 8233) || (c =? 8239) || (c =? 8287)
   || (c =? 12288))%N.

(** The regex class [\w] on [str] patterns: [str.isalnum] or an underscore.
    On ASCII it is [[A-Za-z0-9_]]; on the other code points it is read from
    the interpreter's Unicode database, which is the parameter [uni_alnum]. *)
Definition is_word (uni_alnum : N -> bool) (c : N) : bool :=
  if (c <? 128)%N
  then is_ascii_digit c || is_ascii_upper c || is_ascii_lower c || (c =? 95)%N
  else uni_alnum c.

(** ASCII-only Unicode database: no code point above 127 is alphanumeric. *)
Definition ascii_only : N -> bool := fun _ => false.

(** [needle in hay] *)
Fixpoint is_prefix (p s : pystr) : bool :=
  match p, s with
  | [], _ => true
  | _ :: _, [] => false
  | a :: p', b :: s' => (a =? b)%N && is_prefix p' s'
  end.

Fixpoint contains (needle hay : pystr) : bool :=
  is_prefix needle hay ||
  match hay with
  | [] => false
  | _ :: hay' => contains needle hay'
  end.

(** [s.replace(c, '')] for a single code point [c]. *)
Definition remove_char (c : N) (s : pystr) : pystr :=
  filter (fun x => negb (x =? c)%N) s.

End PyStr.

(* ===================================================================== *)
(** * Backtracking regular expressions ([re.search]) *)
(* ===================================================================== *)

Module Regex.
Import PyStr.

Inductive regex : Type :=
| Eps
| Sym (p : N -> bool)          (* one code point in a class *)
| Cat (r1 r2 : regex)
| Alt (r1 r2 : regex)          (* [r1|r2], left alternative first *)
| Star (r : regex)             (* greedy [r*] *)
| Group (i : nat) (r : regex)  (* capturing group number [i] *)
| WordB.                       (* [\b] *)

Definition Plus (r : regex) : regex := Cat r (Star r).
Definition Opt (r : regex) : regex := Alt r Eps.

Fixpoint Lit (s : pystr) : regex :=
  match s with
  | [] => Eps
  | c :: s' => Cat (Sym (is_char c)) (Lit s')
  end.

(** [r{n}] *)
Fixpoint Times (n : nat) (r : regex) : regex :=
  match n with
  | O => Eps
  | S n' => Cat r (Times n' r)
  end.

(** Greedy [r{0,n}] *)
Fixpoint UpTo (n : nat) (r : regex) : regex :=
  match n with
  | O => Eps
  | S n' => Opt (Cat r (UpTo n' r))
  end.

(** Greedy [r{lo,hi}] *)
Definition Between (lo hi : nat) (r : regex) : regex :=
  Cat (Times lo r) (UpTo (hi - lo) r).

(** Matcher state: the code point left of the cursor (for [\b]), the text
    right of it, and the groups captured so far. *)
Record mstate : Type := MState {
  before : option N;
  rest : pystr;
  caps : list (nat * pystr)
}.

Definition at_boundary (w : N -> bool) (l r : option N) : bool :=
  xorb (from_option w false l) (from_option w false r).

Definition set_cap (i : nat) (from to : mstate) : mstate :=
  MState (before to) (rest to)
         ((i, take (length (rest from) - length (rest to))%nat (rest from)) :: caps to).

(** The loop of a greedy star over a body matcher: one more iteration is
    tried first, and it must consume input; leaving the loop comes second. *)
Fixpoint star_loop {A : Type} (body : mstate -> (mstate -> option A) -> option A)
    (k : mstate -> option A) (fuel : nat) (st : mstate) {struct fuel} : option A :=
  match fuel with
  | O => k st
  | S fuel' =>
      match body st (fun st' =>
              if (length (rest st') <? length (rest st))%nat
              then star_loop body k fuel' st' else None) with
      | Some a => Some a
      | None => k st
      end
  end.

(** Continuation-passing backtracking: [run w r st k] tries the ways [r]
    can match at [st] in the engine's priority order and returns the first
    for which the continuation [k] succeeds. *)
Fixpoint run {A : Type} (w : N -> bool) (r : regex) (st : mstate)
    (k : mstate -> option A) {struct r} : option A :=
  match r with
  | Eps => k st
  | Sym p =>
      match rest st with
      | c :: tl => if p c then k (MState (Some c) tl (caps st)) else None
      | [] => None
      end
  | Cat r1 r2 => run w r1 st (fun st' => run w r2 st' k)
  | Alt r1 r2 =>
      match run w r1 st k with
      | Some a => Some a
      | None => run w r2 st k
      end
  | Star r0 => star_loop (run w r0) k (length (rest st)) st
  | Group i r0 => run w r0 st (fun st' => k (set_cap i st st'))
  | WordB =>
      if at_boundary w (before st) (head (rest st)) then k st else None
  end.

(** [re.search]: the leftmost position at which the pattern matches. *)
Fixpoint search_from (w : N -> bool) (r : regex) (prev : option N) (s : pystr)
    : option (list (nat * pystr)) :=
  match run w r (MState prev s []) (fun st => Some (caps st)) with
  | Some m => Some m
  | None =>
      match s with
      | [] => None
      | c :: tl => search_from w r (Some c) tl
      end
  end.

Definition search (w : N -> bool) (r : regex) (s : pystr) :=
  search_from w r None s.

(** [m.group(i)] for a group that took part in the match. *)
Fixpoint group (m : list (nat * pystr)) (i : nat) : option pystr :=
  match m with
  | [] => None
  | (j, s) :: m' => if (i =? j)%nat then Some s else group m' i
  end.

(** [r] contains no capturing group numbered [g]. *)
Fixpoint no_group (g : nat) (r : regex) : bool :=
  match r with
  | Eps | Sym _ | WordB => true
  | Cat r1 r2 | Alt r1 r2 => no_group g r1 && no_group g r2
  | Star r0 => no_group g r0
  | Group i r0 => negb (i =? g)%nat && no_group g r0
  end.

(** The code point left of the cursor after reading [xs]. *)
Definition adv (b : option N) (xs : pystr) : option N :=
  fold_left (fun _ c => Some c) xs b.

End Regex.

(* ===================================================================== *)
(** * [app/utils/number_parsing.py] *)
(* ===================================================================== *)

Module NumberParsing.
Import PyStr Regex.

(** ** [float(str)] on digit strings *)

(** The binary64 number nearest to [a / b] (ties to even), for [0 <= a]. *)
Definition round_ratio (a : Z) (b : positive) : float :=
  match a with
  | Zpos _ =>
      let '(mz, ez, lz) := SFdiv_core_binary prec emax a 0 (Zpos b) 0 in
      SF2Prim (binary_round_aux prec emax false mz ez lz)
  | _ => 0%float
  end.

Definition digit_val (c : N) : Z := Z.of_N c - 48.

Definition int_of_digits (ds : pystr) : Z :=
  fold_left (fun acc c => 10 * acc + digit_val c) ds 0.

Fixpoint split_dot (s : pystr) : pystr * option pystr :=
  match s with
  | [] => ([], None)
  | c :: s' =>
      if (c =? chr ".")%N then ([], Some s')
      else let '(i, f) := split_dot s' in (c :: i, f)
  end.

(** [float(s)] for the strings this module passes to it: runs of digits
    and dots (every group below is drawn from [[0-9,.]] and has its commas
    removed).  Python accepts exactly the runs with one dot at most and one
    digit at least; [None] stands for [ValueError]. *)
Definition py_float (s : pystr) : option float :=
  let '(ip, fo) := split_dot s in
  let fp := default [] fo in
  if forallb is_ascii_digit ip && forallb is_ascii_digit fp
     && negb (Nat.eqb (length ip + length fp) 0)
  then Some (round_ratio (int_of_digits (ip ++ fp))
                         (Z.to_pos (10 ^ Z.of_nat (length fp))))
  else None.

(** ** The four patterns *)

Definition digit : regex := Sym is_ascii_digit.
Definition space : regex := Sym py_isspace.
Definition comma : regex := Sym (is_char (chr ",")).
Definition rupee : N := 8377%N.  (* U+20B9 *)

Definition is_num_char (c : N) : bool :=
  is_ascii_digit c || (c =? chr ",")%N || (c =? chr ".")%N.

(** [r'₹\s*([0-9,\.]+)\s*(Cr|Crore|CR|cr|Million|Mn)?'] *)
Definition pattern1 : regex :=
  Cat (Sym (is_char rupee))
  (Cat (Star space)
  (Cat (Group 1 (Plus (Sym is_num_char)))
  (Cat (Star space)
       (Opt (Group 2 (Alt (Lit (u "Cr")) (Alt (Lit (u "Crore")) (Alt (Lit (u "CR"))
                     (Alt (Lit (u "cr")) (Alt (Lit (u "Million")) (Lit (u "Mn")))))))))))).

(** [r'\b([0-9]{1,3}(?:,[0-9]{2})+(?:,[0-9]{3})?)\b'] *)
Definition pattern2 : regex :=
  Cat WordB
  (Cat (Group 1 (Cat (Between 1 3 digit)
                (Cat (Plus (Cat comma (Times 2 digit)))
                     (Opt (Cat comma (Times 3 digit))))))
       WordB).

(** [r'\b([0-9]{1,3}(?:,[0-9]{3})+)\b'] *)
Definition pattern3 : regex :=
  Cat WordB
  (Cat (Group 1 (Cat (Between 1 3 digit) (Plus (Cat comma (Times 3 digit)))))
       WordB).

(** [r'\b([0-9]+(?:\.[0-9]+)?)\b'] *)
Definition pattern4 : regex :=
  Cat WordB
  (Cat (Group 1 (Cat (Plus digit)
                     (Opt (Cat (Sym (is_char (chr "."))) (Plus digit)))))
       WordB).

(** [float(m.group(1).replace(',', ''))] inside [try: ... except: return None] *)
Definition float_of_group1 (m : list (nat * pystr)) : option float :=
  g ← group m 1; py_float (remove_char (chr ",") g).

(** [parse_inr_number(text)].  [w] is the [\w] class of the interpreter. *)
Definition parse_inr_number (w : N -> bool) (text : pystr) : option float :=
  match text with
  | [] => None
  | _ =>
    match search w pattern1 text with
    | Some m => float_of_group1 m
    | None =>
    match search w pattern2 text with
    | Some m2 => float_of_group1 m2
    | None =>
    match search w pattern3 text with
    | Some m3 => float_of_group1 m3
    | None =>
    match search w pattern4 text with
    | Some m4 => g ← group m4 1; py_float g
    | None => None
    end end end end
  end.

End NumberParsing.

(* ===================================================================== *)
(** * [app/tools/financial_extractor_tool.py]: the extraction cascade *)
(* ===================================================================== *)

Module Extractor.
Import PyStr.

(** A raw hit of a backend: the dict built by [_extract_with_camelot] or
    [_parse_metrics_from_text].  The fields read with [.get] are optional. *)
Record candidate : Type := Candidate {
  c_label : pystr;
  c_value : float;
  c_unit : option pystr;
  c_page : option Z;
  c_confidence : option float;
  c_context : option pystr
}.

(** The [source] sub-dict of a metric. *)
Record source : Type := Source {
  method : string;
  page : option Z
}.

(** One value of the [metrics] dict. *)
Record entry : Type := Entry {
  value : float;
  unit : pystr;
  confidence : float;
  src : source;
  label : pystr
}.

Record method_log : Type := MethodLog {
  attempted : bool;
  metrics_found : nat;
  hits : list candidate;      (* [hits] / [snippets] *)
  text_length : nat           (* OCR only *)
}.

Record extraction_log : Type := ExtractionLog {
  log_camelot : method_log;
  log_pdfplumber : method_log;
  log_ocr : method_log
}.

(** The collaborators of the cascade: the optional-dependency flag, the
    three extractors, the text scanner and [str.lower]. *)
Record backends : Type := Backends {
  _HAS_CAMELOT : bool;
  _extract_with_camelot : pystr -> list candidate;
  _extract_text_with_pdfplumber : pystr -> pystr;
  _extract_with_ocr : pystr -> Z -> pystr;       (* path, max_pages *)
  _parse_metrics_from_text : pystr -> list candidate;
  lower : pystr -> pystr
}.

(** The extractors that were called, latest first. *)
Inductive call : Type :=
| CallCamelot (path : pystr)
| CallPdfplumber (path : pystr)
| CallOcr (path : pystr) (max_pages : Z).

(** [_normalize_metric_key] *)
Definition _normalize_metric_key (B : backends) (lbl : pystr) : option string :=
  match lbl with
  | [] => None
  | _ =>
    let label_lower := lower B lbl in
    let has s := contains (u s) label_lower in
    if has "revenue" || has "sales" then Some "total_revenue"%string
    else if (has "net" && has "profit") || has "pat" || has "profit after tax"
      then Some "net_profit"%string
    else if (has "operating" && (has "profit" || has "income"))
            || bool_decide (label_lower = u "ebit")
      then Some "operating_profit"%string
    else if has "ebitda" then Some "ebitda"%string
    else if has "eps" || has "earnings per share" then Some "eps"%string
    else if has "operating" && has "margin" then Some "operating_margin"%string
    else None
  end.

Definition INR_Cr : pystr := u "INR_Cr".

(** The objects the function works on: the two dicts it fills and, as a
    ghost field, the extractor calls it has made. *)
Record state : Type := State {
  metrics : gmap string entry;
  extraction_log_of : extraction_log;
  calls : list call
}.

(** One turn of an insertion loop: [if key and <allowed> and key not in
    metrics: metrics[key] = ...; metrics_found += 1]. *)
Definition insert_if_absent (B : backends) (allowed : string -> bool)
    (mk : candidate -> entry) (acc : gmap string entry * nat) (c : candidate)
    : gmap string entry * nat :=
  match _normalize_metric_key B (c_label c) with
  | Some key =>
      if negb (String.eqb key "") && allowed key && negb (bool_decide (is_Some (acc.1 !! key)))
      then (<[key := mk c]> acc.1, S acc.2)
      else acc
  | None => acc
  end.

Definition camelot_entry (c : candidate) : entry :=
  Entry (c_value c) (default INR_Cr (c_unit c)) (default 0.85%float (c_confidence c))
        (Source "camelot" (c_page c)) (c_label c).

Definition pdfplumber_entry (c : candidate) : entry :=
  Entry (c_value c) (default INR_Cr (c_unit c)) 0.65%float
        (Source "pdfplumber" None) (c_label c).

Definition ocr_entry (c : candidate) : entry :=
  Entry (c_value c) (default INR_Cr (c_unit c)) 0.45%float
        (Source "ocr" None) (c_label c).

Definition empty_log : extraction_log :=
  ExtractionLog (MethodLog false 0 [] 0) (MethodLog false 0 [] 0) (MethodLog false 0 [] 0).

Definition init : state := State ∅ empty_log [].

(** Method 1: Camelot table extraction. *)
Definition camelot_stage (B : backends) (pdf_path : pystr) (s : state) : state :=
  if _HAS_CAMELOT B then
    let camelot_metrics := _extract_with_camelot B pdf_path in
    let '(m, found) :=
      fold_left (insert_if_absent B (fun _ => true) camelot_entry) camelot_metrics
                (metrics s, metrics_found (log_camelot (extraction_log_of s))) in
    let l := extraction_log_of s in
    State m (ExtractionLog (MethodLog true found camelot_metrics 0)
                           (log_pdfplumber l) (log_ocr l))
          (CallCamelot pdf_path :: calls s)
  else s.

Definition required_metrics : list string :=
  ["total_revenue"; "net_profit"; "operating_profit"; "ebitda"]%string.

Definition missing_in (m : gmap string entry) (keys : list string) : list string :=
  filter (fun k => m !! k = None) keys.

(** Method 2: pdfplumber text extraction, if key metrics are still missing. *)
Definition pdfplumber_stage (B : backends) (pdf_path : pystr) (s : state) : state :=
  let missing_metrics := missing_in (metrics s) required_metrics in
  match missing_metrics with
  | [] => s
  | _ =>
    let l := extraction_log_of s in
    let text := _extract_text_with_pdfplumber B pdf_path in
    let cs := CallPdfplumber pdf_path :: calls s in
    match text with
    | [] =>
        State (metrics s)
              (ExtractionLog (log_camelot l)
                 (MethodLog true (metrics_found (log_pdfplumber l))
                            (hits (log_pdfplumber l)) 0)
                 (log_ocr l)) cs
    | _ =>
        let pdfplumber_metrics := _parse_metrics_from_text B text in
        let '(m, found) :=
          fold_left (insert_if_absent B (fun k => bool_decide (k ∈ missing_metrics))
                                      pdfplumber_entry)
                    pdfplumber_metrics
                    (metrics s, metrics_found (log_pdfplumber l)) in
        State m (ExtractionLog (log_camelot l)
                   (MethodLog true found (take 5 pdfplumber_metrics) 0)
                   (log_ocr l)) cs
    end
  end.

Definition critical_metrics : list string := ["total_revenue"; "net_profit"]%string.

(** [any(m not in metrics for m in ["total_revenue", "net_profit"])] *)
Definition critical_missing (m : gmap string entry) : bool :=
  existsb (fun k => bool_decide (m !! k = None)) critical_metrics.

(** Method 3: OCR, if critical metrics are still missing. *)
Definition ocr_stage (B : backends) (pdf_path : pystr) (s : state) : state :=
  if critical_missing (metrics s) then
    let l := extraction_log_of s in
    let ocr_text := _extract_with_ocr B pdf_path 5 in
    let cs := CallOcr pdf_path 5 :: calls s in
    match ocr_text with
    | [] =>
        State (metrics s)
              (ExtractionLog (log_camelot l) (log_pdfplumber l)
                 (MethodLog true (metrics_found (log_ocr l)) [] 0)) cs
    | _ =>
        let ocr_metrics := _parse_metrics_from_text B ocr_text in
        let '(m, found) :=
          fold_left (insert_if_absent B (fun _ => true) ocr_entry) ocr_metrics
                    (metrics s, metrics_found (log_ocr l)) in
        State m (ExtractionLog (log_camelot l) (log_pdfplumber l)
                   (MethodLog true found [] (length ocr_text))) cs
    end
  else s.

(** The returned dict. *)
Record extraction_result (M : Type) : Type := ExtractionResult {
  doc_meta : M;
  res_metrics : gmap string entry;
  res_log : extraction_log;
  metrics_count : nat
}.
Arguments ExtractionResult {M}.
Arguments doc_meta {M}.
Arguments res_metrics {M}.
Arguments res_log {M}.
Arguments metrics_count {M}.

Definition after_table (B : backends) (pdf_path : pystr) : state :=
  camelot_stage B pdf_path init.

Definition after_text (B : backends) (pdf_path : pystr) : state :=
  pdfplumber_stage B pdf_path (after_table B pdf_path).

Definition after_ocr (B : backends) (pdf_path : pystr) : state :=
  ocr_stage B pdf_path (after_text B pdf_path).

(** [_extract_from_single_report(pdf_path, metadata)] *)
Definition _extract_from_single_report {M : Type} (B : backends)
    (pdf_path : pystr) (metadata : M) : extraction_result M :=
  let s := after_ocr B pdf_path in
  ExtractionResult metadata (metrics s) (extraction_log_of s) (size (metrics s)).

End Extractor.

(* ===================================================================== *)
(** * [app/tools/financial_extractor_tool.py]: the three backends *)
(* ===================================================================== *)

Module ExtractorBackends.
Import PyStr NumberParsing Extractor.

(** What the interpreter's Unicode tables decide: [str.isalnum] beyond
    ASCII, [str.lower], and whether a code point of the text matches a
    pattern letter under [re.IGNORECASE]. *)
Record interpreter : Type := Interpreter {
  uni_alnum : N -> bool;
  str_lower : pystr -> pystr;
  ci_eq : N -> N -> bool
}.

(** A table as Camelot returns it: [table.df] by rows, and [table.page]. *)
Record table : Type := Table {
  df : list (list pystr);
  table_page : Z
}.

(** The result of [page.extract_text()] / [image_to_string(page)]. *)
Inductive page_text : Type :=
| PageText (s : pystr)
| PageNone                      (* [None] *)
| PageRaised.

(** The document as the libraries show it. *)
Record world : Type := World {
  has_camelot : bool;
  (** [camelot.read_pdf(path, pages='all', flavor=...)]; [None]: raised *)
  camelot_read_pdf : pystr -> string -> option (list table);
  (** [pdfplumber.open(path).pages]; [None]: import or open raised *)
  pdfplumber_pages : pystr -> option (list page_text);
  (** [convert_from_path(path, dpi)] with the OCR of each page; [None]:
      an import or the conversion raised *)
  ocr_pages : pystr -> Z -> option (list page_text)
}.

(** [_is_financial_label] *)
Definition _is_financial_label (py : interpreter) (text : pystr) : bool :=
  if (length text <? 3)%nat then false
  else
    let text_lower := str_lower py text in
    existsb (fun keyword => contains (u keyword) text_lower)
            ["revenue"; "profit"; "income"; "ebitda"; "ebit";
             "margin"; "earnings"; "eps"; "pat"; "sales"]%string.

(** [s.strip()] *)
Definition py_strip (s : pystr) : pystr :=
  let drop_ws := fix go (l : pystr) : pystr :=
    match l with
    | c :: l' => if py_isspace c then go l' else l
    | [] => []
    end in
  rev (drop_ws (rev (drop_ws s))).

(** The first value of a [for ... break] search. *)
Fixpoint first_some {A : Type} (l : list (option A)) : option A :=
  match l with
  | [] => None
  | Some a :: _ => Some a
  | None :: l' => first_some l'
  end.

(** [range(a, b)] *)
Definition py_range (a b : nat) : list nat := seq a (b - a).

(** [l[:k]] *)
Definition slice_to_Z {A : Type} (l : list A) (k : Z) : list A :=
  if 0 <=? k then take (Z.to_nat k) l
  else take (Z.to_nat (Z.of_nat (length l) + k)) l.

(** The scan of one table. *)
Definition scan_table (py : interpreter) (t : table) : list candidate :=
  let rows := df t in
  let nrows := length rows in
  let ncols := length (nth 0 rows []) in
  let cell (r c : nat) : pystr := nth c (nth r rows []) [] in
  let parse := parse_inr_number (is_word (uni_alnum py)) in
  concat (map (fun r_idx =>
    omap (fun c_idx =>
      let label := cell r_idx c_idx in
      if _is_financial_label py label then
        let right := first_some (map (fun k => parse (cell r_idx k))
                                     (py_range (c_idx + 1) (Nat.min ncols (c_idx + 5)))) in
        let numeric_val :=
          match right with
          | Some v => Some v
          | None => first_some (map (fun k => parse (cell k c_idx))
                                    (py_range (r_idx + 1) (Nat.min nrows (r_idx + 3))))
          end in
        match numeric_val with
        | Some v => Some (Candidate (py_strip label) v (Some INR_Cr) (Some (table_page t))
                                    (Some 0.85%float) None)
        | None => None
        end
      else None) (seq 0 ncols)) (seq 0 nrows)).

(** [_extract_with_camelot]: both flavors, a failing one skipped. *)
Definition _extract_with_camelot (py : interpreter) (W : world) (pdf_path : pystr)
    : list candidate :=
  let tables := concat (map (fun flavor => default [] (camelot_read_pdf W pdf_path flavor))
                            ["lattice"; "stream"]%string) in
  concat (map (scan_table py) tables).

(** ["\n\n"] *)
Definition two_newlines : pystr := [10; 10]%N.

(** The loop of [_extract_text_with_pdfplumber] over the first pages: an
    exception keeps the text read so far. *)
Fixpoint pdfplumber_loop (pages : list page_text) (text : pystr) : pystr :=
  match pages with
  | [] => text
  | PageText [] :: pages' | PageNone :: pages' => pdfplumber_loop pages' text
  | PageText s :: pages' => pdfplumber_loop pages' (text ++ two_newlines ++ s)
  | PageRaised :: _ => text
  end.

Definition _extract_text_with_pdfplumber (W : world) (pdf_path : pystr) : pystr :=
  match pdfplumber_pages W pdf_path with
  | None => []
  | Some pages => pdfplumber_loop (take 10 pages) []
  end.

(** The loop of [_extract_with_ocr]: a page whose OCR raises is skipped. *)
Fixpoint ocr_loop (pages : list page_text) (text : pystr) : pystr :=
  match pages with
  | [] => text
  | PageText s :: pages' => ocr_loop pages' (text ++ two_newlines ++ s)
  | PageNone :: pages' | PageRaised :: pages' => ocr_loop pages' text
  end.

Definition _extract_with_ocr (W : world) (pdf_path : pystr) (max_pages : Z) : pystr :=
  match ocr_pages W pdf_path 200 with
  | None => []
  | Some pages => ocr_loop (slice_to_Z pages max_pages) []
  end.

(** [re.search(re.escape(label), text, re.IGNORECASE).start()] *)
Fixpoint ci_prefix (py : interpreter) (pat s : pystr) : bool :=
  match pat, s with
  | [], _ => true
  | _ :: _, [] => false
  | x :: pat', c :: s' => ci_eq py c x && ci_prefix py pat' s'
  end.

Fixpoint ci_find (py : interpreter) (pat s : pystr) (pos : nat) : option nat :=
  if ci_prefix py pat s then Some pos
  else match s with
       | [] => None
       | _ :: s' => ci_find py pat s' (S pos)
       end.

Definition text_labels : list string :=
  ["Total Revenue"; "Revenue"; "Net Revenue";
   "Net Profit"; "Profit After Tax"; "PAT";
   "Operating Profit"; "EBIT"; "Operating Income";
   "EBITDA";
   "EPS"; "Earnings Per Share"]%string.

(** [_parse_metrics_from_text] *)
Definition _parse_metrics_from_text (py : interpreter) (text : pystr) : list candidate :=
  omap (fun label =>
          start ← ci_find py (u label) text 0;
          let context := take 300 (drop start text) in
          value ← parse_inr_number (is_word (uni_alnum py)) context;
          Some (Candidate (u label) value (Some INR_Cr) None None (Some (take 150 context))))
       text_labels.

(** The collaborators of the cascade as the class defines them. *)
Definition source_backends (py : interpreter) (W : world) : backends :=
  {| _HAS_CAMELOT := has_camelot W;
     Extractor._extract_with_camelot := _extract_with_camelot py W;
     Extractor._extract_text_with_pdfplumber := _extract_text_with_pdfplumber W;
     Extractor._extract_with_ocr := _extract_with_ocr W;
     Extractor._parse_metrics_from_text := _parse_metrics_from_text py;
     lower := str_lower py |}.

(** An interpreter for ASCII text. *)
Definition ascii_lower (c : N) : N := if is_ascii_upper c then (c + 32)%N else c.

Definition ascii_interpreter : interpreter :=
  {| uni_alnum := ascii_only;
     str_lower := map ascii_lower;
     ci_eq := fun c x => (ascii_lower c =? ascii_lower x)%N |}.

End ExtractorBackends.

(* ===================================================================== *)
(** * [validate_and_enrich_metrics]: the metric enricher *)
(* ===================================================================== *)

Module Enricher.
Import PyStr NumberParsing.

(** A JSON value as far as the enricher looks into it. *)
Inductive scalar : Type :=
| SNone
| SBool (b : bool)
| SInt (z : Z)
| SFloat (f : float)
| SStr (s : pystr)
| SOther.                       (* a nested list or dict *)

(** A value of the [metrics] dict: a dict of fields, or a bare value. *)
Inductive mval : Type :=
| MDict (fields : gmap string scalar)
| MScalar (s : scalar).

(** [float(z)] for an [int]; [None] is [OverflowError]. *)
Definition float_of_Z (z : Z) : option float :=
  let f := match z with
           | Z0 => 0%float
           | Zpos _ => round_ratio z 1
           | Zneg q => (- round_ratio (Zpos q) 1)%float
           end in
  if PrimFloat.is_infinity f then None else Some f.

(** [float(x)]; [None] stands for the [TypeError] or [ValueError] raised.
    [float_of_str] is the interpreter's [float] on a [str]. *)
Definition py_float_of (float_of_str : pystr -> option float) (x : scalar)
    : option float :=
  match x with
  | SFloat f => Some f
  | SInt z => float_of_Z z
  | SBool b => Some (if b then 1%float else 0%float)
  | SStr s => float_of_str s
  | SNone | SOther => None
  end.

(** The outcome of [llm = get_llm(); raw = llm._call(prompt); json.loads(raw)]. *)
Inductive llm_outcome (J : Type) : Type :=
| LlmRaised                     (* the call failed *)
| LlmNotJson                    (* the reply did not parse *)
| LlmJson (parsed : J).
Arguments LlmRaised {J}.
Arguments LlmNotJson {J}.
Arguments LlmJson {J}.

(** An entry of the [cleaned] dict. *)
Record cleaned_entry : Type := Cleaned {
  cl_value : scalar;
  cl_unit : scalar;
  cl_confidence : scalar
}.

Inductive enrich_result (J : Type) : Type :=
| EnrichOk (parsed : J)                                       (* status "ok" *)
| EnrichFallback (cleaned : gmap string cleaned_entry) (notes : string).
Arguments EnrichOk {J}.
Arguments EnrichFallback {J}.

Definition status {J : Type} (r : enrich_result J) : string :=
  match r with
  | EnrichOk _ => "ok"
  | EnrichFallback _ _ => "fallback"
  end.

Definition derived (v : float) : mval :=
  MDict {[ "value"%string := SFloat v; "unit"%string := SStr (u "%");
           "confidence"%string := SFloat 0.5 ]}.

(** [x["value"] if isinstance(x, dict) else x]; [None] is [KeyError]. *)
Definition value_of (x : mval) : option scalar :=
  match x with
  | MDict d => d !! "value"%string
  | MScalar s => Some s
  end.

Section WithFloatOfStr.
Variable float_of_str : pystr -> option float.

(** The first [try] block: [operating_margin] when it is missing. *)
Definition add_operating_margin (enriched : gmap string mval) : gmap string mval :=
  match enriched !! "operating_margin"%string,
        enriched !! "operating_profit"%string,
        enriched !! "total_revenue"%string with
  | None, Some p, Some r =>
      match value_of p ≫= py_float_of float_of_str with
      | Some op =>
          match value_of r ≫= py_float_of float_of_str with
          | Some rev =>
              if negb (rev =? 0)%float
              then <["operating_margin"%string := derived (op / rev * 100)%float]> enriched
              else enriched
          | None => enriched
          end
      | None => enriched
      end
  | _, _, _ => enriched
  end.

Definition qoq_bases : list string := ["total_revenue"; "net_profit"; "ebitda"]%string.

(** The second [try] block: the loop over the base keys.  A [KeyError] on
    ["value"] leaves the loop; a failing [float] skips the key. *)
Fixpoint add_qoq (bases : list string) (enriched : gmap string mval)
    : gmap string mval :=
  match bases with
  | [] => enriched
  | base_key :: bases' =>
      let prev_key := (base_key +:+ "_prev")%string in
      match enriched !! base_key, enriched !! prev_key with
      | Some c, Some p =>
          match value_of c with
          | None => enriched
          | Some cur_val =>
              match value_of p with
              | None => enriched
              | Some prev_val =>
                  match py_float_of float_of_str cur_val with
                  | None => add_qoq bases' enriched
                  | Some cur =>
                      match py_float_of float_of_str prev_val with
                      | None => add_qoq bases' enriched
                      | Some prev =>
                          if negb (prev =? 0)%float
                          then add_qoq bases'
                                 (<[(base_key +:+ "_qoq_pct")%string :=
                                      derived ((cur - prev) / abs prev * 100.0)%float]>
                                    enriched)
                          else add_qoq bases' enriched
                      end
                  end
              end
          end
      | _, _ => add_qoq bases' enriched
      end
  end.

(** One turn of the last loop; [None] is the [continue]. *)
Definition clean (v : mval) : option cleaned_entry :=
  match v with
  | MDict d =>
      match d !! "value"%string with
      | Some x => Some (Cleaned x (default (SStr (u "INR_Cr")) (d !! "unit"%string))
                                  (default (SFloat 0.5) (d !! "confidence"%string)))
      | None => None
      end
  | MScalar x =>
      f ← py_float_of float_of_str x;
      Some (Cleaned (SFloat f) (SStr (u "INR_Cr")) (SFloat 0.4))
  end.

Definition fallback_notes : string :=
  "LLM unavailable or returned non-JSON; used deterministic enrichment".

Definition deterministic_enrichment (metrics : gmap string mval)
    : gmap string cleaned_entry :=
  omap clean (add_qoq qoq_bases (add_operating_margin metrics)).

(** [validate_and_enrich_metrics(metrics, text)]; [metrics or {}] is the
    map itself. *)
Definition validate_and_enrich_metrics {J : Type} (llm : llm_outcome J)
    (metrics : gmap string mval) : enrich_result J :=
  match llm with
  | LlmJson parsed => EnrichOk parsed
  | LlmRaised | LlmNotJson =>
      EnrichFallback (deterministic_enrichment metrics) fallback_notes
  end.

End WithFloatOfStr.

(** A metric of the cascade as the JSON dict handed to the enricher. *)
Definition of_entry (e : Extractor.entry) : mval :=
  MDict {[ "value"%string := SFloat (Extractor.value e);
           "unit"%string := SStr (Extractor.unit e);
           "confidence"%string := SFloat (Extractor.confidence e);
           "source"%string := SOther;
           "label"%string := SStr (Extractor.label e) ]}.

End Enricher.

(* ===================================================================== *)
(** * [_FakeEmbedder]: the deterministic fallback embedder *)
(* ===================================================================== *)

Module FakeEmbedder.
Import PyStr.

(** The float arithmetic [encode] runs on.  [a_sum] is the builtin [sum]
    over floats and [a_pow_half] is [x ** 0.5]; both are the interpreter's
    (its summation loop and the platform's [pow]). *)
Class Arith (F : Type) : Type := {
  a_of_int : Z -> F;
  a_sub : F -> F -> F;
  a_mul : F -> F -> F;
  a_div : F -> F -> F;
  a_sum : list F -> F;
  a_pow_half : F -> F;
  a_pos : F -> bool              (* [x > 0] *)
}.

(** Binary64 arithmetic, for a given [sum] and [** 0.5]. *)
Definition binary64 (fsum : list float -> float) (pow_half : float -> float)
    : Arith float :=
  {| a_of_int := fun z => of_uint63 (Uint63.of_Z z);
     a_sub := PrimFloat.sub; a_mul := PrimFloat.mul; a_div := PrimFloat.div;
     a_sum := fsum; a_pow_half := pow_half;
     a_pos := fun x => (0 <? x)%float |}.

(** [sum] as the left-to-right loop starting from the int 0. *)
Definition seq_sum (l : list float) : float :=
  fold_left PrimFloat.add l 0%float.

(** The object: [self.dim] and [self._hashlib], the latter through its
    [sha256(t.encode("utf-8")).digest()], a list of bytes. *)
Record embedder : Type := Embedder {
  dim : Z;
  sha256 : pystr -> list Z
}.

(** [_FakeEmbedder(dim)]: [self.dim = int(dim)] *)
Definition new (hashlib_sha256 : pystr -> list Z) (d : Z) : embedder :=
  Embedder d hashlib_sha256.

Section Encode.
Context {F : Type} `{Arith F}.

(** [h[i % len(h)]]; a digest is never empty. *)
Definition byte_at (h : list Z) (i : nat) : Z :=
  nth (i mod length h) h 0.

(** [(b / 255.0) * 2.0 - 1.0] *)
Definition component (b : Z) : F :=
  a_sub (a_mul (a_div (a_of_int b) (a_of_int 255)) (a_of_int 2)) (a_of_int 1).

(** The loop [for i in range(self.dim)]. *)
Definition raw_vector (e : embedder) (t : pystr) : list F :=
  let h := sha256 e t in
  map (fun i => component (byte_at h i)) (seq 0 (Z.to_nat (dim e))).

(** [sum(x * x for x in vec) ** 0.5] *)
Definition norm_of (vec : list F) : F :=
  a_pow_half (a_sum (map (fun x => a_mul x x) vec)).

Definition encode_one (e : embedder) (t : pystr) : list F :=
  let vec := raw_vector e t in
  let norm := norm_of vec in
  if a_pos norm then map (fun x => a_div x norm) vec else vec.

(** The argument of [encode]: one [str] or a list of them. *)
Inductive texts : Type :=
| Single (t : pystr)
| Batch (ts : list pystr).

Inductive encoded : Type :=
| OneVector (v : list F)
| Vectors (vs : list (list F)).

(** [encode(self, texts)]: the result and the object after the call. *)
Definition encode (e : embedder) (x : texts) : encoded * embedder :=
  match x with
  | Single t => (OneVector (encode_one e t), e)
  | Batch ts => (Vectors (map (encode_one e) ts), e)
  end.

End Encode.

End FakeEmbedder.

(* ===================================================================== *)
(** * [QualitativeAnalysisTool]: chunk index, retriever, analyzer *)
(* ===================================================================== *)

Module Qualitative.
Import PyStr.

Definition vec := list float.

(** [embedder.encode(list_of_texts)]; [None] when the call raises. *)
Definition embedder_fn := list pystr -> option (list vec).

Record transcript : Type := Transcript {
  name : option pystr;          (* absent key: [None] *)
  local_path : option pystr
}.

Record meta : Type := Meta { source : pystr; chunk_id : pystr }.
Record chunk : Type := Chunk { c_meta : meta; c_text : pystr }.

Record hit : Type := Hit {
  h_chunk_id : pystr;
  h_source : pystr;
  h_text : pystr;
  h_score : float
}.

(** [self._embeddings]: a float32 array, or plain lists without numpy. *)
Inductive emb_store : Type :=
| NpArray (rows : list vec)
| PyList (rows : list vec).

Definition rows_of (s : emb_store) : list vec :=
  match s with NpArray r | PyList r => r end.

(** The object.  [index] holds the vectors added to the FAISS index;
    [_embeddings = None] is [not hasattr(self, '_embeddings')]. *)
Record tool : Type := Tool {
  embedder : option embedder_fn;
  index : option (list vec);
  chunks : list chunk;
  _embeddings : option emb_store
}.

Inductive faiss_built : Type :=
| CtorRaised                      (* [faiss.IndexFlatL2(d)] raised *)
| AddRaised                       (* [index.add(...)] raised *)
| Built (stored : list vec).

(** What lies outside the class: the file system, the optional libraries
    and the platform's [pow]. *)
Record env : Type := Env {
  read_file : pystr -> option pystr;          (* [None]: [open]/[read] raised *)
  sentence_transformer : option embedder_fn;  (* [None]: import or load raised *)
  fake_embedder : embedder_fn;                (* [_FakeEmbedder(dim=64).encode] *)
  has_numpy : bool;
  np_array : list vec -> option (list vec);   (* [np.array(embeddings)] *)
  astype_float32 : list vec -> list vec;
  has_faiss : bool;
  faiss_build : list vec -> faiss_built;
  (** [index.search(q_arr, k)]: [(distances[0], indices[0])] *)
  faiss_search : list vec -> list vec -> Z -> option (list float * list Z);
  (** [np.linalg.norm(self._embeddings - q_emb, axis=1)] *)
  np_dists : list vec -> list vec -> option (list float);
  np_argsort : list float -> list Z;
  pow_half : float -> float;                  (* [s ** 0.5] *)
  str_lower : pystr -> pystr
}.

(** ** Python list and string helpers *)

(** [l[i]] with negative indices; [None] is [IndexError]. *)
Definition py_index {A : Type} (l : list A) (i : Z) : option A :=
  let n := Z.of_nat (length l) in
  if 0 <=? i then l !! Z.to_nat i
  else if - n <=? i then l !! Z.to_nat (n + i)
  else None.

(** [l[:k]] *)
Definition slice_to {A : Type} (l : list A) (k : Z) : list A :=
  if 0 <=? k then take (Z.to_nat k) l
  else take (Z.to_nat (Z.of_nat (length l) + k)) l.

(** [text.split()] *)
Fixpoint split_ws (cur : pystr) (s : pystr) : list pystr :=
  match s with
  | [] => match cur with [] => [] | _ => [rev cur] end
  | c :: s' =>
      if py_isspace c
      then match cur with [] => split_ws [] s' | _ => rev cur :: split_ws [] s' end
      else split_ws (c :: cur) s'
  end.
Definition py_split (s : pystr) : list pystr := split_ws [] s.

(** [text.split(',')] *)
Fixpoint split_on (sep : N) (cur : pystr) (s : pystr) : list pystr :=
  match s with
  | [] => [rev cur]
  | c :: s' => if (c =? sep)%N then rev cur :: split_on sep [] s'
               else split_on sep (c :: cur) s'
  end.

(** [" ".join(ws)] *)
Fixpoint join_sp (ws : list pystr) : pystr :=
  match ws with
  | [] => []
  | [w] => w
  | w :: ws' => w ++ 32%N :: join_sp ws'
  end.

(** [str(i)] for a non-negative int. *)
Fixpoint digits_of (fuel : nat) (n : N) (acc : pystr) : pystr :=
  match fuel with
  | O => acc
  | S f => let acc' := (48 + n mod 10)%N :: acc in
           if (n <? 10)%N then acc' else digits_of f (n / 10)%N acc'
  end.
Definition str_of_nat (i : nat) : pystr := digits_of (S i) (N.of_nat i) [].

(** ** [_chunk_text] *)

Fixpoint windows (fuel : nat) (size : nat) (ws : list pystr) : list (list pystr) :=
  match fuel, ws with
  | S f, _ :: _ => take size ws :: windows f size (drop size ws)
  | _, _ => []
  end.

Definition _chunk_text (text : pystr) (chunk_words : nat) : list pystr :=
  let words := py_split text in
  filter (fun c => negb (forallb py_isspace c))
         (map join_sp (windows (length words) chunk_words words)).

(** ** [index_transcripts] *)

Definition unknown : pystr := u "unknown".

(** The chunks of one transcript: none without a path or a readable file. *)
Definition chunks_of (E : env) (t : transcript) : list chunk :=
  match local_path t with
  | None | Some [] => []
  | Some path =>
      match read_file E path with
      | None => []
      | Some text =>
          let nm := default unknown (name t) in
          imap (fun i c => Chunk (Meta nm (nm ++ u "_chunk_" ++ str_of_nat i)) c)
               (_chunk_text text 300)
      end
  end.

Definition all_chunks (E : env) (ts : list transcript) : list chunk :=
  concat (map (chunks_of E) ts).

(** The embedder in use: the one held, else sentence-transformers, else
    the fallback. *)
Definition ensure_embedder (E : env) (t : tool) : embedder_fn * tool :=
  match embedder t with
  | Some e => (e, t)
  | None =>
      let e := default (fake_embedder E) (sentence_transformer E) in
      (e, Tool (Some e) (index t) (chunks t) (_embeddings t))
  end.

Definition index_transcripts (E : env) (transcripts : list transcript) (t : tool)
    : bool * tool :=
  let cs := all_chunks E transcripts in
  let texts := map c_text cs in
  let t := Tool (embedder t) (index t) cs (_embeddings t) in
  match texts with
  | [] => (false, t)
  | _ =>
    let '(emb, t) := ensure_embedder E t in
    match emb texts with
    | None => (false, t)
    | Some embeddings =>
      if negb (has_numpy E)
      then (true, Tool (embedder t) None (chunks t) (Some (PyList embeddings)))
      else
        match np_array E embeddings with
        | None => (false, t)
        | Some emb_array =>
          if negb (has_faiss E)
          then (true, Tool (embedder t) None (chunks t)
                           (Some (NpArray (astype_float32 E emb_array))))
          else
            match faiss_build E (astype_float32 E emb_array) with
            | CtorRaised => (false, t)
            | AddRaised => (false, Tool (embedder t) (Some []) (chunks t) (_embeddings t))
            | Built stored => (true, Tool (embedder t) (Some stored) (chunks t) (_embeddings t))
            end
        end
    end
  end.

(** ** [retrieve] *)

(** A call either returns or lets an exception through. *)
Inductive outcome (A : Type) : Type :=
| Ok (a : A)
| Raised.
Arguments Ok {A}.
Arguments Raised {A}.

Definition of_option {A : Type} (o : option A) : outcome A :=
  match o with Some a => Ok a | None => Raised end.

Definition mk_hit (c : chunk) (score : float) : hit :=
  Hit (chunk_id (c_meta c)) (source (c_meta c)) (take 600 (c_text c)) score.

(** The FAISS branch's loop over [zip(indices[0], distances[0])]. *)
Fixpoint faiss_hits (cs : list chunk) (pairs : list (Z * float)) : option (list hit) :=
  match pairs with
  | [] => Some []
  | (idx, distance) :: ps =>
      if idx <? Z.of_nat (length cs)
      then c ← py_index cs idx; r ← faiss_hits cs ps; Some (mk_hit c distance :: r)
      else faiss_hits cs ps
  end.

(** The loop [for i in idxs] of the two scan branches. *)
Definition hits_of (cs : list chunk) (dists : list float) (idxs : list Z)
    : option (list hit) :=
  mapM (fun i => c ← py_index cs i; d ← py_index dists i; Some (mk_hit c d)) idxs.

(** The inner loop of the pure-Python scan: [s += (a - b) * (a - b)]. *)
Definition sq_dist (e q : vec) : float :=
  fold_left (fun s '(a, b) => let d := (a - b)%float in (s + d * d)%float)
            (zip e q) 0%float.

(** [sorted(range(len(dists)), key=lambda i: dists[i])]: a stable sort
    that compares keys with [<] only. *)
Fixpoint insert_by_key (x : nat * float) (l : list (nat * float)) : list (nat * float) :=
  match l with
  | [] => [x]
  | y :: l' => if (y.2 <? x.2)%float then y :: insert_by_key x l' else x :: y :: l'
  end.

Definition sort_by_key (l : list (nat * float)) : list (nat * float) :=
  foldr insert_by_key [] l.

Definition sorted_range (dists : list float) : list Z :=
  map (fun p => Z.of_nat p.1) (sort_by_key (imap (fun i d => (i, d)) dists)).

Definition python_scan (E : env) (emb : embedder_fn) (t : tool) (store : emb_store)
    (query : pystr) (top_k : Z) : outcome (list hit) :=
  match emb [query] with
  | None => Raised
  | Some q_emb_raw =>
      let q_emb := default [] (head q_emb_raw) in
      let dists := map (fun e => pow_half E (sq_dist e q_emb)) (rows_of store) in
      let idxs := slice_to (sorted_range dists)
                           (Z.min top_k (Z.of_nat (length (chunks t)))) in
      of_option (hits_of (chunks t) dists idxs)
  end.

(** The [try] part of the scan branch; [None] when anything in it raised. *)
Definition numpy_scan (E : env) (emb : embedder_fn) (t : tool) (store : emb_store)
    (query : pystr) (top_k : Z) : option (list hit) :=
  if has_numpy E then
    q ← emb [query];
    dists ← np_dists E (rows_of store) q;
    hits_of (chunks t) dists
            (slice_to (np_argsort E dists) (Z.min top_k (Z.of_nat (length (chunks t)))))
  else None.

(** The last branch: keyword matching on the raw text. *)
Definition keyword_scan (E : env) (t : tool) (query : pystr) (top_k : Z)
    : outcome (list hit) :=
  let q := str_lower E query in
  let matches (c : chunk) : option bool :=
    first ← head (py_split q);
    let text := str_lower E (c_text c) in
    Some (contains first text
          || existsb (fun word => contains word text) (split_on (chr ",") [] q)) in
  match mapM (fun c => b ← matches c; Some (c, b)) (chunks t) with
  | None => Raised
  | Some marked =>
      Ok (slice_to (map (fun cb => mk_hit cb.1 0%float) (filter (fun cb : chunk * bool => cb.2) marked))
                   top_k)
  end.

Definition is_none {A : Type} (o : option A) : bool :=
  match o with None => true | Some _ => false end.

Definition retrieve (E : env) (query : pystr) (top_k : Z) (t : tool)
    : outcome (list hit) * tool :=
  if (is_none (index t) && is_none (_embeddings t))
     || bool_decide (chunks t = [])
  then (Ok [], t)
  else
    let '(emb, t) := ensure_embedder E t in
    match index t with
    | Some stored =>
        match q ← emb [query];
              faiss_search E stored q (Z.min top_k (Z.of_nat (length (chunks t)))) with
        | None => (Ok [], t)
        | Some (distances, indices) =>
            (of_option (faiss_hits (chunks t) (zip indices distances)), t)
        end
    | None =>
        match _embeddings t with
        | Some store =>
            match numpy_scan E emb t store query top_k with
            | Some results => (Ok results, t)
            | None => (python_scan E emb t store query top_k, t)
            end
        | None => (keyword_scan E t query top_k, t)
        end
    end.

(** ** [analyze] *)

(** Calls on the object in sequence: each sees the object the previous one
    left, and an exception ends the sequence. *)
Definition M (A : Type) : Type := tool -> outcome A * tool.

Definition ret {A : Type} (a : A) : M A := fun t => (Ok a, t).

Definition bind {A B : Type} (m : M A) (f : A -> M B) : M B :=
  fun t => match m t with
           | (Ok a, t') => f a t'
           | (Raised, t') => (Raised, t')
           end.

Notation "x <-- m ;; k" := (bind m (fun x => k))
  (at level 100, m at next level, right associativity).

Record theme : Type := Theme {
  theme_name : string;
  count : nat;
  examples : list hit
}.

Record sentiment : Type := Sentiment {
  score : float;
  summary : string
}.

Record risk : Type := Risk {
  risk_name : string;
  evidence : list pystr
}.

Record qualitative_summary : Type := Summary {
  tool_name : string;
  themes : list theme;
  management_sentiment : sentiment;
  forward_guidance : list hit;
  risks : list risk
}.

Definition insufficient_data : qualitative_summary :=
  Summary "QualitativeAnalysisTool" [] (Sentiment 0.0 "insufficient_data") [] [].

Definition theme_queries : list (string * pystr) :=
  [ ("demand"%string, u "demand, growth, digital transformation, revenue growth, market demand");
    ("attrition"%string, u "attrition, employee turnover, resignations, hiring, talent, retention");
    ("guidance"%string, u "guidance, outlook, expect, forecast, projection, next quarter");
    ("margins"%string, u "margin, profitability, costs, efficiency, operating margin");
    ("deals"%string, u "deals, pipeline, bookings, wins, contracts, clients") ].

Definition positive_queries : list pystr :=
  [u "strong performance"; u "growth"; u "optimistic"; u "positive"].
Definition negative_queries : list pystr :=
  [u "challenges"; u "headwinds"; u "concerns"; u "pressure"].

Definition guidance_query : pystr :=
  u "guidance, outlook, expect, forecast, next quarter, full year".

Definition risk_themes : list string :=
  ["attrition"; "competition"; "macro"; "regulation"]%string.

(** The loop over [theme_queries.items()]. *)
Fixpoint collect_themes (E : env) (qs : list (string * pystr)) : M (list theme) :=
  match qs with
  | [] => ret []
  | (nm, query) :: qs' =>
      results <-- retrieve E query 5 ;;
      later <-- collect_themes E qs' ;;
      ret (match results with
           | [] => later
           | _ => Theme nm (length results) (take 3 results) :: later
           end)
  end.

(** [for query in queries: count += len(self.retrieve(query, top_k=3))] *)
Fixpoint count_hits (E : env) (queries : list pystr) : M Z :=
  match queries with
  | [] => ret 0
  | query :: queries' =>
      results <-- retrieve E query 3 ;;
      later <-- count_hits E queries' ;;
      ret (Z.of_nat (length results) + later)
  end.

(** [a / b] on ints, for [0 <= a] and [0 < b]: the nearest float. *)
Definition py_truediv (a b : Z) : float := NumberParsing.round_ratio a (Z.to_pos b).

(** [min(a, b)] on floats: the first of the smallest. *)
Definition py_min (a b : float) : float := if (b <? a)%float then b else a.

(** The sentiment rule at the end of the two counting loops. *)
Definition classify_sentiment (positive_count negative_count : Z) : sentiment :=
  if positive_count >? negative_count then
    let sentiment_score :=
      py_min 0.8 (py_truediv positive_count (Z.max (positive_count + negative_count) 1)) in
    Sentiment sentiment_score
      (if (0.6 <? sentiment_score)%float then "positive" else "cautiously optimistic")
  else if negative_count >? positive_count then
    let sentiment_score :=
      (- py_min 0.8 (py_truediv negative_count (Z.max (positive_count + negative_count) 1)))%float in
    Sentiment sentiment_score
      (if (sentiment_score <? -0.6)%float then "negative" else "cautious")
  else Sentiment 0.0 "neutral".

(** The loop over [risk_themes]: the first theme of that name, if its count
    is positive. *)
Definition collect_risks (ths : list theme) (names : list string) : list risk :=
  omap (fun nm =>
          match find (fun th => String.eqb (theme_name th) nm) ths with
          | Some theme_data =>
              if (0 <? count theme_data)%nat
              then Some (Risk nm (map h_chunk_id (examples theme_data)))
              else None
          | None => None
          end) names.

Definition analyze (E : env) (transcripts : list transcript) : M qualitative_summary :=
  fun t =>
  let '(success, t) := index_transcripts E transcripts t in
  if negb success then (Ok insufficient_data, t)
  else
    (ths <-- collect_themes E theme_queries ;;
     positive_count <-- count_hits E positive_queries ;;
     negative_count <-- count_hits E negative_queries ;;
     forward_guidance_results <-- retrieve E guidance_query 5 ;;
     ret (Summary "QualitativeAnalysisTool" ths
                  (classify_sentiment positive_count negative_count)
                  forward_guidance_results
                  (collect_risks ths risk_themes))) t.

End Qualitative.

(* ===================================================================== *)
(** * Notions used in the statements *)
(* ===================================================================== *)

Module NumberParsingSpec.
Import PyStr Regex NumberParsing.

Definition is_Some_b {A : Type} (o : option A) : bool :=
  match o with Some _ => true | None => false end.

(** Which of the four patterns supplies the match. *)
Definition first_matching_pattern (w : N -> bool) (text : pystr) : option nat :=
  match text with
  | [] => None
  | _ =>
    if is_Some_b (search w pattern1 text) then Some 1%nat
    else if is_Some_b (search w pattern2 text) then Some 2%nat
    else if is_Some_b (search w pattern3 text) then Some 3%nat
    else if is_Some_b (search w pattern4 text) then Some 4%nat
    else None
  end.

(** What follows group 1 in pattern 1: [\s*(Cr|Crore|CR|cr|Million|Mn)?] *)
Definition pattern1_tail : regex :=
  Cat (Star space)
      (Opt (Group 2 (Alt (Lit (u "Cr")) (Alt (Lit (u "Crore")) (Alt (Lit (u "CR"))
                    (Alt (Lit (u "cr")) (Alt (Lit (u "Million")) (Lit (u "Mn"))))))))).

Definition nth_pattern (i : nat) : regex :=
  match i with
  | 1%nat => pattern1 | 2%nat => pattern2 | 3%nat => pattern3 | _ => pattern4
  end.

End NumberParsingSpec.

Module CascadeSpec.
Import PyStr Extractor.

(** What a list of hits offers for a key: the entry of its first hit whose
    label normalizes to the key, when the stage admits the key. *)
Definition offered (B : backends) (allowed : string -> bool) (mk : candidate -> entry)
    (cs : list candidate) (k : string) : option entry :=
  mk <$> List.find (fun c => bool_decide (_normalize_metric_key B (c_label c) = Some k)
                             && negb (String.eqb k "") && allowed k) cs.

Definition table_offer (B : backends) (path : pystr) (k : string) : option entry :=
  if _HAS_CAMELOT B
  then offered B (fun _ => true) camelot_entry (_extract_with_camelot B path) k
  else None.

Definition text_offer (B : backends) (path : pystr) (k : string) : option entry :=
  let missing := missing_in (metrics (after_table B path)) required_metrics in
  match missing, _extract_text_with_pdfplumber B path with
  | [], _ | _, [] => None
  | _, text =>
      offered B (fun k => bool_decide (k ∈ missing)) pdfplumber_entry
              (_parse_metrics_from_text B text) k
  end.

Definition ocr_offer (B : backends) (path : pystr) (k : string) : option entry :=
  if critical_missing (metrics (after_text B path)) then
    match _extract_with_ocr B path 5 with
    | [] => None
    | text => offered B (fun _ => true) ocr_entry (_parse_metrics_from_text B text) k
    end
  else None.

Definition normalized_keys : list string :=
  ["total_revenue"; "net_profit"; "operating_profit"; "ebitda"; "eps";
   "operating_margin"]%string.

End CascadeSpec.

Module EnricherSpec.
Import PyStr Enricher.

(** Every dict among the metrics has a ["value"] field: no [KeyError]. *)
Definition no_key_error (m : gmap string mval) : Prop :=
  forall k d, m !! k = Some (MDict d) -> is_Some (d !! "value"%string).

(** The keys the loop writes are not among those it reads. *)
Definition writes_apart (bases : list string) : Prop :=
  forall b1 b2, b1 ∈ bases -> b2 ∈ bases ->
    (b1 +:+ "_qoq_pct")%string <> b2 /\
    (b1 +:+ "_qoq_pct")%string <> (b2 +:+ "_prev")%string.

Definition llm_failed {J : Type} (llm : llm_outcome J) : bool :=
  match llm with
  | LlmJson _ => false
  | LlmRaised | LlmNotJson => true
  end.

Definition sample_metrics : gmap string mval :=
  {[ "operating_profit"%string := MDict {[ "value"%string := SFloat 20 ]};
     "total_revenue"%string := MScalar (SInt 80);
     "total_revenue_prev"%string := MScalar (SFloat 64) ]}.

End EnricherSpec.

Module FloatOrder.

(** A spec float that is not NaN, as a point of Z * Z * Z in
    lexicographic order: the class, then exponent and mantissa (negated
    for the negative numbers). *)
Definition rank (f : spec_float) : Z * Z * Z :=
  match f with
  | S754_nan => (0, 0, 0)
  | S754_infinity true => (-2, 0, 0)
  | S754_finite true m e => (-1, - e, - Zpos m)
  | S754_zero _ => (0, 0, 0)
  | S754_finite false m e => (1, e, Zpos m)
  | S754_infinity false => (2, 0, 0)
  end.

Definition lex_lt (a b : Z * Z * Z) : Prop :=
  a.1.1 < b.1.1
  \/ (a.1.1 = b.1.1 /\ (a.1.2 < b.1.2 \/ (a.1.2 = b.1.2 /\ a.2 < b.2))).

Definition not_nan (x : float) : Prop := PrimFloat.is_nan x = false.

End FloatOrder.

Module RetrieverSpec.
Import PyStr Qualitative FloatOrder.

Definition cannot_read (E : env) (tr : transcript) : Prop :=
  local_path tr = None \/ local_path tr = Some []
  \/ exists p, local_path tr = Some p /\ read_file E p = None.

(** A pair (index, distance) of the list being ranked. *)
Definition valid (dists : list float) (p : nat * float) : Prop :=
  dists !! p.1 = Some p.2.

(** [a] may stand before [b]: its distance is not greater, and at equal
    distance its index is smaller. *)
Definition before (a b : nat * float) : Prop :=
  (b.2 <? a.2)%float = false /\ ((a.2 <? b.2)%float = false -> (a.1 < b.1)%nat).

Definition hit_of_chunk (cs : list chunk) (h : hit) : Prop :=
  exists c d, c ∈ cs /\ h = mk_hit c d.

(** The hit for position [i] of the index with distance [d]. *)
Definition hit_at (cs : list chunk) (i : Z) (d : float) (h : hit) : Prop :=
  exists c, cs !! Z.to_nat i = Some c /\ h = mk_hit c d.

Definition in_range (n : nat) (i : Z) : Prop := 0 <= i < Z.of_nat n.

(** A tool whose index has been built. *)
Record built (t : tool) (emb : embedder_fn) : Prop := {
  built_embedder : embedder t = Some emb;
  built_chunks : chunks t <> [];
  built_store : index t <> None \/ _embeddings t <> None
}.

(** The distances of the pure-Python scan. *)
Definition scan_dists (E : env) (store : emb_store) (q_emb_raw : list vec) : list float :=
  map (fun e => pow_half E (sq_dist e (default [] (head q_emb_raw)))) (rows_of store).

Definition non_decreasing (hits : list hit) : Prop :=
  StronglySorted (fun h1 h2 => (h_score h2 <? h_score h1)%float = false) hits.

End RetrieverSpec.

Module NormSpec.
Import PyStr FakeEmbedder.
Local Open Scope R_scope.

Definition rsum (l : list R) : R := fold_right Rplus 0 l.

(** The Euclidean norm of a vector of reals. *)
Definition l2_norm (v : list R) : R := sqrt (rsum (map (fun x => x * x) v)).

(** Floating-point arithmetic seen through the reals its numbers denote,
    in the standard model: every operation returns its exact result up to
    a relative error [u]; small ints convert exactly.  Binary64 has
    [u = 2^-53]; the bound asked of [u] here is [2^-32]. *)
Record standard_model (u : R) (A : Arith R) : Prop := StandardModel {
  sm_u : 0 <= u <= / 2 ^ 32;
  sm_of_int : forall z, (0 <= z <= 255)%Z -> a_of_int z = IZR z;
  sm_sub : forall x y, Rabs (a_sub x y - (x - y)) <= u * Rabs (x - y);
  sm_mul : forall x y, Rabs (a_mul x y - x * y) <= u * Rabs (x * y);
  sm_div : forall x y, y <> 0 -> Rabs (a_div x y - x / y) <= u * Rabs (x / y);
  sm_sum : forall l, Forall (fun x => 0 <= x) l ->
             (1 - u) ^ length l * rsum l <= a_sum l <= (1 + u) ^ length l * rsum l;
  sm_pow_half : forall x, 0 <= x -> Rabs (a_pow_half x - sqrt x) <= u * sqrt x;
  sm_pos : forall x, a_pos x = true <-> 0 < x
}.

#[export] Instance Rlt_decision (x y : R) : Decision (x < y) := Rlt_dec x y.

(** Exact arithmetic: the model with no rounding at all. *)
Definition exact : Arith R :=
  {| a_of_int := IZR; a_sub := Rminus; a_mul := Rmult; a_div := Rdiv;
     a_sum := rsum; a_pow_half := sqrt;
     a_pos := fun x => bool_decide (0 < x) |}.

End NormSpec.

(* ===================================================================== *)
(** * Sample inputs *)
(* ===================================================================== *)

Module Samples.
Import PyStr Qualitative.

(** A stand-in digest: the first 32 code points, as bytes. *)
Definition toy_digest (t : pystr) : list Z :=
  map (fun i => Z.of_N (nth i t 7%N) mod 256) (seq 0 32).

Definition toy_fake_embedder : embedder_fn :=
  fun ts => Some (map (FakeEmbedder.encode_one
                         (H := FakeEmbedder.binary64 FakeEmbedder.seq_sum PrimFloat.sqrt)
                         (FakeEmbedder.new toy_digest 64)) ts).

(** No sentence-transformers, no numpy, no FAISS; one readable file. *)
Definition sample_env : env :=
  {| read_file := fun path =>
       if bool_decide (path = u "q1_call.txt")
       then Some (u "Attrition stayed elevated while demand for cloud deals was strong")
       else None;
     sentence_transformer := None;
     fake_embedder := toy_fake_embedder;
     has_numpy := false;
     np_array := fun v => Some v;
     astype_float32 := fun v => v;
     has_faiss := false;
     faiss_build := fun _ => CtorRaised;
     faiss_search := fun _ _ _ => None;
     np_dists := fun _ _ => None;
     np_argsort := fun _ => [];
     pow_half := PrimFloat.sqrt;
     str_lower := fun s => s |}.

Definition fresh_tool : tool := Tool None None [] None.

Definition sample_transcripts : list transcript :=
  [Transcript (Some (u "Q1")) (Some (u "q1_call.txt"))].

Definition sample_summary : qualitative_summary :=
  match (analyze sample_env sample_transcripts fresh_tool).1 with
  | Ok s => s
  | Raised => insufficient_data
  end.

Definition three_files : env :=
  {| read_file := fun path =>
       if bool_decide (path = u "q1.txt") then Some (u "Demand was strong in the quarter")
       else if bool_decide (path = u "q2.txt") then Some (u "Attrition fell and margins improved")
       else if bool_decide (path = u "q3.txt") then Some (u "Guidance for next quarter is unchanged")
       else None;
     sentence_transformer := None;
     fake_embedder := toy_fake_embedder;
     has_numpy := false;
     np_array := fun v => Some v;
     astype_float32 := fun v => v;
     has_faiss := false;
     faiss_build := fun _ => CtorRaised;
     faiss_search := fun _ _ _ => None;
     np_dists := fun _ _ => None;
     np_argsort := fun _ => [];
     pow_half := PrimFloat.sqrt;
     str_lower := fun s => s |}.

(** The same files with numpy and FAISS present, and a search that raises. *)
Definition three_files_faiss_raising : env :=
  {| read_file := read_file three_files;
     sentence_transformer := None;
     fake_embedder := toy_fake_embedder;
     has_numpy := true;
     np_array := fun v => Some v;
     astype_float32 := fun v => v;
     has_faiss := true;
     faiss_build := fun v => Built v;
     faiss_search := fun _ _ _ => None;
     np_dists := fun _ _ => None;
     np_argsort := fun _ => [];
     pow_half := PrimFloat.sqrt;
     str_lower := fun s => s |}.

Definition three_transcripts : list transcript :=
  [Transcript (Some (u "Q1")) (Some (u "q1.txt"));
   Transcript (Some (u "Q2")) (Some (u "q2.txt"));
   Transcript (Some (u "Q3")) (Some (u "q3.txt"))].

Definition built_on (E : env) : tool :=
  (index_transcripts E three_transcripts fresh_tool).2.

Definition result_count (r : outcome (list hit) * tool) : option nat :=
  match r.1 with
  | Ok hits => Some (length hits)
  | Raised => None
  end.

End Samples.

Module RegexSpec.
Import PyStr Regex.

(** [r] asks somewhere for a code point of a class that no code point of
    [text] belongs to. *)
Fixpoint starved (text : pystr) (r : regex) : bool :=
  match r with
  | Eps | WordB | Star _ => false
  | Sym p => forallb (fun c => negb (p c)) text
  | Cat r1 r2 => starved text r1 || starved text r2
  | Alt r1 r2 => starved text r1 && starved text r2
  | Group _ r0 => starved text r0
  end.

(** A decimal literal: digits, then possibly a dot and digits. *)
Definition decimal_literal (ip : pystr) (fo : option pystr) : pystr :=
  ip ++ match fo with Some fp => chr "." :: fp | None => [] end.

Definition digits (s : pystr) : Prop := s <> [] /\ forallb is_ascii_digit s = true.

End RegexSpec.

(* ===================================================================== *)
(** * [FinancialDataExtractorTool.extract]: a batch of reports *)
(* ===================================================================== *)

Module Batch.
Import PyStr Extractor.

(** One element of [results]: the error dict of a report without a file,
    or the dict of [_extract_from_single_report]. *)
Inductive report_result (M : Type) : Type :=
| FileError (err_doc_meta : M) (error : string) (err_metrics : gmap string entry)
| Extracted (r : extraction_result M).
Arguments FileError {M}.
Arguments Extracted {M}.

Record batch_result (M : Type) : Type := BatchResult {
  tool : string;
  batch_status : string;
  reports_processed : nat;
  results : list (report_result M)
}.
Arguments BatchResult {M}.
Arguments tool {M}.
Arguments batch_status {M}.
Arguments reports_processed {M}.
Arguments results {M}.

Section Extract.
Context {M : Type}.
(** [report.get("local_path")] and [os.path.exists]. *)
Variable get_local_path : M -> option pystr.
Variable path_exists : pystr -> bool.
Variable B : backends.

(** [not path or not os.path.exists(path)] *)
Definition no_file (report : M) : bool :=
  match get_local_path report with
  | None | Some [] => true
  | Some path => negb (path_exists path)
  end.

(** One turn of the loop over [reports]: [results.append(...)]. *)
Definition extract_turn (results : list (report_result M)) (report : M)
    : list (report_result M) :=
  if no_file report
  then results ++ [FileError report "file_not_found" ∅]
  else results ++ [Extracted (_extract_from_single_report B
                                (default [] (get_local_path report)) report)].

(** [extract(reports)] *)
Definition extract (reports : list M) : batch_result M :=
  let results := fold_left extract_turn reports [] in
  BatchResult "FinancialDataExtractorTool" "completed" (length results) results.

(** The legacy wrapper [extract_financial_data]: a new tool, then [extract]. *)
Definition extract_financial_data (reports : list M) : batch_result M :=
  extract reports.

End Extract.

(** The [doc_meta] and the [metrics] of a result, whichever dict it is. *)
Definition result_doc_meta {M : Type} (r : report_result M) : M :=
  match r with
  | FileError m _ _ => m
  | Extracted r => doc_meta r
  end.

Definition result_metrics {M : Type} (r : report_result M) : gmap string entry :=
  match r with
  | FileError _ _ m => m
  | Extracted r => res_metrics r
  end.

End Batch.

Module BackendSpec.
Import PyStr NumberParsing Extractor ExtractorBackends.

(** A machine with none of the optional PDF libraries. *)
Definition no_libraries : world :=
  {| has_camelot := false;
     camelot_read_pdf := fun _ _ => None;
     pdfplumber_pages := fun _ => None;
     ocr_pages := fun _ _ => None |}.

(** The keys the labels of the text scanner stand for. *)
Definition text_keys : list string :=
  ["total_revenue"; "net_profit"; "operating_profit"; "ebitda"; "eps"]%string.

(** [str.lower] does on the scanner's labels what it does on ASCII. *)
Definition lowers_labels (py : interpreter) : Prop :=
  Forall (fun l => str_lower py (u l) = map ascii_lower (u l)) text_labels.

(** The cell [df.iat[r, c]] of a table, as a string. *)
Definition cell_of (t : table) (r c : nat) : pystr := nth c (nth r (df t) []) [].

Definition n_rows (t : table) : nat := length (df t).
Definition n_cols (t : table) : nat := length (nth 0 (df t) []).

(** The pages whose text pdfplumber's loop keeps: those before the first
    page on which [extract_text] raises, with a text that is not empty. *)
Fixpoint kept_texts (pages : list page_text) : list pystr :=
  match pages with
  | [] | PageRaised :: _ => []
  | PageText (c :: s) :: pages' => (c :: s) :: kept_texts pages'
  | _ :: pages' => kept_texts pages'
  end.

(** The pages the OCR loop keeps: those on which [image_to_string]
    returned a string. *)
Definition ocr_texts (pages : list page_text) : list pystr :=
  omap (fun p => match p with PageText s => Some s | _ => None end) pages.

(** Each text after a blank line. *)
Definition joined (texts : list pystr) : pystr :=
  concat (map (fun s => two_newlines ++ s) texts).

End BackendSpec.

Module BackendSamples.
Import PyStr NumberParsing Extractor ExtractorBackends.

(** A results table of two rows, on page 3, found by the stream flavor
    only; the lattice flavor raises. *)
Definition results_table : table :=
  Table [[u "Particulars"; u "Q2 FY25"; u "Q1 FY25"];
         [u " Revenue from operations "; u "64,259"; u "62,613"]] 3.

Definition one_table : world :=
  {| has_camelot := true;
     camelot_read_pdf := fun _ flavor =>
       if String.eqb flavor "stream" then Some [results_table] else None;
     pdfplumber_pages := fun _ => None;
     ocr_pages := fun _ _ => None |}.

Definition revenue_hit : candidate :=
  Candidate (u "Revenue from operations") 64259 (Some INR_Cr) (Some 3)
            (Some 0.85%float) None.

End BackendSamples.

Module ChunkSpec.
Import PyStr Qualitative.

(** A word as [str.split()] returns it: not empty, no white space. *)
Definition is_token (w : pystr) : Prop :=
  w <> [] /\ Forall (fun c => py_isspace c = false) w.

(** [ceil(a / b)] *)
Definition div_up (a b : nat) : nat := (a + b - 1) / b.

End ChunkSpec.

Module ChunkIdSpec.
Import PyStr Qualitative.

(** [transcript.get('name', 'unknown')] *)
Definition name_of (t : transcript) : pystr := default unknown (name t).

(** The chunk id of chunk [i] of a transcript called [nm]. *)
Definition id_of (nm : pystr) (i : nat) : pystr := nm ++ u "_chunk_" ++ str_of_nat i.

(** The value of a string of ASCII digits. *)
Definition decimal_value (ds : pystr) : N :=
  fold_left (fun acc c => (10 * acc + (c - 48))%N) ds 0%N.

End ChunkIdSpec.

(* ===================================================================== *)
(** * [QualitativeAnalysisTool.__init__] *)
(* ===================================================================== *)

Module ToolInit.
Import PyStr Qualitative.

(** [__init__(embed_model_name, embedder)].  [force] is
    [os.getenv("FORCE_FAKE_EMBEDDER")] ([None]: not set); the model name is
    read by the loader of sentence-transformers, which is part of [env]. *)
Definition init (E : env) (force : option pystr) (embedder : option embedder_fn)
    : tool :=
  let flag := str_lower E (default (u "0") force) in
  Tool (match embedder with
        | Some e => Some e
        | None =>
            if bool_decide (flag ∈ [u "1"; u "true"; u "yes"])
            then Some (fake_embedder E) else None
        end)
       None [] None.

End ToolInit.

Module RetrieveSpec.
Import PyStr Qualitative.

(** The same machine with another [str.lower]. *)
Definition with_lower (E : env) (f : pystr -> pystr) : env :=
  {| read_file := read_file E;
     sentence_transformer := sentence_transformer E;
     fake_embedder := fake_embedder E;
     has_numpy := has_numpy E;
     np_array := np_array E;
     astype_float32 := astype_float32 E;
     has_faiss := has_faiss E;
     faiss_build := faiss_build E;
     faiss_search := faiss_search E;
     np_dists := np_dists E;
     np_argsort := np_argsort E;
     pow_half := pow_half E;
     str_lower := f |}.

(** [index.search(q, k)] returns at most [k] neighbours. *)
Definition search_within_k (E : env) : Prop :=
  forall stored q k ds ixs,
    faiss_search E stored q k = Some (ds, ixs) -> (length ixs <= Z.to_nat k)%nat.

(** The label the sentiment rule gives, read off the two counts. *)
Definition label_by_counts (p n : Z) : string :=
  if p >? n then (if 2 * p >? 3 * n then "positive" else "cautiously optimistic")
  else if n >? p then (if 2 * n >? 3 * p then "negative" else "cautious")
  else "neutral".

End RetrieveSpec.

(* ===================================================================== *)
(** * [extract_metrics_from_text]: nine patterns over free text *)
(* ===================================================================== *)

Module TextMetrics.
Import PyStr Regex NumberParsing ExtractorBackends.

(** [x*?] followed by [rest]: the lazy loop tries [rest] first and one
    more [x] only when that fails.  [n] bounds the number of turns; the
    length of the text is enough, as every turn reads a code point. *)
Fixpoint lazy_then (n : nat) (x rest : regex) : regex :=
  match n with
  | O => rest
  | S n' => Alt rest (Cat x (lazy_then n' x rest))
  end.

(** [r1|r2|...] *)
Fixpoint alts (rs : list regex) : regex :=
  match rs with
  | [] => Sym (fun _ => false)
  | [r] => r
  | r :: rs' => Alt r (alts rs')
  end.

Section Patterns.
(** The interpreter's tables: [\w], [str.lower], caseless matching; the
    decimal digits beyond ASCII for [\d]; and [float] on a string. *)
Variable py : interpreter.
Variable uni_decimal : N -> bool.
Variable float_of_str : pystr -> option float.

(** [\d] on [str] patterns *)
Definition is_decimal (c : N) : bool :=
  if (c <? 128)%N then is_ascii_digit c else uni_decimal c.

(** A literal under [(?i)]: a letter matches caselessly, any other code
    point matches itself. *)
Fixpoint word (s : pystr) : regex :=
  match s with
  | [] => Eps
  | c :: s' =>
      Cat (if is_ascii_lower c then Sym (fun x => ci_eq py x c) else Sym (is_char c))
          (word s')
  end.

Definition words (ws : list string) : regex := alts (map (fun s => word (u s)) ws).

(** [.] without [re.DOTALL] *)
Definition any : regex := Sym (fun c => negb (c =? 10)%N).

(** [[\d,\.]] and [[\d\.]] *)
Definition amount_char (c : N) : bool :=
  is_decimal c || (c =? chr ",")%N || (c =? chr ".")%N.
Definition figure_char (c : N) : bool := is_decimal c || (c =? chr ".")%N.

(** [([\d,\.]+)\s*(u1|u2|...)?] *)
Definition amount_with_unit (units : list string) : regex :=
  Cat (Group 1 (Plus (Sym amount_char)))
      (Cat (Star space) (Opt (Group 2 (words units)))).

(** [([\d\.]+)\s*%] *)
Definition percentage : regex :=
  Cat (Group 1 (Plus (Sym figure_char)))
      (Cat (Star space) (Sym (is_char (chr "%")))).

(** [([\d\.]+)] *)
Definition figure : regex := Group 1 (Plus (Sym figure_char)).

(** [[-\s]*] *)
Definition dashes : regex := Star (Sym (fun c => (c =? chr "-")%N || py_isspace c)).

(** The [patterns] dict, in its order; [n] is the bound of the lazy loops. *)
Definition patterns (n : nat) : list (string * regex) :=
  [ ("total_revenue"%string,
      Cat (words ["revenue from operations"; "total income"; "total revenue"; "revenue"])
          (lazy_then n any (amount_with_unit ["crore"; "million"; "inr"; "₹"])));
    ("net_profit"%string,
      Cat (words ["net profit"; "profit after tax"; "pat"])
          (lazy_then n any (amount_with_unit ["crore"; "million"; "inr"; "₹"])));
    ("operating_margin"%string,
      Cat (words ["operating margin"; "ebit margin"]) (lazy_then n any percentage));
    ("net_profit_margin"%string,
      Cat (words ["net profit margin"; "profit margin"]) (lazy_then n any percentage));
    ("eps"%string,
      Cat WordB (Cat (words ["eps"; "earnings per share"])
                     (Cat WordB (lazy_then n any figure))));
    ("ebitda"%string,
      Cat (words ["ebitda"; "earnings before interest"])
          (lazy_then n any (amount_with_unit ["crore"; "inr"; "₹"])));
    ("roe"%string,
      Cat (words ["return on equity"; "roe"]) (lazy_then n any percentage));
    ("free_cash_flow"%string,
      Cat (words ["free cash flow"; "fcf"])
          (lazy_then n any (amount_with_unit ["crore"; "inr"; "₹"])));
    ("debt_to_equity"%string,
      Cat (Alt (Cat (word (u "debt"))
                    (Cat dashes (Cat (word (u "to")) (Cat dashes (word (u "equity"))))))
               (Cat (word (u "d")) (Cat (Opt (Sym (is_char (chr "/")))) (word (u "e")))))
          (lazy_then n any figure)) ].

(** A value of the [found] dict. *)
Record found_entry : Type := Found {
  f_value : float;
  f_unit : string;
  f_confidence : float
}.

Definition percent_keys : list string :=
  ["operating_margin"; "net_profit_margin"; "roe"]%string.

Definition unscaled_keys : list string :=
  ["operating_margin"; "net_profit_margin"; "roe"; "debt_to_equity"]%string.

(** The default unit mapping. *)
Definition unit_of (key : string) : string :=
  if bool_decide (key ∈ percent_keys) then "%"
  else if String.eqb key "debt_to_equity" then "ratio"
  else "INR_Cr".

(** [parse_inr_number(raw)], else [float(raw.replace(",", ""))]; [None]
    when both fail. *)
Definition value_of_raw (raw : pystr) : option float :=
  match parse_inr_number (is_word (uni_alnum py)) raw with
  | Some v => Some v
  | None => float_of_str (remove_char (chr ",") raw)
  end.

(** [(unit_raw or "").lower() if unit_raw else ""] *)
Definition unit_marker (unit_raw : option pystr) : pystr :=
  match unit_raw with
  | Some (c :: s) => str_lower py (c :: s)
  | _ => []
  end.

(** Million to crore, for the keys that are amounts. *)
Definition scaled (key : string) (unit_raw : option pystr) (val : float) : float :=
  if contains (u "million") (unit_marker unit_raw)
     && negb (bool_decide (key ∈ unscaled_keys))
  then (val / 10.0)%float else val.

(** One turn of the loop over [patterns.items()]. *)
Definition found_turn (text : pystr) (found : gmap string found_entry)
    (kp : string * regex) : gmap string found_entry :=
  match search (is_word (uni_alnum py)) kp.2 text with
  | None => found
  | Some m =>
      match group m 1 ≫= value_of_raw with
      | Some val =>
          if negb (PrimFloat.is_nan val)
          then <[kp.1 := Found (scaled kp.1 (group m 2) val) (unit_of kp.1) 0.6]> found
          else found
      | None => found
      end
  end.

Record text_metrics : Type := TextMetricsResult {
  tm_metrics : gmap string found_entry;
  tm_count : nat
}.

(** [extract_metrics_from_text(text)] *)
Definition extract_metrics_from_text (text : pystr) : text_metrics :=
  let found := fold_left (found_turn text) (patterns (length text)) ∅ in
  TextMetricsResult found (size found).

(** The tool wrapper [extract_financial_metrics]: on a [str] the method
    does not raise, so the wrapper returns its result. *)
Definition extract_financial_metrics (text : pystr) : text_metrics :=
  extract_metrics_from_text text.

End Patterns.

(** The keys of the [patterns] dict. *)
Definition pattern_keys : list string :=
  ["total_revenue"; "net_profit"; "operating_margin"; "net_profit_margin"; "eps";
   "ebitda"; "roe"; "free_cash_flow"; "debt_to_equity"]%string.

(** The keys whose pattern has no unit group. *)
Definition unitless_keys : list string :=
  ["operating_margin"; "net_profit_margin"; "eps"; "roe"; "debt_to_equity"]%string.

(** ASCII text: [float] as [py_float], no decimal digit beyond ASCII. *)
Definition ascii_metrics : pystr -> text_metrics :=
  extract_metrics_from_text ascii_interpreter (fun _ => false) py_float.

End TextMetrics.

Module TextMetricsSpec.
Import PyStr Regex NumberParsing ExtractorBackends TextMetrics.

(** The keys whose pattern has a unit group. *)
Definition amount_keys : list string :=
  ["total_revenue"; "net_profit"; "ebitda"; "free_cash_flow"]%string.

(** What one pattern contributes on its own. *)
Definition turn_entry (py : interpreter) (uni_decimal : N -> bool)
    (float_of_str : pystr -> option float) (text : pystr) (kp : string * regex)
    : option found_entry :=
  m ← search (is_word (uni_alnum py)) kp.2 text;
  val ← group m 1 ≫= value_of_raw py float_of_str;
  if negb (PrimFloat.is_nan val)
  then Some (Found (scaled py kp.1 (group m 2) val) (unit_of kp.1) 0.6)
  else None.

(** [xs] is the literal [s] as [(?i)] reads it: a letter of the pattern
    caselessly, any other code point exactly. *)
Definition ci_literal (py : interpreter) (s xs : pystr) : Prop :=
  Forall2 (fun c x => if is_ascii_lower c then ci_eq py x c = true else x = c) s xs.

(** The labels of the keys whose pattern starts with a list of words. *)
Definition label_words : list (string * list string) :=
  [ ("total_revenue",
      ["revenue from operations"; "total income"; "total revenue"; "revenue"]);
    ("net_profit", ["net profit"; "profit after tax"; "pat"]);
    ("operating_margin", ["operating margin"; "ebit margin"]);
    ("net_profit_margin", ["net profit margin"; "profit margin"]);
    ("eps", ["eps"; "earnings per share"]);
    ("ebitda", ["ebitda"; "earnings before interest"]);
    ("roe", ["return on equity"; "roe"]);
    ("free_cash_flow", ["free cash flow"; "fcf"]) ]%string.

End TextMetricsSpec.

Module RegexDen.
Import PyStr Regex.

(** The strings a pattern matches, with the groups it captures on the way
    (the latest capture first, as the matcher keeps them). *)
Fixpoint den (r : regex) (xs : pystr) (cs : list (nat * pystr)) : Prop :=
  match r with
  | Eps | WordB => xs = [] /\ cs = []
  | Sym p => cs = [] /\ exists c, xs = [c] /\ p c = true
  | Cat r1 r2 =>
      exists x1 x2 c1 c2,
        xs = x1 ++ x2 /\ cs = c2 ++ c1 /\ den r1 x1 c1 /\ den r2 x2 c2
  | Alt r1 r2 => den r1 xs cs \/ den r2 xs cs
  | Star r0 =>
      exists parts : list (pystr * list (nat * pystr)),
        xs = concat parts.*1 /\ cs = concat (rev parts.*2)
        /\ Forall (fun p => den r0 p.1 p.2) parts
  | Group i r0 => exists c0, cs = (i, xs) :: c0 /\ den r0 xs c0
  end.

End RegexDen.

(* ===================================================================== *)
(** * Properties of the number parser *)
(* ===================================================================== *)

Module NumberParsingProps.
Import PyStr Regex NumberParsing NumberParsingSpec.

(** ** The matcher on greedy runs *)

Section Matcher.
Context {A : Type} (w : N -> bool).

Lemma star_loop_total (body : mstate -> (mstate -> option A) -> option A) k fuel st :
  (forall st', is_Some (k st')) -> is_Some (star_loop body k fuel st).
Proof.
  intros Hk. destruct fuel as [|f]; simpl; [apply Hk|].
  destruct (body st _); [eauto | apply Hk].
Qed.

Lemma star_loop_S (body : mstate -> (mstate -> option A) -> option A) k f st :
  star_loop body k (S f) st =
  match body st (fun st' => if (length (rest st') <? length (rest st))%nat
                            then star_loop body k f st' else None) with
  | Some a => Some a
  | None => k st
  end.
Proof. reflexivity. Qed.

(** A starred class reads the whole run when what follows can go on from
    its end: the greedy choice is the one returned. *)
Lemma star_sym_greedy (p : N -> bool) (k : mstate -> option A) xs :
  forall tl b cs fuel,
  forallb p xs = true ->
  from_option p false (head tl) = false ->
  (length xs <= fuel)%nat ->
  is_Some (k (MState (adv b xs) tl cs)) ->
  star_loop (run w (Sym p)) k fuel (MState b (xs ++ tl) cs)
  = k (MState (adv b xs) tl cs).
Proof.
  induction xs as [|x xs IH]; intros tl b cs fuel Hp Htl Hfuel Hk.
  - destruct fuel as [|f]; simpl; [done|].
    destruct tl as [|c tl]; simpl in *; [done|]. by rewrite Htl.
  - destruct fuel as [|f]; simpl in Hfuel; [lia|].
    simpl in Hp. apply andb_prop in Hp as [Hx Hxs].
    set (body := run w (Sym p)) in *.
    rewrite star_loop_S. unfold body at 1. cbn [run rest app caps]. rewrite Hx.
    cbn [rest].
    replace (length (xs ++ tl) <? length (x :: xs ++ tl))%nat with true
      by (symmetry; apply Nat.ltb_lt; simpl; lia).
    change (adv b (x :: xs)) with (adv (Some x) xs) in *.
    rewrite (IH tl (Some x) cs f Hxs Htl ltac:(lia) Hk).
    by destruct Hk as [a ->].
Qed.

Lemma star_loop_keeps_group g (body : mstate -> (mstate -> option A) -> option A) :
  (forall st k a, body st k = Some a ->
     exists st', k st' = Some a /\ group (caps st') g = group (caps st) g) ->
  forall fuel st k a, star_loop body k fuel st = Some a ->
     exists st', k st' = Some a /\ group (caps st') g = group (caps st) g.
Proof.
  intros Hbody. induction fuel as [|f IH]; intros st k a; simpl.
  - eauto.
  - destruct (body st _) as [a'|] eqn:E; [|eauto].
    intros [= <-]. apply Hbody in E as (st1 & E1 & G1).
    destruct (_ <? _)%nat; [|done].
    apply IH in E1 as (st2 & E2 & G2). exists st2. split; [done|congruence].
Qed.

Lemma run_Cat r1 r2 st (k : mstate -> option A) :
  run w (Cat r1 r2) st k = run w r1 st (fun st' => run w r2 st' k).
Proof. reflexivity. Qed.

Lemma run_Star r0 st (k : mstate -> option A) :
  run w (Star r0) st k = star_loop (run w r0) k (length (rest st)) st.
Proof. reflexivity. Qed.

Lemma run_Group i r0 st (k : mstate -> option A) :
  run w (Group i r0) st k = run w r0 st (fun st' => k (set_cap i st st')).
Proof. reflexivity. Qed.

Lemma run_Sym_hit p c tl b cs (k : mstate -> option A) :
  p c = true ->
  run w (Sym p) (MState b (c :: tl) cs) k = k (MState (Some c) tl cs).
Proof. intros H. simpl. by rewrite H. Qed.

Lemma run_Sym_miss p c tl b cs (k : mstate -> option A) :
  p c = false -> run w (Sym p) (MState b (c :: tl) cs) k = None.
Proof. intros H. simpl. by rewrite H. Qed.

Lemma run_Opt_total r st (k : mstate -> option A) :
  (forall st', is_Some (k st')) -> is_Some (run w (Opt r) st k).
Proof.
  intros Hk. unfold Opt. cbn [run]. destruct (run w r st k); [eauto|apply Hk].
Qed.

End Matcher.

(** A pattern without group [g] leaves the capture of [g] as it found it. *)
Lemma run_keeps_group (w : N -> bool) g r :
  no_group g r = true ->
  forall (A : Type) st (k : mstate -> option A) a, run w r st k = Some a ->
  exists st', k st' = Some a /\ group (caps st') g = group (caps st) g.
Proof.
  induction r as [|p|r1 IH1 r2 IH2|r1 IH1 r2 IH2|r0 IH|i r0 IH|];
    simpl; intros Hng A st k a Hrun.
  - eauto.
  - destruct (rest st) as [|c tl]; [done|]. destruct (p c); [|done]. eauto.
  - apply andb_prop in Hng as [H1 H2].
    apply (IH1 H1) in Hrun as (st1 & E1 & G1).
    apply (IH2 H2) in E1 as (st2 & E2 & G2).
    exists st2. split; [done|congruence].
  - apply andb_prop in Hng as [H1 H2].
    destruct (run w r1 st k) as [a'|] eqn:E.
    + injection Hrun as <-. eapply IH1; eauto.
    + eapply IH2; eauto.
  - eapply star_loop_keeps_group; [|exact Hrun]. intros. eapply IH; eauto.
  - apply andb_prop in Hng as [Hi H0].
    apply (IH H0) in Hrun as (st1 & E1 & G1).
    eexists; split; [exact E1|]. simpl.
    apply negb_true_iff in Hi. rewrite Nat.eqb_sym, Hi. done.
  - destruct (at_boundary _ _ _); [eauto|done].
Qed.

(** ** Pattern 1 *)

Lemma pattern1_unfold :
  pattern1 = Cat (Sym (is_char rupee))
               (Cat (Star space) (Cat (Group 1 (Plus (Sym is_num_char))) pattern1_tail)).
Proof. reflexivity. Qed.

Lemma pattern1_tail_ok w st :
  exists m, run w pattern1_tail st (fun st' => Some (caps st')) = Some m
            /\ group m 1 = group (caps st) 1.
Proof.
  assert (is_Some (run w pattern1_tail st (fun st' => Some (caps st')))) as [m Hm].
  { unfold pattern1_tail. rewrite run_Cat, run_Star.
    apply star_loop_total. intros st'. apply run_Opt_total. eauto. }
  exists m. split; [done|].
  apply run_keeps_group with (g := 1%nat) in Hm as (st' & [= <-] & G); done.
Qed.

Lemma num_char_not_space c : is_num_char c = true -> py_isspace c = false.
Proof.
  unfold is_num_char, py_isspace, is_ascii_digit. cbn [chr N_of_ascii N_of_digits].
  intros H. apply not_true_is_false. intros Hs.
  rewrite ?orb_true_iff, ?andb_true_iff, ?N.leb_le, ?N.eqb_eq in *. lia.
Qed.

Lemma take_app_exact (xs tl : pystr) :
  take (length (xs ++ tl) - length tl) (xs ++ tl) = xs.
Proof.
  rewrite length_app. replace (length xs + length tl - length tl)%nat
    with (length xs) by lia. by rewrite take_app_length.
Qed.

(** At a rupee sign followed by blanks and a run of [[0-9,.]], pattern 1
    matches and its group 1 is the whole run. *)
Lemma pattern1_at w prev ws num tl :
  forallb py_isspace ws = true ->
  num <> [] -> forallb is_num_char num = true ->
  from_option is_num_char false (head tl) = false ->
  exists m, run w pattern1 (MState prev (rupee :: ws ++ num ++ tl) [])
                (fun st => Some (caps st)) = Some m
            /\ group m 1 = Some num.
Proof.
  intros Hws Hne Hnum Htl. destruct num as [|n0 num]; [done|].
  simpl in Hnum. apply andb_prop in Hnum as [Hn0 Hnum].
  set (st2 := MState (adv (Some rupee) ws) ((n0 :: num) ++ tl) []).
  set (st3 := MState (adv (Some n0) num) tl []).
  destruct (pattern1_tail_ok w (set_cap 1 st2 st3)) as (m & Hm & Gm).
  assert (run w (Group 1 (Plus (Sym is_num_char))) st2
            (fun st' => run w pattern1_tail st' (fun st => Some (caps st))) = Some m)
    as Hgroup.
  { rewrite run_Group. unfold Plus. rewrite run_Cat. unfold st2 at 1.
    rewrite <- app_comm_cons, run_Sym_hit by done. rewrite run_Star. cbn [rest].
    rewrite star_sym_greedy; fold st3;
      first [done | rewrite length_app; lia | rewrite Hm; eauto]. }
  exists m. split.
  - rewrite pattern1_unfold, run_Cat, run_Sym_hit by apply N.eqb_refl.
    rewrite run_Cat, run_Star. cbn [rest]. unfold space.
    rewrite star_sym_greedy; fold st2;
      first [ done | rewrite run_Cat; exact Hgroup
            | simpl; by apply num_char_not_space | rewrite length_app; lia
            | rewrite run_Cat, Hgroup; eauto ].
  - rewrite Gm. unfold set_cap, st2, st3. cbn [rest caps group].
    rewrite Nat.eqb_refl. f_equal. apply (take_app_exact (n0 :: num) tl).
Qed.

Lemma pattern1_needs_rupee w prev c tl :
  c <> rupee ->
  run w pattern1 (MState prev (c :: tl) []) (fun st => Some (caps st)) = None.
Proof.
  intros Hc. rewrite pattern1_unfold, run_Cat. apply run_Sym_miss.
  unfold is_char. by apply N.eqb_neq.
Qed.

Lemma search_from_hit w r prev s m :
  run w r (MState prev s []) (fun st => Some (caps st)) = Some m ->
  search_from w r prev s = Some m.
Proof. intros H. destruct s; simpl; by rewrite H. Qed.

Lemma search_pattern1 w pre ws num tl : forall prev,
  Forall (fun c => c <> rupee) pre ->
  forallb py_isspace ws = true ->
  num <> [] -> forallb is_num_char num = true ->
  from_option is_num_char false (head tl) = false ->
  exists m, search_from w pattern1 prev (pre ++ rupee :: ws ++ num ++ tl) = Some m
            /\ group m 1 = Some num.
Proof.
  induction pre as [|c pre IH]; intros prev Hpre Hws Hne Hnum Htl.
  - destruct (pattern1_at w prev ws num tl Hws Hne Hnum Htl) as (m & Hm & Gm).
    exists m. split; [|done]. by apply search_from_hit.
  - inversion Hpre as [|? ? Hc Hpre']; subst.
    destruct (IH (Some c) Hpre' Hws Hne Hnum Htl) as (m & Hm & Gm).
    exists m. split; [|done]. cbn [app search_from].
    rewrite pattern1_needs_rupee by done. exact Hm.
Qed.

(** ** The documented examples and the order of the patterns *)

Lemma first_matching_pattern_spec w text i :
  first_matching_pattern w text = Some i ->
  (1 <= i <= 4)%nat /\ is_Some (search w (nth_pattern i) text)
  /\ forall j, (1 <= j < i)%nat -> search w (nth_pattern j) text = None.
Proof.
  unfold first_matching_pattern. destruct text as [|c text]; [done|].
  destruct (search w pattern1 _) eqn:E1; simpl.
  { intros [= <-]. split; [lia|]. split; [simpl; rewrite E1; eauto|]. intros; lia. }
  destruct (search w pattern2 _) eqn:E2; simpl.
  { intros [= <-]. split; [lia|]. split; [simpl; rewrite E2; eauto|].
    intros j Hj. assert (j = 1%nat) as -> by lia. done. }
  destruct (search w pattern3 _) eqn:E3; simpl.
  { intros [= <-]. split; [lia|]. split; [simpl; rewrite E3; eauto|].
    intros j Hj. assert (j = 1 \/ j = 2)%nat as [-> | ->] by lia; done. }
  destruct (search w pattern4 _) eqn:E4; simpl; [|done].
  intros [= <-]. split; [lia|]. split; [simpl; rewrite E4; eauto|].
  intros j Hj. assert (j = 1 \/ j = 2 \/ j = 3)%nat as [-> | [-> | ->]] by lia; done.
Qed.

Lemma parse_by_first_pattern w text :
  parse_inr_number w text =
  match first_matching_pattern w text with
  | Some 4%nat => m ← search w pattern4 text; g ← group m 1; py_float g
  | Some i => m ← search w (nth_pattern i) text; float_of_group1 m
  | None => None
  end.
Proof.
  unfold parse_inr_number, first_matching_pattern. destruct text as [|c text]; [done|].
  destruct (search w pattern1 _) eqn:E1; simpl; [by rewrite E1|].
  destruct (search w pattern2 _) eqn:E2; simpl; [by rewrite E2|].
  destruct (search w pattern3 _) eqn:E3; simpl; [by rewrite E3|].
  destruct (search w pattern4 _) eqn:E4; simpl; [by rewrite ?E4|]. done.
Qed.

(** C3. The parser returns the documented values on the documented inputs:
    12345.67 for the rupee-marked amount (pattern 1), 123456.0 for the
    Indian grouping (pattern 2) and for the Western grouping (pattern 3),
    9876.54 for the plain decimal (pattern 4), and nothing for the empty
    text and for a text without digits.  On every text the value comes from
    the first of the four patterns, in the order 1, 2, 3, 4, that matches:
    the patterns before it do not match, and it is not cross-checked
    against the later ones. *)
Theorem parse_inr_number_examples (uni_alnum : N -> bool) :
  (parse_inr_number (is_word uni_alnum) (u "₹ 12,345.67 Cr") = Some 12345.67%float
   /\ first_matching_pattern (is_word uni_alnum) (u "₹ 12,345.67 Cr") = Some 1%nat)
  /\ (parse_inr_number (is_word uni_alnum) (u "1,23,456") = Some 123456.0%float
      /\ first_matching_pattern (is_word uni_alnum) (u "1,23,456") = Some 2%nat)
  /\ (parse_inr_number (is_word uni_alnum) (u "123,456") = Some 123456.0%float
      /\ first_matching_pattern (is_word uni_alnum) (u "123,456") = Some 3%nat)
  /\ (parse_inr_number (is_word uni_alnum) (u "9876.54") = Some 9876.54%float
      /\ first_matching_pattern (is_word uni_alnum) (u "9876.54") = Some 4%nat)
  /\ parse_inr_number (is_word uni_alnum) (u "") = None
  /\ parse_inr_number (is_word uni_alnum) (u "no numbers here") = None
  /\ (forall text,
        parse_inr_number (is_word uni_alnum) text =
        match first_matching_pattern (is_word uni_alnum) text with
        | Some 4%nat =>
            m ← search (is_word uni_alnum) pattern4 text; g ← group m 1; py_float g
        | Some i => m ← search (is_word uni_alnum) (nth_pattern i) text; float_of_group1 m
        | None => None
        end)
  /\ (forall text i,
        first_matching_pattern (is_word uni_alnum) text = Some i ->
        (1 <= i <= 4)%nat
        /\ is_Some (search (is_word uni_alnum) (nth_pattern i) text)
        /\ forall j, (1 <= j < i)%nat ->
             search (is_word uni_alnum) (nth_pattern j) text = None).
Proof.
  repeat split; try reflexivity.
  - apply parse_by_first_pattern.
  - eapply first_matching_pattern_spec; eassumption.
  - eapply first_matching_pattern_spec; eassumption.
  - eapply first_matching_pattern_spec; eassumption.
  - eapply first_matching_pattern_spec; eassumption.
Qed.

(** Further runs: no word boundary inside "abc123"; a two-group number is
    read as Indian grouping; a percent sign ends a plain decimal; a rupee
    sign followed by separators only is matched by pattern 1 and ends the
    parse with nothing, whatever follows. *)
Example parse_further_runs (uni_alnum : N -> bool) :
  parse_inr_number (is_word uni_alnum) (u "abc123") = None
  /\ parse_inr_number (is_word uni_alnum) (u "12,34") = Some 1234.0%float
  /\ parse_inr_number (is_word uni_alnum) (u "margin 10.5%") = Some 10.5%float
  /\ parse_inr_number (is_word uni_alnum) (u "Revenue 1,23,456.78 Cr") = Some 123456.0%float
  /\ parse_inr_number (is_word uni_alnum) (u "₹ , 500") = None.
Proof. repeat split; reflexivity. Qed.

(** ** The currency marker *)




End NumberParsingProps.

(* ===================================================================== *)
(** * Properties of the extraction cascade *)
(* ===================================================================== *)

Module ExtractorProps.
Import PyStr Extractor CascadeSpec.

Lemma normalize_range B lbl k :
  _normalize_metric_key B lbl = Some k -> k ∈ normalized_keys.
Proof.
  unfold _normalize_metric_key, normalized_keys. destruct lbl as [|c lbl]; [done|].
  repeat (match goal with |- context [if ?b then _ else _] => destruct b end);
    intros [= <-]; set_solver.
Qed.

(** An insertion loop never touches a key that is already set, and sets an
    absent key to the first admissible hit for it. *)
Lemma insert_loop_lookup B allowed mk cs : forall m n k,
  (fold_left (insert_if_absent B allowed mk) cs (m, n)).1 !! k =
  match m !! k with
  | Some e => Some e
  | None => offered B allowed mk cs k
  end.
Proof.
  induction cs as [|c cs IH]; intros m n k; simpl.
  - by destruct (m !! k).
  - unfold insert_if_absent at 2. simpl.
    destruct (_normalize_metric_key B (c_label c)) as [key|] eqn:Hkey.
    2:{ rewrite IH. unfold offered. simpl. rewrite Hkey.
        rewrite bool_decide_eq_false_2 by done. done. }
    destruct (negb (String.eqb key "") && allowed key
              && negb (bool_decide (is_Some (m !! key)))) eqn:Hins.
    + apply andb_prop in Hins as [Hins Habs]. apply andb_prop in Hins as [Hne Hal].
      apply negb_true_iff, bool_decide_eq_false, eq_None_not_Some in Habs.
      rewrite IH. destruct (decide (key = k)) as [->|Hk].
      * rewrite lookup_insert_eq, Habs.
        unfold offered. simpl. rewrite Hkey, bool_decide_eq_true_2, Hne, Hal by done.
        done.
      * rewrite lookup_insert_ne by done. unfold offered. simpl. rewrite Hkey.
        rewrite bool_decide_eq_false_2 by congruence. done.
    + rewrite IH. destruct (m !! k) as [e|] eqn:Hmk; [done|].
      unfold offered. simpl. rewrite Hkey.
      destruct (decide (key = k)) as [->|Hk].
      * rewrite Hmk in Hins. rewrite bool_decide_eq_false_2 in Hins
          by (intros [? ?]; done). simpl in Hins. rewrite andb_true_r in Hins.
        rewrite bool_decide_eq_true_2 by done. simpl. by rewrite Hins.
      * rewrite bool_decide_eq_false_2 by congruence. done.
Qed.

Lemma offered_method B allowed mk cs k e meth :
  (forall c, method (src (mk c)) = meth) ->
  offered B allowed mk cs k = Some e -> method (src e) = meth.
Proof.
  unfold offered. intros Hmk. destruct (List.find _ cs); [|done].
  simpl. intros [= <-]. apply Hmk.
Qed.

Lemma offered_key B allowed mk cs k e :
  offered B allowed mk cs k = Some e -> k ∈ normalized_keys /\ allowed k = true.
Proof.
  unfold offered. destruct (List.find _ cs) as [c|] eqn:Hf; [|done]. intros _.
  apply find_some in Hf as [_ Hc]. apply andb_prop in Hc as [Hc Hal].
  apply andb_prop in Hc as [Hc _]. apply bool_decide_eq_true in Hc.
  split; [by eapply normalize_range|done].
Qed.

(** ** The three stages as lookups *)

Lemma after_table_lookup B path k :
  metrics (after_table B path) !! k = table_offer B path k.
Proof.
  unfold after_table, camelot_stage, table_offer. destruct (_HAS_CAMELOT B); [|done].
  match goal with |- context [fold_left (insert_if_absent B ?al ?mk) ?cs (?m0, ?n0)] =>
    pose proof (insert_loop_lookup B al mk cs m0 n0 k) as L;
    destruct (fold_left (insert_if_absent B al mk) cs (m0, n0)) as [m found] end.
  simpl in *. by rewrite L.
Qed.

Lemma after_text_lookup B path k :
  metrics (after_text B path) !! k =
  match metrics (after_table B path) !! k with
  | Some e => Some e
  | None => text_offer B path k
  end.
Proof.
  unfold after_text, pdfplumber_stage, text_offer.
  destruct (missing_in _ _) as [|k0 miss] eqn:Hmiss.
  { by destruct (metrics _ !! k). }
  destruct (_extract_text_with_pdfplumber B path) as [|c text] eqn:Htext.
  { simpl. by destruct (metrics _ !! k). }
  match goal with |- context [fold_left (insert_if_absent B ?al ?mk) ?cs (?m0, ?n0)] =>
    pose proof (insert_loop_lookup B al mk cs m0 n0 k) as L;
    destruct (fold_left (insert_if_absent B al mk) cs (m0, n0)) as [m found] end.
  simpl in *. by rewrite L.
Qed.

Lemma after_ocr_lookup B path k :
  metrics (after_ocr B path) !! k =
  match metrics (after_text B path) !! k with
  | Some e => Some e
  | None => ocr_offer B path k
  end.
Proof.
  unfold after_ocr, ocr_stage, ocr_offer.
  destruct (critical_missing _).
  2:{ by destruct (metrics _ !! k). }
  destruct (_extract_with_ocr B path 5) as [|c text] eqn:Htext.
  { simpl. by destruct (metrics _ !! k). }
  match goal with |- context [fold_left (insert_if_absent B ?al ?mk) ?cs (?m0, ?n0)] =>
    pose proof (insert_loop_lookup B al mk cs m0 n0 k) as L;
    destruct (fold_left (insert_if_absent B al mk) cs (m0, n0)) as [m found] end.
  simpl in *. by rewrite L.
Qed.

End ExtractorProps.

(* ===================================================================== *)
(** * Properties of the enricher *)
(* ===================================================================== *)

Module EnricherProps.
Import PyStr Enricher EnricherSpec.

Section Fallback.
Variable float_of_str : pystr -> option float.

Local Abbreviation to_float := (py_float_of float_of_str).

Lemma derived_has_value v : value_of (derived v) = Some (SFloat v).
Proof. reflexivity. Qed.

Lemma clean_derived v :
  clean float_of_str (derived v) = Some (Cleaned (SFloat v) (SStr (u "%")) (SFloat 0.5)).
Proof. reflexivity. Qed.

Lemma no_key_error_insert m k v :
  no_key_error m -> no_key_error (<[k := derived v]> m).
Proof.
  intros Hm k' d. destruct (decide (k = k')) as [->|Hk].
  - rewrite lookup_insert_eq. unfold derived. intros [= <-]. by eexists.
  - rewrite lookup_insert_ne by done. apply Hm.
Qed.

Lemma value_of_ok m k x :
  no_key_error m -> m !! k = Some x -> is_Some (value_of x).
Proof. intros Hm Hk. destruct x as [d|s]; simpl; [by eapply Hm|eauto]. Qed.

(** *** [operating_margin] *)

Lemma add_operating_margin_keeps m k v :
  m !! k = Some v -> add_operating_margin float_of_str m !! k = Some v.
Proof.
  intros Hk. unfold add_operating_margin.
  destruct (m !! "operating_margin"%string) eqn:Hom; [done|].
  destruct (m !! "operating_profit"%string); [|done].
  destruct (m !! "total_revenue"%string); [|done].
  destruct (_ ≫= _); [|done]. destruct (_ ≫= _); [|done].
  destruct (negb _); [|done].
  rewrite lookup_insert_ne; [done|]. intros <-. congruence.
Qed.

Lemma add_operating_margin_other m k :
  k <> "operating_margin"%string ->
  add_operating_margin float_of_str m !! k = m !! k.
Proof.
  intros Hk. unfold add_operating_margin.
  destruct (m !! "operating_margin"%string) eqn:Hom; [done|].
  destruct (m !! "operating_profit"%string); [|done].
  destruct (m !! "total_revenue"%string); [|done].
  destruct (_ ≫= _); [|done]. destruct (_ ≫= _); [|done].
  destruct (negb _); [|done].
  by rewrite lookup_insert_ne.
Qed.

Lemma add_operating_margin_no_key_error m :
  no_key_error m -> no_key_error (add_operating_margin float_of_str m).
Proof.
  intros Hm. unfold add_operating_margin.
  destruct (m !! "operating_margin"%string) eqn:Hom; [done|].
  destruct (m !! "operating_profit"%string); [|done].
  destruct (m !! "total_revenue"%string); [|done].
  destruct (_ ≫= _); [|done]. destruct (_ ≫= _); [|done].
  destruct (negb _); [|done].
  by apply no_key_error_insert.
Qed.

(** *** The quarter-over-quarter loop *)

Lemma add_qoq_other bases : forall m k,
  (forall b, b ∈ bases -> k <> (b +:+ "_qoq_pct")%string) ->
  add_qoq float_of_str bases m !! k = m !! k.
Proof.
  induction bases as [|b bases IH]; intros m k Hk; [done|].
  assert (forall b', b' ∈ bases -> k <> (b' +:+ "_qoq_pct")%string) as Hk'.
  { intros b' Hb'. apply Hk. by right. }
  assert (k <> (b +:+ "_qoq_pct")%string) as Hb by (apply Hk; left).
  simpl.
  destruct (m !! b) as [c|]; [|by apply IH].
  destruct (m !! (b +:+ "_prev")%string) as [p|]; [|by apply IH].
  destruct (value_of c) as [cur_val|]; [|done].
  destruct (value_of p) as [prev_val|]; [|done].
  destruct (to_float cur_val) as [cur|]; [|by apply IH].
  destruct (to_float prev_val) as [prev|]; [|by apply IH].
  destruct (negb _); [|by apply IH].
  rewrite IH by done. by rewrite lookup_insert_ne.
Qed.

Lemma add_qoq_derives bases : forall m b c p cur prev,
  no_key_error m ->
  NoDup (map (fun b => (b +:+ "_qoq_pct")%string) bases) ->
  writes_apart bases ->
  b ∈ bases ->
  m !! b = Some c -> m !! (b +:+ "_prev")%string = Some p ->
  value_of c ≫= to_float = Some cur ->
  value_of p ≫= to_float = Some prev ->
  (prev =? 0)%float = false ->
  add_qoq float_of_str bases m !! (b +:+ "_qoq_pct")%string
  = Some (derived ((cur - prev) / abs prev * 100.0)%float).
Proof.
  induction bases as [|b0 bases IH]; intros m b c p cur prev Hm Hnd Hwa Hb Hc Hp Hcur Hprev Hnz.
  { by apply elem_of_nil in Hb. }
  simpl in Hnd. apply NoDup_cons in Hnd as [Hfresh Hnd].
  assert (writes_apart bases) as Hwa'.
  { intros b1 b2 H1 H2. apply Hwa; by right. }
  apply elem_of_cons in Hb as [->|Hb].
  - simpl. rewrite Hc, Hp.
    destruct (value_of c) as [cur_val|]; [|done]. simpl in Hcur.
    destruct (value_of p) as [prev_val|]; [|done]. simpl in Hprev.
    rewrite Hcur, Hprev, Hnz. simpl.
    rewrite add_qoq_other.
    + by rewrite lookup_insert_eq.
    + intros b' Hb' Heq. apply Hfresh. rewrite Heq.
      apply (list_elem_of_fmap_2 (fun b => (b +:+ "_qoq_pct")%string)). done.
  - assert (forall v, <[(b0 +:+ "_qoq_pct")%string := v]> m !! b = Some c
                      /\ <[(b0 +:+ "_qoq_pct")%string := v]> m !! (b +:+ "_prev")%string = Some p)
      as Hread.
    { intros v. destruct (Hwa b0 b) as [H1 H2]; [by left|by right|].
      by rewrite !lookup_insert_ne. }
    simpl.
    destruct (m !! b0) as [c0|] eqn:Hc0; [|by eapply IH].
    destruct (m !! (b0 +:+ "_prev")%string) as [p0|] eqn:Hp0; [|by eapply IH].
    destruct (value_of_ok m _ _ Hm Hc0) as [cur_val ->].
    destruct (value_of_ok m _ _ Hm Hp0) as [prev_val ->].
    destruct (to_float cur_val) as [cur0|]; [|by eapply IH].
    destruct (to_float prev_val) as [prev0|]; [|by eapply IH].
    destruct (negb _); [|by eapply IH].
    eapply IH; try done.
    + by apply no_key_error_insert.
    + apply Hread.
    + apply Hread.
Qed.

Lemma qoq_bases_nodup :
  NoDup (map (fun b => (b +:+ "_qoq_pct")%string) qoq_bases).
Proof. apply (bool_decide_unpack _). by vm_compute. Qed.

Lemma qoq_bases_apart : writes_apart qoq_bases.
Proof.
  intros b1 b2 H1 H2. unfold qoq_bases in *.
  repeat (apply elem_of_cons in H1 as [->|H1]); [| | |by apply elem_of_nil in H1];
    (repeat (apply elem_of_cons in H2 as [->|H2]); [| | |by apply elem_of_nil in H2]);
    by split.
Qed.

End Fallback.
End EnricherProps.

(* ===================================================================== *)
(** * The cascade: precedence and escalation *)
(* ===================================================================== *)

Module CascadeTheorems.
Import PyStr Extractor CascadeSpec ExtractorProps Enricher EnricherSpec EnricherProps.

Lemma normalized_not_qoq k b :
  k ∈ normalized_keys -> b ∈ qoq_bases -> k <> (b +:+ "_qoq_pct")%string.
Proof.
  unfold normalized_keys, qoq_bases. intros Hk Hb.
  repeat (apply elem_of_cons in Hk as [->|Hk]);
    try (by apply elem_of_nil in Hk);
    (repeat (apply elem_of_cons in Hb as [->|Hb]); try (by apply elem_of_nil in Hb));
    done.
Qed.

Lemma clean_of_entry fstr e :
  clean fstr (of_entry e)
  = Some (Cleaned (SFloat (value e)) (SStr (unit e)) (SFloat (confidence e))).
Proof. reflexivity. Qed.

Lemma final_keys_normalized B path k e :
  metrics (after_ocr B path) !! k = Some e -> k ∈ normalized_keys.
Proof.
  rewrite after_ocr_lookup, after_text_lookup, after_table_lookup.
  unfold table_offer, text_offer, ocr_offer.
  destruct (_HAS_CAMELOT B).
  - destruct (offered _ _ camelot_entry _ k) eqn:E1.
    { intros _. by apply offered_key in E1 as [? _]. }
    destruct (missing_in _ _); [|destruct (_extract_text_with_pdfplumber B path)].
    3:{ destruct (offered _ _ pdfplumber_entry _ k) eqn:E2.
        { intros _. by apply offered_key in E2 as [? _]. }
        destruct (critical_missing _); [|done].
        destruct (_extract_with_ocr B path 5); [done|].
        intros E3. by apply offered_key in E3 as [? _]. }
    all: destruct (critical_missing _); [|done];
         destruct (_extract_with_ocr B path 5); [done|];
         intros E3; by apply offered_key in E3 as [? _].
  - destruct (missing_in _ _); [|destruct (_extract_text_with_pdfplumber B path)].
    3:{ destruct (offered _ _ pdfplumber_entry _ k) eqn:E2.
        { intros _. by apply offered_key in E2 as [? _]. }
        destruct (critical_missing _); [|done].
        destruct (_extract_with_ocr B path 5); [done|].
        intros E3. by apply offered_key in E3 as [? _]. }
    all: destruct (critical_missing _); [|done];
         destruct (_extract_with_ocr B path 5); [done|];
         intros E3; by apply offered_key in E3 as [? _].
Qed.

Lemma table_offer_method B path k e :
  table_offer B path k = Some e -> method (src e) = "camelot"%string.
Proof.
  unfold table_offer. destruct (_HAS_CAMELOT B); [|done].
  by apply offered_method.
Qed.

Lemma text_offer_method B path k e :
  text_offer B path k = Some e ->
  method (src e) = "pdfplumber"%string /\ k ∈ required_metrics.
Proof.
  unfold text_offer. destruct (missing_in _ _) as [|k0 miss] eqn:Hmiss; [done|].
  destruct (_extract_text_with_pdfplumber B path); [done|].
  intros Hoff. split; [by eapply offered_method; [|exact Hoff]|].
  apply offered_key in Hoff as [_ Hal]. apply bool_decide_eq_true in Hal.
  rewrite <- Hmiss in Hal. unfold missing_in in Hal.
  by apply list_elem_of_filter in Hal as [_ ?].
Qed.

Lemma ocr_offer_method B path k e :
  ocr_offer B path k = Some e -> method (src e) = "ocr"%string.
Proof.
  unfold ocr_offer. destruct (critical_missing _); [|done].
  destruct (_extract_with_ocr B path 5); [done|]. by apply offered_method.
Qed.

(** The text backend alone, in the class's own backends: a document whose
    text is "Total Revenue ₹59,381 Cr", without Camelot and without OCR. *)
Example text_only_report :
  let W := {| ExtractorBackends.has_camelot := false;
              ExtractorBackends.camelot_read_pdf := fun _ _ => None;
              ExtractorBackends.pdfplumber_pages := fun _ =>
                Some [ExtractorBackends.PageText (u "Total Revenue ₹59,381 Cr")];
              ExtractorBackends.ocr_pages := fun _ _ => None |} in
  let B := ExtractorBackends.source_backends ExtractorBackends.ascii_interpreter W in
  res_metrics (_extract_from_single_report B (u "q1.pdf") tt)
  = {[ "total_revenue"%string :=
         Entry 59381.0 INR_Cr 0.65 (Source "pdfplumber" None) (u "Total Revenue") ]}
  /\ attempted (log_ocr (res_log (_extract_from_single_report B (u "q1.pdf") tt))) = true
  /\ metrics_count (_extract_from_single_report B (u "q1.pdf") tt) = 1%nat.
Proof. repeat split; by vm_compute. Qed.


Lemma critical_missing_iff (m : gmap string entry) :
  critical_missing m = true <->
  m !! "total_revenue"%string = None \/ m !! "net_profit"%string = None.
Proof.
  unfold critical_missing, critical_metrics. simpl.
  rewrite orb_false_r, orb_true_iff, !bool_decide_eq_true. done.
Qed.

Lemma log_ocr_before_ocr B path :
  log_ocr (extraction_log_of (after_text B path)) = MethodLog false 0 [] 0.
Proof.
  unfold after_text, after_table, pdfplumber_stage, camelot_stage, init.
  destruct (_HAS_CAMELOT B); simpl;
    repeat (match goal with
            | |- context [fold_left ?f ?cs ?a] => destruct (fold_left f cs a)
            | |- context [match ?x with _ => _ end] => destruct x
            end; simpl); done.
Qed.

Lemma calls_before_ocr B path c :
  c ∈ calls (after_text B path) -> c = CallCamelot path \/ c = CallPdfplumber path.
Proof.
  unfold after_text, after_table, pdfplumber_stage, camelot_stage, init.
  destruct (_HAS_CAMELOT B); simpl;
    repeat (match goal with
            | |- context [fold_left ?f ?cs ?a] => destruct (fold_left f cs a)
            | |- context [match ?x with _ => _ end] => destruct x
            end; simpl);
    intros Hc; repeat (apply elem_of_cons in Hc as [->|Hc]);
    try (by apply elem_of_nil in Hc); auto.
Qed.

(** C2. The OCR stage is attempted exactly when, after the text stage,
    [total_revenue] or [net_profit] is still absent from the metric map:
    the [attempted] flag of the OCR log is true in that case and only in
    that case, and so is the call of the OCR extractor (on the document,
    with at most five pages); no earlier stage calls it. *)
Theorem ocr_attempted_iff_critical_missing (B : backends) (path : pystr)
    (M : Type) (meta : M) :
  (attempted (log_ocr (res_log (_extract_from_single_report B path meta))) = true
   <-> (metrics (after_text B path) !! "total_revenue"%string = None
        \/ metrics (after_text B path) !! "net_profit"%string = None))
  /\ (CallOcr path 5 ∈ calls (after_ocr B path)
      <-> (metrics (after_text B path) !! "total_revenue"%string = None
           \/ metrics (after_text B path) !! "net_profit"%string = None))
  /\ (forall p n, CallOcr p n ∉ calls (after_text B path)).
Proof.
  assert (forall p n, CallOcr p n ∉ calls (after_text B path)) as Hbefore.
  { intros p n Hin. by apply calls_before_ocr in Hin as [?|?]. }
  split; [|split; [|done]].
  - rewrite <- critical_missing_iff. unfold _extract_from_single_report. simpl.
    unfold after_ocr, ocr_stage.
    destruct (critical_missing _) eqn:Hc.
    + destruct (_extract_with_ocr B path 5); simpl.
      * done.
      * by destruct (fold_left _ _ _).
    + rewrite log_ocr_before_ocr. simpl. done.
  - rewrite <- critical_missing_iff. unfold after_ocr, ocr_stage.
    destruct (critical_missing _) eqn:Hc.
    + destruct (_extract_with_ocr B path 5); simpl.
      * split; [done|]. intros _. by left.
      * destruct (fold_left _ _ _). simpl. split; [done|]. intros _. by left.
    + split; [|done]. intros Hin. by apply Hbefore in Hin.
Qed.

End CascadeTheorems.

(* ===================================================================== *)
(** * The deterministic fallback of the enricher *)
(* ===================================================================== *)

Module EnricherTheorems.
Import PyStr Enricher EnricherSpec EnricherProps.

Lemma base_qoq_not_margin b :
  b ∈ qoq_bases -> "operating_margin"%string <> (b +:+ "_qoq_pct")%string.
Proof.
  unfold qoq_bases. intros Hb.
  repeat (apply elem_of_cons in Hb as [->|Hb]); try (by apply elem_of_nil in Hb); done.
Qed.

Lemma base_not_margin b :
  b ∈ qoq_bases ->
  b <> "operating_margin"%string /\ (b +:+ "_prev")%string <> "operating_margin"%string.
Proof.
  unfold qoq_bases. intros Hb.
  repeat (apply elem_of_cons in Hb as [->|Hb]); try (by apply elem_of_nil in Hb); done.
Qed.




End EnricherTheorems.

(* ===================================================================== *)
(** * Properties of the qualitative analyzer *)
(* ===================================================================== *)

Module QualitativeProps.
Import PyStr Qualitative RetrieverSpec.

Lemma bind_Ok {A B : Type} (m : M A) (f : A -> M B) t b t' :
  bind m f t = (Ok b, t') ->
  exists a t1, m t = (Ok a, t1) /\ f a t1 = (Ok b, t').
Proof.
  unfold bind. destruct (m t) as [[a|] t1]; [eauto|done].
Qed.

Lemma collect_themes_names E qs : forall t ths t',
  collect_themes E qs t = (Ok ths, t') ->
  forall th, th ∈ ths -> theme_name th ∈ qs.*1 /\ (0 < count th)%nat.
Proof.
  induction qs as [|[nm q] qs IH]; intros t ths t' Hrun th Hth.
  - injection Hrun as <- _. by apply elem_of_nil in Hth.
  - cbn [collect_themes] in Hrun.
    apply bind_Ok in Hrun as (results & t1 & _ & Hrun).
    apply bind_Ok in Hrun as (later & t2 & Hlater & Hret).
    injection Hret as <- _.
    assert (th ∈ later -> theme_name th ∈ ((nm, q) :: qs).*1 /\ (0 < count th)%nat) as Hl.
    { intros Hin. destruct (IH _ _ _ Hlater th Hin). split; [by right|done]. }
    destruct results as [|r results]; [by apply Hl|].
    apply elem_of_cons in Hth as [->|Hin]; [|by apply Hl].
    simpl. split; [by left|lia].
Qed.

Lemma count_hits_nonneg E qs : forall t c t',
  count_hits E qs t = (Ok c, t') -> 0 <= c.
Proof.
  induction qs as [|q qs IH]; intros t c t' Hrun.
  - injection Hrun as <- _. done.
  - cbn [count_hits] in Hrun.
    apply bind_Ok in Hrun as (results & t1 & _ & Hrun).
    apply bind_Ok in Hrun as (later & t2 & Hlater & Hret).
    injection Hret as <- _. apply IH in Hlater. lia.
Qed.

(** The two ways [analyze] returns. *)
Lemma analyze_inv E ts t s t' :
  analyze E ts t = (Ok s, t') ->
  ((index_transcripts E ts t).1 = false /\ s = insufficient_data)
  \/ ((index_transcripts E ts t).1 = true
      /\ exists ths positive_count negative_count fg,
          (forall th, th ∈ ths -> theme_name th ∈ theme_queries.*1 /\ (0 < count th)%nat)
          /\ 0 <= positive_count /\ 0 <= negative_count
          /\ s = Summary "QualitativeAnalysisTool" ths
                   (classify_sentiment positive_count negative_count) fg
                   (collect_risks ths risk_themes)).
Proof.
  unfold analyze. destruct (index_transcripts E ts t) as [[|] t0]; cbn [negb fst].
  - intros Hrun. right. split; [done|].
    apply bind_Ok in Hrun as (ths & t1 & Hths & Hrun).
    apply bind_Ok in Hrun as (p & t2 & Hp & Hrun).
    apply bind_Ok in Hrun as (n & t3 & Hn & Hrun).
    apply bind_Ok in Hrun as (fg & t4 & _ & Hret).
    injection Hret as <- _. exists ths, p, n, fg.
    split; [by eapply collect_themes_names|].
    split; [by eapply count_hits_nonneg|]. split; [by eapply count_hits_nonneg|done].
  - intros [= <- _]. by left.
Qed.

(** ** Transcripts that yield no chunk *)

Lemma cannot_read_no_chunks E tr : cannot_read E tr -> chunks_of E tr = [].
Proof.
  unfold chunks_of. intros [->|[->|(p & -> & Hp)]]; [done|done|].
  destruct p; [done|]. by rewrite Hp.
Qed.

Lemma all_unreadable_no_chunks E ts :
  Forall (cannot_read E) ts -> all_chunks E ts = [].
Proof.
  unfold all_chunks. induction 1 as [|tr ts Htr _ IH]; [done|].
  simpl. by rewrite cannot_read_no_chunks, IH.
Qed.

Lemma no_chunks_no_index E ts t :
  all_chunks E ts = [] -> (index_transcripts E ts t).1 = false.
Proof. unfold index_transcripts. by intros ->. Qed.

(** ** Risks *)

Lemma find_absent_theme ths nm :
  (forall th, th ∈ ths -> theme_name th <> nm) ->
  List.find (fun th => String.eqb (theme_name th) nm) ths = None.
Proof.
  intros Hths. destruct (List.find _ ths) as [th|] eqn:Hf; [|done].
  apply find_some in Hf as [Hin Heq]. apply String.eqb_eq in Heq.
  apply list_elem_of_In in Hin. by apply Hths in Hin.
Qed.

Lemma collect_risks_shape ths :
  (forall th, th ∈ ths -> theme_name th ∈ theme_queries.*1) ->
  collect_risks ths risk_themes = []
  \/ exists ev, collect_risks ths risk_themes = [Risk "attrition" ev].
Proof.
  intros Hths. unfold collect_risks, risk_themes.
  assert (forall nm, nm ∉ theme_queries.*1 ->
            List.find (fun th => String.eqb (theme_name th) nm) ths = None) as Habsent.
  { intros nm Hnm. apply find_absent_theme. intros th Hth <-. by apply Hnm, Hths. }
  cbn [omap list_omap].
  rewrite (Habsent "competition"%string), (Habsent "macro"%string),
    (Habsent "regulation"%string)
    by (intros Hin; cbn in Hin;
        repeat (apply elem_of_cons in Hin as [Hin|Hin]; [discriminate|]);
        by apply elem_of_nil in Hin).
  destruct (List.find _ ths) as [th|]; [|by left].
  destruct (0 <? count th)%nat; [right; eauto|by left].
Qed.

End QualitativeProps.

(* ===================================================================== *)
(** * The analyzer: insufficient data, sentiment, risks *)
(* ===================================================================== *)

Module AnalyzerTheorems.
Import PyStr Qualitative RetrieverSpec QualitativeProps Samples.

(** ** Insufficient data *)



(** ** Sentiment *)



(** ** Risks *)

(** C10. In every summary returned by [analyze] the risks list has at most
    one entry, and an entry can only be named "attrition": the themes come
    from the fixed query table, which has no theme named "competition",
    "macro" or "regulation", so these three never appear as a risk. *)
Theorem risks_only_attrition (E : env) (ts : list transcript) (t : tool)
    (s : qualitative_summary) :
  (analyze E ts t).1 = Ok s ->
  (length (risks s) <= 1)%nat
  /\ (forall r, r ∈ risks s -> risk_name r = "attrition"%string)
  /\ (forall r, r ∈ risks s ->
        risk_name r <> "competition"%string /\ risk_name r <> "macro"%string
        /\ risk_name r <> "regulation"%string).
Proof.
  intros Hrun. destruct (analyze E ts t) as [o t'] eqn:Ha. simpl in Hrun. subst o.
  rename Ha into Hrun.
  assert (risks s = [] \/ exists ev, risks s = [Risk "attrition" ev]) as Hshape.
  { apply analyze_inv in Hrun as [[_ ->]|(_ & ths & p & n & fg & Hths & _ & _ & ->)].
    - by left.
    - simpl. apply collect_risks_shape. intros th Hth. by apply Hths. }
  destruct Hshape as [->|[ev ->]].
  - split; [simpl; lia|]. split; intros r Hr; by apply elem_of_nil in Hr.
  - split; [simpl; lia|].
    split; intros r Hr; apply list_elem_of_singleton in Hr as ->; done.
Qed.

Lemma risks_only_attrition_witness :
  (length (risks sample_summary) <= 1)%nat
  /\ (forall r, r ∈ risks sample_summary -> risk_name r = "attrition"%string)
  /\ (forall r, r ∈ risks sample_summary ->
        risk_name r <> "competition"%string /\ risk_name r <> "macro"%string
        /\ risk_name r <> "regulation"%string).
Proof.
  apply (risks_only_attrition sample_env sample_transcripts fresh_tool).
  vm_compute. reflexivity.
Defined.

Example sample_risks :
  risks sample_summary = [Risk "attrition" [u "Q1_chunk_0"]].
Proof. by vm_compute. Qed.

End AnalyzerTheorems.

(* ===================================================================== *)
(** * The order of binary64 numbers *)
(* ===================================================================== *)

Module FloatOrderProps.
Import FloatOrder.

Lemma SFltb_rank f1 f2 :
  f1 <> S754_nan -> f2 <> S754_nan ->
  SFltb f1 f2 = true <-> lex_lt (rank f1) (rank f2).
Proof.
  intros H1 H2. unfold SFltb, SFcompare, lex_lt.
  destruct f1 as [[|]|[|]| |[|] m1 e1], f2 as [[|]|[|]| |[|] m2 e2];
    try done; simpl; try (split; [done|lia]); try (split; [lia|done]);
    try (split; [intros _; lia|done]).
  - destruct (Z.compare_spec e1 e2); subst.
    + change (Pos.compare_cont Eq m1 m2) with (Pos.compare m1 m2).
      destruct (Pos.compare_spec m1 m2); simpl; split; try done; lia.
    + split; [done|lia].
    + split; [intros _; lia|done].
  - destruct (Z.compare_spec e1 e2); subst.
    + change (Pos.compare_cont Eq m1 m2) with (Pos.compare m1 m2).
      destruct (Pos.compare_spec m1 m2); simpl; split; try done; lia.
    + split; [intros _; lia|done].
    + split; [done|lia].
Qed.

Lemma not_nan_spec x : not_nan x -> Prim2SF x <> S754_nan.
Proof.
  unfold not_nan, PrimFloat.is_nan. rewrite FloatAxioms.eqb_spec. intros H Hn.
  rewrite Hn in H. done.
Qed.

Lemma ltb_rank x y :
  not_nan x -> not_nan y ->
  (x <? y)%float = true <-> lex_lt (rank (Prim2SF x)) (rank (Prim2SF y)).
Proof.
  intros Hx Hy. rewrite FloatAxioms.ltb_spec. by apply SFltb_rank; apply not_nan_spec.
Qed.

(** [<] is asymmetric and negatively transitive away from NaN. *)
Lemma ltb_asym x y :
  not_nan x -> not_nan y -> (x <? y)%float = true -> (y <? x)%float = false.
Proof.
  intros Hx Hy Hlt. apply not_true_is_false. intros Hgt.
  apply ltb_rank in Hlt; [|done..]. apply ltb_rank in Hgt; [|done..].
  unfold lex_lt in *. lia.
Qed.

Lemma ltb_neg_trans x y z :
  not_nan x -> not_nan y -> not_nan z ->
  (y <? x)%float = false -> (z <? y)%float = false -> (z <? x)%float = false.
Proof.
  intros Hx Hy Hz Hyx Hzy. apply not_true_is_false. intros Hzx.
  apply ltb_rank in Hzx; [|done..].
  assert (~ lex_lt (rank (Prim2SF y)) (rank (Prim2SF x))) as Nyx.
  { intros H. apply ltb_rank in H; [|done..]. congruence. }
  assert (~ lex_lt (rank (Prim2SF z)) (rank (Prim2SF y))) as Nzy.
  { intros H. apply ltb_rank in H; [|done..]. congruence. }
  unfold lex_lt in *. lia.
Qed.

End FloatOrderProps.

(* ===================================================================== *)
(** * Properties of the retriever *)
(* ===================================================================== *)

Module RetrieverProps.
Import PyStr Qualitative FloatOrder FloatOrderProps RetrieverSpec.

(** ** The stable sort of the pure-Python scan *)

Section Ranking.
Variable dists : list float.
Hypothesis dists_not_nan : Forall not_nan dists.

Lemma valid_not_nan p : valid dists p -> not_nan p.2.
Proof.
  unfold valid. intros Hp. rewrite Forall_lookup in dists_not_nan.
  by eapply dists_not_nan.
Qed.

Lemma insert_by_key_elem x l y :
  y ∈ insert_by_key x l <-> y = x \/ y ∈ l.
Proof.
  induction l as [|z l IH]; simpl.
  - rewrite list_elem_of_singleton, elem_of_nil. tauto.
  - destruct (z.2 <? x.2)%float; rewrite !elem_of_cons, ?IH; tauto.
Qed.

Lemma insert_by_key_length x l : length (insert_by_key x l) = S (length l).
Proof.
  induction l as [|z l IH]; simpl; [done|].
  destruct (z.2 <? x.2)%float; simpl; by rewrite ?IH.
Qed.

Lemma insert_by_key_sorted x l :
  valid dists x -> Forall (valid dists) l -> Forall (fun y => (x.1 < y.1)%nat) l ->
  StronglySorted before l -> StronglySorted before (insert_by_key x l).
Proof.
  intros Hx Hl Hidx Hs. induction Hs as [|z l Hs IH Hz]; simpl.
  - repeat constructor.
  - apply Forall_cons in Hl as [Hvz Hl]. apply Forall_cons in Hidx as [Hxz Hidx].
    pose proof (valid_not_nan _ Hx) as Nx. pose proof (valid_not_nan _ Hvz) as Nz.
    destruct (z.2 <? x.2)%float eqn:Hzx.
    + constructor; [by apply IH|].
      apply Forall_forall. intros y Hy. apply insert_by_key_elem in Hy as [->|Hy].
      * split; [by apply ltb_asym|]. congruence.
      * rewrite Forall_forall in Hz. by apply Hz.
    + constructor; [by constructor|].
      apply Forall_cons. split; [by split|].
      apply Forall_forall. intros y Hy.
      rewrite Forall_forall in Hz, Hl, Hidx.
      destruct (Hz y Hy) as [Hyz _]. split; [|intros _; by apply Hidx].
      apply (ltb_neg_trans x.2 z.2 y.2); try done.
      by apply valid_not_nan, Hl.
Qed.

Lemma sort_by_key_elem l y : y ∈ sort_by_key l <-> y ∈ l.
Proof.
  induction l as [|x l IH]; simpl; [done|].
  rewrite insert_by_key_elem, elem_of_cons, IH. tauto.
Qed.

Lemma sort_by_key_length l : length (sort_by_key l) = length l.
Proof.
  induction l as [|x l IH]; simpl; [done|]. by rewrite insert_by_key_length, IH.
Qed.

Lemma sort_by_key_sorted l :
  Forall (valid dists) l -> StronglySorted (fun a b => (a.1 < b.1)%nat) l ->
  StronglySorted before (sort_by_key l).
Proof.
  intros Hl Hs. induction Hs as [|x l Hs IH Hx]; simpl; [constructor|].
  apply Forall_cons in Hl as [Hvx Hl]. apply insert_by_key_sorted; try done.
  - apply Forall_forall. intros y Hy. rewrite sort_by_key_elem in Hy.
    rewrite Forall_forall in Hl. by apply Hl.
  - apply Forall_forall. intros y Hy. rewrite sort_by_key_elem in Hy.
    rewrite Forall_forall in Hx. by apply Hx.
  - by apply IH.
Qed.

End Ranking.

Lemma indexed_from_sorted (l : list float) : forall k,
  StronglySorted (fun a b : nat * float => (a.1 < b.1)%nat)
                 (imap (fun i d => ((k + i)%nat, d)) l).
Proof.
  induction l as [|d l IH]; intros k; simpl; [constructor|].
  constructor.
  - rewrite (imap_ext _ (fun i d => ((S k + i)%nat, d))); [exact (IH (S k))|].
    intros i x _. simpl. f_equal. lia.
  - apply Forall_forall. intros [j e] Hin.
    apply elem_of_lookup_imap in Hin as (i & x & [= -> ->] & _). simpl. lia.
Qed.

Lemma indexed_sorted (l : list float) :
  StronglySorted (fun a b : nat * float => (a.1 < b.1)%nat) (imap (fun i d => (i, d)) l).
Proof. apply (indexed_from_sorted l 0). Qed.

Lemma indexed_valid (l : list float) : Forall (valid l) (imap (fun i d => (i, d)) l).
Proof.
  apply Forall_forall. intros [j e] Hin.
  apply elem_of_lookup_imap in Hin as (i & x & [= -> ->] & Hx). done.
Qed.

(** The ranking of a NaN-free list of distances: every index once, by
    distance, and by index among equal distances. *)
Lemma ranking_sorted (dists : list float) :
  Forall not_nan dists ->
  StronglySorted (before) (sort_by_key (imap (fun i d => (i, d)) dists))
  /\ Forall (valid dists) (sort_by_key (imap (fun i d => (i, d)) dists))
  /\ length (sort_by_key (imap (fun i d => (i, d)) dists)) = length dists.
Proof.
  intros Hnan. split; [|split].
  - eapply sort_by_key_sorted; [done|apply indexed_valid|apply indexed_sorted].
  - apply Forall_forall. intros p Hp. rewrite sort_by_key_elem in Hp.
    pose proof (indexed_valid dists) as Hv. rewrite Forall_forall in Hv. by apply Hv.
  - by rewrite sort_by_key_length, length_imap.
Qed.

(** ** Hits are built from chunks *)

Lemma py_index_nat {A : Type} (l : list A) (i : nat) :
  py_index l (Z.of_nat i) = l !! i.
Proof.
  unfold py_index. rewrite (proj2 (Z.leb_le 0 (Z.of_nat i))) by lia.
  by rewrite Nat2Z.id.
Qed.

Lemma py_index_elem {A : Type} (l : list A) (i : Z) (x : A) :
  py_index l i = Some x -> x ∈ l.
Proof.
  unfold py_index. destruct (0 <=? i); [by apply list_elem_of_lookup_2|].
  destruct (_ <=? i); [by apply list_elem_of_lookup_2|done].
Qed.

Lemma faiss_hits_chunks cs pairs hits :
  faiss_hits cs pairs = Some hits -> Forall (hit_of_chunk cs) hits.
Proof.
  revert hits. induction pairs as [|[idx d] ps IH]; intros hits; simpl.
  - intros [= <-]. constructor.
  - destruct (idx <? _); [|by apply IH].
    destruct (py_index cs idx) as [c|] eqn:Hc; [|done]. simpl.
    destruct (faiss_hits cs ps) as [r|]; [|done]. simpl. intros [= <-].
    constructor; [|by apply IH]. exists c, d. split; [by eapply py_index_elem|done].
Qed.

Lemma hits_of_chunks cs dists idxs hits :
  hits_of cs dists idxs = Some hits -> Forall (hit_of_chunk cs) hits.
Proof.
  unfold hits_of. intros Hm. apply mapM_Some_1 in Hm.
  induction Hm as [|i h idxs hits Hi _ IH]; constructor; [|done].
  destruct (py_index cs i) as [c|] eqn:Hc; [|done]. simpl in Hi.
  destruct (py_index dists i) as [d|]; [|done]. simpl in Hi. injection Hi as <-.
  exists c, d. split; [by eapply py_index_elem|done].
Qed.

Lemma slice_to_sublist {A : Type} (l : list A) (k : Z) (x : A) :
  x ∈ slice_to l k -> x ∈ l.
Proof.
  unfold slice_to. destruct (0 <=? k); intros Hx;
    by apply list_elem_of_lookup in Hx as [i Hi%lookup_take_Some];
       eapply list_elem_of_lookup_2, Hi.
Qed.

Lemma keyword_scan_chunks E t query top_k hits :
  keyword_scan E t query top_k = Ok hits -> Forall (hit_of_chunk (chunks t)) hits.
Proof.
  unfold keyword_scan. destruct (mapM _ (chunks t)) as [marked|] eqn:Hm; [|done].
  intros [= <-]. apply Forall_forall. intros h Hh.
  apply slice_to_sublist, list_elem_of_fmap in Hh as ([c b] & -> & Hcb).
  apply list_elem_of_filter in Hcb as [_ Hcb].
  apply mapM_Some_1 in Hm.
  apply list_elem_of_lookup in Hcb as [i Hi].
  destruct (Forall2_lookup_r _ _ _ _ _ Hm Hi) as (c' & Hc' & Hf).
  destruct (head (py_split _)); [|done]. simpl in Hf. injection Hf as <- _.
  exists c', 0%float. split; [by eapply list_elem_of_lookup_2|done].
Qed.

Lemma ensure_embedder_chunks E t :
  chunks (ensure_embedder E t).2 = chunks t
  /\ index (ensure_embedder E t).2 = index t
  /\ _embeddings (ensure_embedder E t).2 = _embeddings t.
Proof. unfold ensure_embedder. by destruct (embedder t). Qed.

Lemma of_option_Ok {A : Type} (o : option A) (a : A) : of_option o = Ok a -> o = Some a.
Proof. destruct o; [by intros [= ->]|done]. Qed.

(** Whatever branch answers, a result is a chunk of the index with its
    text cut at 600 code points. *)
Lemma retrieve_hits_of_chunks E query top_k t hits t' :
  retrieve E query top_k t = (Ok hits, t') ->
  Forall (hit_of_chunk (chunks t)) hits.
Proof.
  unfold retrieve. destruct (_ || _); [by intros [= <- _]|].
  destruct (ensure_embedder_chunks E t) as (Hc & Hi & He).
  destruct (ensure_embedder E t) as [emb t1]. simpl in Hc, Hi, He. rewrite Hc, Hi, He.
  destruct (index t) as [stored|].
  - destruct (_ ≫= _) as [[ds ixs]|]; [|by intros [= <- _]].
    intros [= Hh _]. apply of_option_Ok in Hh. by eapply faiss_hits_chunks.
  - destruct (_embeddings t) as [store|].
    + destruct (numpy_scan E emb t1 store query top_k) as [r|] eqn:Hnp.
      * intros [= <- _]. unfold numpy_scan in Hnp. rewrite Hc in Hnp.
        destruct (has_numpy E); [|done].
        destruct (emb [query]); [|done]. simpl in Hnp.
        destruct (np_dists E _ _); [|done]. simpl in Hnp. by eapply hits_of_chunks.
      * intros [= Hh _]. unfold python_scan in Hh. rewrite Hc in Hh.
        destruct (emb [query]); [|done]. apply of_option_Ok in Hh.
        by eapply hits_of_chunks.
    + intros [= Hh _]. rewrite <- Hc. by eapply keyword_scan_chunks.
Qed.

Lemma hit_of_chunk_truncated cs h : hit_of_chunk cs h -> (length (h_text h) <= 600)%nat.
Proof. intros (c & d & _ & ->). simpl. rewrite length_take. lia. Qed.

(** ** The three branches on a built index *)

Lemma py_index_in_range {A : Type} (l : list A) (i : Z) :
  0 <= i -> py_index l i = l !! Z.to_nat i.
Proof. intros Hi. unfold py_index. by rewrite (proj2 (Z.leb_le 0 i)). Qed.

Lemma hits_of_in_range cs dists idxs :
  Forall (in_range (length cs)) idxs -> Forall (in_range (length dists)) idxs ->
  exists hits, hits_of cs dists idxs = Some hits
    /\ Forall2 (fun i h => exists d, dists !! Z.to_nat i = Some d /\ hit_at cs i d h)
               idxs hits.
Proof.
  unfold hits_of. induction idxs as [|i idxs IH]; intros Hcs Hds.
  - exists []. split; [done|constructor].
  - apply Forall_cons in Hcs as [[Hi0 Hic] Hcs]. apply Forall_cons in Hds as [[_ Hid] Hds].
    destruct (IH Hcs Hds) as (hits & Hm & Hf).
    destruct (lookup_lt_is_Some_2 cs (Z.to_nat i)) as [c Hc]; [lia|].
    destruct (lookup_lt_is_Some_2 dists (Z.to_nat i)) as [d Hd]; [lia|].
    exists (mk_hit c d :: hits). split.
    + cbn [mapM]. rewrite !py_index_in_range, Hc, Hd by done. simpl.
      by rewrite Hm.
    + constructor; [|done]. exists d. split; [done|]. by exists c.
Qed.

Lemma faiss_hits_in_range cs pairs :
  Forall (fun p => in_range (length cs) p.1) pairs ->
  exists hits, faiss_hits cs pairs = Some hits
    /\ Forall2 (fun p h => hit_at cs p.1 p.2 h) pairs hits.
Proof.
  induction pairs as [|[i d] ps IH]; intros Hr.
  - exists []. split; [done|constructor].
  - apply Forall_cons in Hr as [[Hi0 Hic] Hr]. simpl in Hi0, Hic.
    destruct (IH Hr) as (hits & Hm & Hf).
    destruct (lookup_lt_is_Some_2 cs (Z.to_nat i)) as [c Hc]; [lia|].
    exists (mk_hit c d :: hits). split.
    + simpl. rewrite (proj2 (Z.ltb_lt _ _) Hic), py_index_in_range, Hc by done.
      simpl. by rewrite Hm.
    + constructor; [|done]. by exists c.
Qed.

Lemma slice_to_take {A : Type} (l : list A) (k : Z) :
  0 <= k -> slice_to l k = take (Z.to_nat k) l.
Proof. intros Hk. unfold slice_to. by rewrite (proj2 (Z.leb_le 0 k)). Qed.

Lemma retrieve_built E query top_k t emb :
  built t emb ->
  retrieve E query top_k t =
  match index t with
  | Some stored =>
      match q ← emb [query];
            faiss_search E stored q (Z.min top_k (Z.of_nat (length (chunks t)))) with
      | None => (Ok [], t)
      | Some (distances, indices) =>
          (of_option (faiss_hits (chunks t) (zip indices distances)), t)
      end
  | None =>
      match _embeddings t with
      | Some store =>
          match numpy_scan E emb t store query top_k with
          | Some results => (Ok results, t)
          | None => (python_scan E emb t store query top_k, t)
          end
      | None => (keyword_scan E t query top_k, t)
      end
  end.
Proof.
  intros [He Hc Hs]. unfold retrieve, ensure_embedder. rewrite He.
  rewrite (bool_decide_eq_false_2 _ Hc), orb_false_r.
  destruct (index t), (_embeddings t); simpl; try done.
  by destruct Hs.
Qed.

(** Building the index leaves a tool that is [built], in one of three
    shapes. *)
Lemma index_transcripts_built E ts t0 t :
  index_transcripts E ts t0 = (true, t) ->
  exists emb embeddings,
    built t emb
    /\ chunks t = all_chunks E ts
    /\ emb (map c_text (chunks t)) = Some embeddings
    /\ ((has_numpy E = false /\ index t = None
         /\ _embeddings t = Some (PyList embeddings))
        \/ (has_numpy E = true /\ has_faiss E = false /\ index t = None
            /\ exists arr, np_array E embeddings = Some arr
                 /\ _embeddings t = Some (NpArray (astype_float32 E arr)))
        \/ (has_numpy E = true /\ has_faiss E = true
            /\ exists arr stored, np_array E embeddings = Some arr
                 /\ faiss_build E (astype_float32 E arr) = Built stored
                 /\ index t = Some stored)).
Proof.
  unfold index_transcripts.
  destruct (all_chunks E ts) as [|c0 cs] eqn:Hcs; [done|].
  cbn [map]. unfold ensure_embedder. cbn [embedder index chunks _embeddings].
  set (emb := match embedder t0 with
              | Some e => e
              | None => default (fake_embedder E) (sentence_transformer E)
              end).
  assert ((let '(emb0, t1) :=
             match embedder t0 with
             | Some e => (e, Tool (embedder t0) (index t0) (c0 :: cs) (_embeddings t0))
             | None => (default (fake_embedder E) (sentence_transformer E),
                        Tool (Some (default (fake_embedder E) (sentence_transformer E)))
                             (index t0) (c0 :: cs) (_embeddings t0))
             end in (emb0, embedder t1, index t1, chunks t1, _embeddings t1))
          = (emb, Some emb, index t0, c0 :: cs, _embeddings t0)) as Hens.
  { unfold emb. by destruct (embedder t0). }
  destruct (match embedder t0 with Some e => _ | None => _ end) as [emb0 t1].
  injection Hens as -> He1 Hi1 Hc1 Hs1.
  destruct (emb (c_text c0 :: map c_text cs)) as [embeddings|] eqn:Hemb; [|done].
  destruct (has_numpy E) eqn:Hnp; simpl.
  - destruct (np_array E embeddings) as [arr|] eqn:Harr; [|done].
    destruct (has_faiss E) eqn:Hfa; simpl.
    + destruct (faiss_build E _) as [| |stored] eqn:Hb; try done.
      intros [= <-]. exists emb, embeddings. simpl. rewrite Hc1.
      split; [split; simpl; [done|done|by left]|].
      split; [done|]. split; [done|]. right; right. eauto 10.
    + intros [= <-]. exists emb, embeddings. simpl. rewrite Hc1.
      split; [split; simpl; [done|done|by right]|].
      split; [done|]. split; [done|]. right; left. eauto 10.
  - intros [= <-]. exists emb, embeddings. simpl. rewrite Hc1.
    split; [split; simpl; [done|done|by right]|].
    split; [done|]. split; [done|]. left. done.
Qed.

End RetrieverProps.

(* ===================================================================== *)
(** * The retriever on a built index *)
(* ===================================================================== *)

Module RetrieverTheorems.
Import PyStr Qualitative FloatOrder FloatOrderProps RetrieverSpec RetrieverProps Samples.

Lemma sorted_along {A B : Type} (RA : relation A) (RB : relation B) (Q : A -> B -> Prop)
    (la : list A) (lb : list B) :
  (forall a1 a2 b1 b2, Q a1 b1 -> Q a2 b2 -> RA a1 a2 -> RB b1 b2) ->
  Forall2 Q la lb -> StronglySorted RA la -> StronglySorted RB lb.
Proof.
  intros HQ Hf. induction Hf as [|a b la lb Hab Hf IH]; intros Hs; [constructor|].
  apply StronglySorted_inv in Hs as [Hs Ha]. constructor; [by apply IH|].
  apply Forall_forall. intros b' Hb'.
  apply list_elem_of_lookup in Hb' as [i Hi].
  destruct (Forall2_lookup_r _ _ _ _ _ Hf Hi) as (a' & Ha' & Hq).
  rewrite Forall_forall in Ha. eapply HQ; [exact Hab|exact Hq|].
  apply Ha. by eapply list_elem_of_lookup_2.
Qed.

Lemma python_scan_ranked E emb t store query top_k qv :
  length (rows_of store) = length (chunks t) ->
  emb [query] = Some qv ->
  0 <= top_k ->
  Forall not_nan (scan_dists E store qv) ->
  exists hits ranked,
    python_scan E emb t store query top_k = Ok hits
    /\ length hits = Z.to_nat (Z.min top_k (Z.of_nat (length (chunks t))))
    /\ non_decreasing hits
    /\ Forall2 (fun p h => scan_dists E store qv !! p.1 = Some p.2
                           /\ hit_at (chunks t) (Z.of_nat p.1) p.2 h) ranked hits
    /\ StronglySorted before ranked.
Proof.
  intros Hlen Hq Hk Hnan. unfold python_scan. rewrite Hq.
  fold (scan_dists E store qv). set (dists := scan_dists E store qv) in *.
  assert (length dists = length (chunks t)) as Hdl.
  { unfold dists, scan_dists. by rewrite length_map. }
  destruct (ranking_sorted dists Hnan) as (Hsorted & Hvalid & Hslen).
  set (sorted := sort_by_key (imap (fun i d => (i, d)) dists)) in *.
  set (kk := Z.to_nat (Z.min top_k (Z.of_nat (length (chunks t))))).
  set (ranked := take kk sorted).
  assert (StronglySorted before ranked) as Hrs.
  { unfold ranked. rewrite <- (take_drop kk sorted) in Hsorted.
    by apply StronglySorted_app_1_l in Hsorted. }
  assert (Forall (valid dists) ranked) as Hrv by (by apply Forall_take).
  assert (slice_to (sorted_range dists) (Z.min top_k (Z.of_nat (length (chunks t))))
          = (fun p : nat * float => Z.of_nat p.1) <$> ranked) as ->.
  { rewrite slice_to_take by lia. unfold sorted_range, ranked. by rewrite fmap_take. }
  destruct (hits_of_in_range (chunks t) dists ((fun p : nat * float => Z.of_nat p.1) <$> ranked))
    as (hits & Hhits & Hf).
  { apply Forall_fmap, Forall_forall. intros p Hp. rewrite Forall_forall in Hrv.
    apply Hrv, lookup_lt_Some in Hp. unfold in_range. simpl. lia. }
  { apply Forall_fmap, Forall_forall. intros p Hp. rewrite Forall_forall in Hrv.
    apply Hrv, lookup_lt_Some in Hp. unfold in_range. simpl. lia. }
  apply Forall2_fmap_l in Hf.
  assert (Forall2 (fun p h => dists !! p.1 = Some p.2
                              /\ hit_at (chunks t) (Z.of_nat p.1) p.2 h) ranked hits) as Hf'.
  { apply Forall2_same_length_lookup. split; [by eapply Forall2_length|].
    intros i p h Hp Hh.
    destruct (Forall2_lookup_l _ _ _ _ _ Hf Hp) as (h' & Hh' & d & Hd & Hat).
    rewrite Hh in Hh'. injection Hh' as <-.
    assert (valid dists p) as Hvp.
    { rewrite Forall_forall in Hrv. apply Hrv. by eapply list_elem_of_lookup_2. }
    unfold valid in Hvp. rewrite Nat2Z.id in Hd. rewrite Hvp in Hd. injection Hd as <-.
    done. }
  exists hits, ranked. rewrite Hhits. split; [done|].
  split.
  { rewrite <- (Forall2_length _ _ _ Hf'). unfold ranked. rewrite length_take, Hslen, Hdl.
    unfold kk. lia. }
  split; [|done].
  eapply sorted_along; [|exact Hf'|exact Hrs].
  intros p1 p2 h1 h2 [_ (c1 & _ & ->)] [_ (c2 & _ & ->)] [Hb _]. done.
Qed.

Lemma numpy_scan_hits E emb t store query top_k qv dists :
  has_numpy E = true ->
  emb [query] = Some qv ->
  np_dists E (rows_of store) qv = Some dists ->
  length dists = length (chunks t) ->
  length (np_argsort E dists) = length (chunks t) ->
  Forall (in_range (length (chunks t))) (np_argsort E dists) ->
  0 <= top_k ->
  exists hits,
    numpy_scan E emb t store query top_k = Some hits
    /\ length hits = Z.to_nat (Z.min top_k (Z.of_nat (length (chunks t))))
    /\ Forall2 (fun i h => exists d, dists !! Z.to_nat i = Some d
                                     /\ hit_at (chunks t) i d h)
         (take (Z.to_nat (Z.min top_k (Z.of_nat (length (chunks t)))))
               (np_argsort E dists)) hits.
Proof.
  intros Hnp Hq Hd Hdl Hal Har Hk. unfold numpy_scan. rewrite Hnp, Hq. simpl.
  rewrite Hd. simpl. rewrite slice_to_take by lia.
  destruct (hits_of_in_range (chunks t) dists
              (take (Z.to_nat (Z.min top_k (Z.of_nat (length (chunks t)))))
                    (np_argsort E dists))) as (hits & Hhits & Hf).
  { by apply Forall_take. }
  { rewrite Hdl. by apply Forall_take. }
  exists hits. split; [done|]. split; [|done].
  rewrite <- (Forall2_length _ _ _ Hf), length_take, Hal. lia.
Qed.

Lemma faiss_branch_hits (cs : list chunk) (ds : list float) (ixs : list Z) :
  length ds = length ixs ->
  Forall (in_range (length cs)) ixs ->
  exists hits,
    faiss_hits cs (zip ixs ds) = Some hits
    /\ length hits = length ixs
    /\ Forall2 (fun p h => hit_at cs p.1 p.2 h) (zip ixs ds) hits.
Proof.
  intros Hlen Hr.
  destruct (faiss_hits_in_range cs (zip ixs ds)) as (hits & Hhits & Hf).
  { apply Forall_forall. intros [i d] Hin. simpl.
    rewrite Forall_forall in Hr. apply Hr. by eapply elem_of_zip_l. }
  exists hits. split; [done|]. split; [|done].
  rewrite <- (Forall2_length _ _ _ Hf), length_zip. lia.
Qed.

(** ** Two runs that do not return [min(top_k, n)] results *)


Lemma forallb_not_nan (l : list float) :
  forallb (fun x => negb (PrimFloat.is_nan x)) l = true -> Forall not_nan l.
Proof.
  rewrite forallb_forall, Forall_forall. intros H x Hx.
  apply list_elem_of_In, H in Hx. by apply negb_true_iff in Hx.
Qed.

(** ** The amended statement *)



End RetrieverTheorems.

(* ===================================================================== *)
(** * The fallback embedder: determinism and unit norm *)
(* ===================================================================== *)

Module FakeEmbedderTheorems.
Import PyStr FakeEmbedder NormSpec Samples.
Local Open Scope R_scope.

Lemma two_pow_32 : / 2 ^ 32 = / 4294967296.
Proof. f_equal. lra. Qed.

Lemma exact_standard : standard_model 0 exact.
Proof.
  split; cbn [a_of_int a_sub a_mul a_div a_sum a_pow_half a_pos exact].
  - rewrite two_pow_32. lra.
  - done.
  - intros x y. replace (x - y - (x - y)) with 0 by lra. rewrite Rabs_R0. lra.
  - intros x y. replace (x * y - x * y) with 0 by lra. rewrite Rabs_R0. lra.
  - intros x y _. replace (x / y - x / y) with 0 by lra. rewrite Rabs_R0. lra.
  - intros l _. rewrite Rminus_0_r, Rplus_0_r, pow1. lra.
  - intros x _. replace (sqrt x - sqrt x) with 0 by lra. rewrite Rabs_R0. lra.
  - intros x. apply bool_decide_eq_true.
Qed.

(** ** Real arithmetic used below *)

Lemma numeric_upper u b :
  0 <= u <= / 4294967296 -> 0 <= b <= 1000 * u ->
  (1 + u) * (1 + u)
  <= (1 + / 1000000) * (1 + / 1000000) * ((1 - u) * (1 - u) * (1 - u) * (1 - b)).
Proof.
  intros Hu Hb.
  assert ((1 - u) * (1 - u) * (1 - u) >= 1 - 3 * u) by nra.
  assert ((1 - u) * (1 - u) * (1 - u) * (1 - b) >= 1 - 3 * u - b) by nra.
  nra.
Qed.

Lemma numeric_lower u b :
  0 <= u <= / 4294967296 -> 0 <= b <= 1000 * u ->
  (1 - / 1000000) * (1 - / 1000000) * ((1 + u) * (1 + u) * (1 + u))
  <= (1 - u) * (1 - u) * (1 - b).
Proof.
  intros Hu Hb.
  assert ((1 + u) * (1 + u) * (1 + u) <= 1 + 4 * u) by nra.
  assert ((1 - u) * (1 - u) * (1 - b) >= 1 - 2 * u - b) by nra.
  nra.
Qed.

Lemma pow_down x n : 0 <= x <= 1 -> 1 - INR n * x <= (1 - x) ^ n <= 1.
Proof.
  intros Hx. induction n as [|n IH].
  - simpl. lra.
  - rewrite S_INR. simpl. assert (0 <= INR n) by apply pos_INR. nra.
Qed.

Lemma pow_up x n :
  0 <= x <= 1 -> 1 <= (1 + x) ^ n /\ (1 + x) ^ n * (1 - x) ^ n <= 1.
Proof.
  intros Hx. induction n as [|n [IH1 IH2]]; simpl; [lra|].
  assert (0 <= (1 - x) ^ n) by (apply pow_le; lra).
  split; [nra|].
  replace ((1 + x) * (1 + x) ^ n * ((1 - x) * (1 - x) ^ n))
    with ((1 - x * x) * ((1 + x) ^ n * (1 - x) ^ n)) by ring.
  assert (0 <= (1 + x) ^ n * (1 - x) ^ n) by nra. nra.
Qed.

Ltac prod X Y := assert (0 <= X * Y) by (apply Rmult_le_pos; lra).

(** From the four error intervals of [encode] to the window of the squared
    norm [P]: [S] the exact sum of squares, [T] the sum of the rounded
    squares, [Sh] the computed sum, [N2] the square of the computed norm. *)
Lemma norm_window u b c1 c2 S T Sh N2 P :
  0 <= u <= / 4294967296 -> 0 <= b <= 1000 * u ->
  1 - b <= c1 -> 1 <= c2 -> c2 * (1 - b) <= 1 ->
  0 < S ->
  (1 - u) * S <= T <= (1 + u) * S ->
  c1 * T <= Sh <= c2 * T ->
  (1 - u) * (1 - u) * Sh <= N2 <= (1 + u) * (1 + u) * Sh ->
  (1 - u) * (1 - u) * S <= P * N2 <= (1 + u) * (1 + u) * S ->
  (1 - / 1000000) * (1 - / 1000000) <= P <= (1 + / 1000000) * (1 + / 1000000).
Proof.
  intros Hu Hb Hc1 Hc2 Hc Hs [HT1 HT2] [HSh1 HSh2] [HN1 HN2] [HP1 HP2].
  pose proof (numeric_upper u b Hu Hb) as NU.
  pose proof (numeric_lower u b Hu Hb) as NL.
  set (al := 1 - u) in *. set (be := 1 + u) in *. set (ga := 1 - b) in *.
  assert (/ 2 <= al <= 1) as Hal by (unfold al; lra).
  assert (1 <= be <= 2) as Hbe by (unfold be; lra).
  assert (/ 2 <= ga <= 1) as Hga by (unfold ga; lra).
  clearbody al be ga. clear Hu Hb.
  prod al S.
  assert (0 <= T) as HT0 by lra.
  prod (c1 - ga) T. prod ga (T - al * S).
  assert (ga * al * S <= Sh) as HSh3 by lra.
  prod ga (al * S).
  assert (0 <= Sh) as HSh0 by lra.
  prod al al. prod (al * al) (Sh - ga * al * S).
  assert (al * al * al * ga * S <= N2) as Hlo by lra.
  prod (al * al) (ga * al * S).
  assert (0 <= N2) as HN0 by lra.
  prod ga (c2 * T - Sh). prod T (1 - c2 * ga).
  assert (Sh * ga <= be * S) as HSh4 by lra.
  prod ga (be * be * Sh - N2). prod be be. prod (be * be) (be * S - Sh * ga).
  assert (N2 * ga <= be * be * be * S) as Hhi by lra.
  assert (0 < N2) as HNpos.
  { assert (0 < al * al * al * ga * S); [|lra].
    repeat apply Rmult_lt_0_compat; lra. }
  split.
  - apply (Rmult_le_reg_r (N2 * ga)); [apply Rmult_lt_0_compat; lra|].
    prod ((1 - / 1000000) * (1 - / 1000000)) (be * be * be * S - N2 * ga).
    prod S (al * al * ga - (1 - / 1000000) * (1 - / 1000000) * (be * be * be)).
    prod ga (P * N2 - al * al * S).
    lra.
  - apply (Rmult_le_reg_r N2); [exact HNpos|].
    prod S ((1 + / 1000000) * (1 + / 1000000) * (al * al * al * ga) - be * be).
    prod ((1 + / 1000000) * (1 + / 1000000)) (N2 - al * al * al * ga * S).
    lra.
Qed.

(** ** Sums over lists *)

Lemma rsum_scaled {X : Type} (f g : X -> R) (a b : R) (l : list X) :
  (forall x, x ∈ l -> a * f x <= g x <= b * f x) ->
  a * rsum (map f l) <= rsum (map g l) <= b * rsum (map f l).
Proof.
  induction l as [|x l IH]; intros H; simpl; [lra|].
  destruct IH as [IH1 IH2]; [intros y Hy; apply H; by right|].
  destruct (H x) as [H1 H2]; [by left|]. lra.
Qed.

Lemma rsum_squares_pos (l : list R) :
  l <> [] -> Forall (fun x => x <> 0) l -> 0 < rsum (map (fun x => x * x) l).
Proof.
  intros Hne Hl. destruct l as [|x l]; [done|]. clear Hne.
  apply Forall_cons in Hl as [Hx Hl]. simpl.
  assert (0 <= rsum (map (fun x => x * x) l)) as H0.
  { clear Hl. induction l as [|y l IH]; simpl; [lra|]. nra. }
  assert (0 < x * x) by nra. lra.
Qed.

Lemma Rabs_le_both a b : Rabs a <= b -> - b <= a <= b.
Proof. unfold Rabs. destruct (Rcase_abs a); lra. Qed.

Section Norm.
Context (u : R) (A : Arith R) (SM : standard_model u A).

Lemma u_bounds : 0 <= u /\ u <= / 4294967296.
Proof. destruct (sm_u u A SM) as [H0 H1]. rewrite two_pow_32 in H1. done. Qed.

(** A relative error bound as an interval around a non-negative value. *)
Lemma rel_err_nonneg x y :
  0 <= y -> Rabs (x - y) <= u * Rabs y -> (1 - u) * y <= x <= (1 + u) * y.
Proof.
  intros Hy H. rewrite (Rabs_pos_eq y) in H by done.
  apply Rabs_le_both in H. lra.
Qed.

(** A component of the raw vector is never zero: [2 b / 255] is at least
    [1/255] away from 1 for an integer [b], far more than the rounding. *)
Lemma component_nonzero (b : Z) :
  (0 <= b <= 255)%Z -> component (F := R) b <> 0.
Proof.
  intros Hb. unfold component.
  destruct u_bounds as [Hu0 Hu1].
  rewrite !(sm_of_int u A SM) by lia.
  set (q := IZR b / 255).
  assert (0 <= q <= 1) as Hq.
  { unfold q. assert (0 <= IZR b <= 255) by (split; apply IZR_le; lia). lra. }
  assert (Rabs (2 * q - 1) >= / 255) as Hodd.
  { unfold q. assert ((2 * b - 255 <= -1)%Z \/ (1 <= 2 * b - 255)%Z) as [H|H] by lia;
      apply IZR_le in H; rewrite minus_IZR, mult_IZR in H.
    - rewrite Rabs_left by lra. lra.
    - rewrite Rabs_right by lra. lra. }
  set (d := a_div (IZR b) 255).
  assert ((1 - u) * q <= d <= (1 + u) * q) as Hd.
  { apply rel_err_nonneg; [lra|]. apply (sm_div u A SM). lra. }
  set (m := a_mul d 2).
  assert ((1 - u) * (d * 2) <= m <= (1 + u) * (d * 2)) as Hm.
  { apply rel_err_nonneg; [nra|]. apply (sm_mul u A SM). }
  assert (Rabs (m - 2 * q) <= 5 * u) as Hmq.
  { apply Rabs_le. nra. }
  assert (m - 1 <> 0) as Hm1.
  { intros H0. assert (m = 1) as Hm' by lra. rewrite Hm' in Hmq.
    replace (1 - 2 * q) with (- (2 * q - 1)) in Hmq by lra.
    rewrite Rabs_Ropp in Hmq. lra. }
  pose proof (sm_sub u A SM m 1) as Hs. fold m in Hs.
  intros H0. rewrite H0 in Hs.
  replace (0 - (m - 1)) with (- (m - 1)) in Hs by lra.
  rewrite Rabs_Ropp in Hs.
  assert (0 < Rabs (m - 1)) by (by apply Rabs_pos_lt). nra.
Qed.

Lemma square_err x : (1 - u) * (x * x) <= a_mul x x <= (1 + u) * (x * x).
Proof. apply rel_err_nonneg; [nra|]. apply (sm_mul u A SM). Qed.

Lemma quotient_square_err x n :
  n <> 0 ->
  (1 - u) * (1 - u) * (x * x / (n * n)) <= a_div x n * a_div x n
  <= (1 + u) * (1 + u) * (x * x / (n * n)).
Proof.
  intros Hn. destruct u_bounds as [Hu0 Hu1].
  pose proof (sm_div u A SM x n Hn) as Hd.
  replace (x * x / (n * n)) with ((x / n) * (x / n)) by (field; done).
  set (q := x / n) in *. set (d := a_div x n) in *.
  clearbody q d.
  apply Rabs_le_both in Hd. destruct (Rle_dec 0 q) as [Hq|Hq].
  - rewrite Rabs_pos_eq in Hd by done.
    prod u q. prod (1 - u) q. prod (d - (1 - u) * q) (d + (1 - u) * q).
    prod ((1 + u) * q - d) ((1 + u) * q + d). lra.
  - rewrite Rabs_left in Hd by lra.
    prod u (- q). prod (1 - u) (- q). prod ((1 - u) * q - d) (- ((1 - u) * q) - d).
    prod (d - (1 + u) * q) (- ((1 + u) * q) - d). lra.
Qed.

Lemma rsum_over {X : Type} (g : X -> R) (c : R) (l : list X) :
  c <> 0 -> rsum (map (fun x => g x / c) l) = rsum (map g l) / c.
Proof.
  intros Hc. induction l as [|x l IH]; simpl; [field; done|]. rewrite IH. field. done.
Qed.

Lemma raw_vector_length e t : length (raw_vector (F := R) e t) = Z.to_nat (dim e).
Proof. unfold raw_vector. by rewrite length_map, length_seq. Qed.

Lemma raw_vector_nonzero e t :
  sha256 e t <> [] ->
  Forall (fun b => (0 <= b <= 255)%Z) (sha256 e t) ->
  Forall (fun x => x <> 0) (raw_vector (F := R) e t).
Proof.
  intros Hne Hbytes. unfold raw_vector. apply Forall_fmap, Forall_forall.
  intros i _. simpl. apply component_nonzero. unfold byte_at.
  rewrite Forall_forall in Hbytes. apply Hbytes, list_elem_of_In, nth_In.
  apply Nat.mod_upper_bound. by destruct (sha256 e t).
Qed.

(** The computed vector has Euclidean norm within [1e-6] of 1. *)
Lemma encode_one_unit_norm e t :
  (1 <= dim e <= 1000)%Z ->
  sha256 e t <> [] ->
  Forall (fun b => (0 <= b <= 255)%Z) (sha256 e t) ->
  Rabs (l2_norm (encode_one e t) - 1) <= / 1000000.
Proof.
  intros Hdim Hne Hbytes. destruct u_bounds as [Hu0 Hu1].
  unfold encode_one, norm_of, l2_norm.
  set (raw := raw_vector e t).
  assert (length raw = Z.to_nat (dim e)) as Hlen by apply raw_vector_length.
  set (n := length raw) in *.
  assert (1 <= INR n <= 1000) as Hn.
  { rewrite INR_IZR_INZ. split; [apply (IZR_le 1)|apply (IZR_le _ 1000)]; lia. }
  set (S := rsum (map (fun x => x * x) raw)).
  assert (0 < S) as HS.
  { apply rsum_squares_pos; [|by apply raw_vector_nonzero].
    intros Hraw. unfold n in Hlen. rewrite Hraw in Hlen. simpl in Hlen. lia. }
  set (squares := map (fun x => a_mul x x) raw).
  set (T := rsum squares).
  assert ((1 - u) * S <= T <= (1 + u) * S) as HT.
  { apply rsum_scaled. intros x _. apply square_err. }
  assert (Forall (fun x => 0 <= x) squares) as Hsq.
  { apply Forall_fmap, Forall_forall. intros x _. simpl.
    destruct (square_err x). nra. }
  pose proof (sm_sum u A SM squares Hsq) as HSh. fold T in HSh.
  replace (length squares) with n in HSh by (unfold squares; by rewrite length_map).
  set (Sh := a_sum squares) in *.
  destruct (pow_down u n ltac:(lra)) as [Hc1 Hc1'].
  destruct (pow_up u n ltac:(lra)) as [Hc2 Hc12].
  set (c1 := (1 - u) ^ n) in *. set (c2 := (1 + u) ^ n) in *.
  set (b := INR n * u) in *.
  assert (0 <= b <= 1000 * u) as Hb by (unfold b; nra).
  assert (c2 * (1 - b) <= 1) as Hc.
  { assert (0 <= c2 * (c1 - (1 - b))) by (apply Rmult_le_pos; lra). lra. }
  assert (0 < T) as HT0 by nra.
  assert (0 < Sh) as HSh0.
  { assert (0 < (1 - b) * T) by (apply Rmult_lt_0_compat; lra).
    assert (0 <= (c1 - (1 - b)) * T) by (apply Rmult_le_pos; lra). lra. }
  pose proof (sm_pow_half u A SM Sh ltac:(lra)) as HN.
  set (N := a_pow_half Sh) in *.
  assert (0 < sqrt Sh) as Hroot by (by apply sqrt_lt_R0).
  apply Rabs_le_both in HN.
  assert (0 < N) as HN0 by nra.
  assert ((1 - u) * (1 - u) * Sh <= N * N <= (1 + u) * (1 + u) * Sh) as HN2.
  { pose proof (sqrt_sqrt Sh ltac:(lra)) as Hss.
    set (r := sqrt Sh) in *. clearbody r.
    prod u r. prod (1 - u) r.
    prod (N - (1 - u) * r) (N + (1 - u) * r).
    prod ((1 + u) * r - N) ((1 + u) * r + N).
    prod (1 - u) (1 - u). prod (1 + u) (1 + u).
    rewrite <- Hss. lra. }
  rewrite (proj2 (sm_pos u A SM N) HN0).
  rewrite map_map.
  set (P := rsum (map (fun x => a_div x N * a_div x N) raw)).
  assert ((1 - u) * (1 - u) * S <= P * (N * N) <= (1 + u) * (1 + u) * S) as HP.
  { pose proof (rsum_scaled (fun x => x * x / (N * N))
                  (fun x => a_div x N * a_div x N)
                  ((1 - u) * (1 - u)) ((1 + u) * (1 + u)) raw) as Hsc.
    rewrite (rsum_over (fun x => x * x) (N * N)) in Hsc by nra. fold S P in Hsc.
    destruct Hsc as [H1 H2].
    { intros x _. apply quotient_square_err. lra. }
    assert (0 < N * N) as HNN by nra.
    split.
    - apply (Rmult_le_compat_r (N * N)) in H1; [|lra].
      replace ((1 - u) * (1 - u) * (S / (N * N)) * (N * N))
        with ((1 - u) * (1 - u) * S) in H1 by (field; lra). done.
    - apply (Rmult_le_compat_r (N * N)) in H2; [|lra].
      replace ((1 + u) * (1 + u) * (S / (N * N)) * (N * N))
        with ((1 + u) * (1 + u) * S) in H2 by (field; lra). done. }
  destruct (norm_window u b c1 c2 S T Sh (N * N) P) as [Hlo Hhi]; try done.
  apply Rabs_le. split.
  - assert (1 - / 1000000 <= sqrt P); [|lra].
    rewrite <- (sqrt_square (1 - / 1000000)) by lra. by apply sqrt_le_1_alt.
  - assert (sqrt P <= 1 + / 1000000); [|lra].
    rewrite <- (sqrt_square (1 + / 1000000)) by lra. by apply sqrt_le_1_alt.
Qed.

End Norm.

Lemma encode_one_length {F : Type} (AF : Arith F) e t :
  length (encode_one (F := F) e t) = Z.to_nat (dim e).
Proof.
  unfold encode_one. destruct (a_pos _); rewrite ?length_map;
    unfold raw_vector; by rewrite length_map, length_seq.
Qed.


Lemma toy_digest_bytes t :
  toy_digest t <> []
  /\ Forall (fun b => (0 <= b <= 255)%Z) (toy_digest t).
Proof.
  unfold toy_digest. split; [done|].
  apply Forall_fmap, Forall_forall. intros i _. simpl.
  pose proof (Z.mod_pos_bound (Z.of_N (nth i t 7%N)) 256 ltac:(lia)). lia.
Qed.


(** A run in binary64, with the left-to-right sum and [sqrt] for
    [** 0.5]: 64 components, and the squared norm computed in binary64 is
    within 1e-6 of 1. *)
Example fake_embedder_binary64_run :
  let v := encode_one (H := binary64 seq_sum PrimFloat.sqrt)
             (new toy_digest 64) (u "strong performance") in
  let n2 := seq_sum (map (fun x => (x * x)%float) v) in
  length v = 64%nat
  /\ (PrimFloat.abs (PrimFloat.sqrt n2 - 1) <? 0.000001)%float = true.
Proof. by vm_compute. Qed.

End FakeEmbedderTheorems.

(* ===================================================================== *)
(** * The matcher: what a match can read and capture *)
(* ===================================================================== *)

Module RegexProps.
Import PyStr Regex RegexSpec.

Section Reads.
Context (w : N -> bool) (P Q : N -> Prop) (PQ : forall c, P c -> Q c).

Local Abbreviation good st :=
  (Forall P (rest st) /\ Forall (fun c : nat * pystr => Forall Q c.2) (caps st)).

Lemma set_cap_good i st st' :
  good st -> good st' -> good (set_cap i st st').
Proof.
  intros [Hr Hc] [Hr' Hc']. split; [done|]. unfold set_cap. cbn [caps].
  constructor; [|done]. cbn [snd].
  apply Forall_take. eapply Forall_impl; [exact Hr|]. exact PQ.
Qed.

Lemma star_loop_reads {A : Type} (body : mstate -> (mstate -> option A) -> option A) :
  (forall st k a, body st k = Some a -> good st ->
     exists st', k st' = Some a /\ good st') ->
  forall fuel st k a, star_loop body k fuel st = Some a -> good st ->
     exists st', k st' = Some a /\ good st'.
Proof.
  intros Hbody. induction fuel as [|f IH]; intros st k a; simpl.
  - eauto.
  - destruct (body st _) as [a'|] eqn:E; [|eauto].
    intros [= <-] Hst. apply Hbody in E as (st1 & E1 & G1); [|done].
    destruct (_ <? _)%nat; [|done]. by apply IH in E1.
Qed.

(** Whatever holds of the code points right of the cursor and inside the
    captures still holds where the continuation takes over. *)
Lemma run_reads r : forall (A : Type) st (k : mstate -> option A) a,
  run w r st k = Some a -> good st ->
  exists st', k st' = Some a /\ good st'.
Proof.
  induction r as [|p|r1 IH1 r2 IH2|r1 IH1 r2 IH2|r0 IH|i r0 IH|];
    simpl; intros A st k a Hrun Hst.
  - eauto.
  - destruct st as [b [|c tl] cs]; simpl in *; [done|].
    destruct (p c); [|done]. eexists; split; [exact Hrun|].
    destruct Hst as [Hr Hc]. split; [by inversion Hr|done].
  - apply IH1 in Hrun as (st1 & E1 & G1); [|done]. by apply IH2 in E1.
  - destruct (run w r1 st k) as [a'|] eqn:E.
    + injection Hrun as <-. by eapply IH1.
    + by eapply IH2.
  - eapply star_loop_reads; [|exact Hrun|done]. intros. by eapply IH.
  - apply IH in Hrun as (st1 & E1 & G1); [|done].
    eexists; split; [exact E1|]. by apply set_cap_good.
  - destruct (at_boundary _ _ _); [eauto|done].
Qed.

End Reads.

(** A search returns captures made of code points of the text. *)
Lemma search_from_captures w (Q : N -> Prop) r : forall s prev m,
  Forall Q s -> search_from w r prev s = Some m ->
  Forall (fun c : nat * pystr => Forall Q c.2) m.
Proof.
  induction s as [|c s IH]; intros prev m Hs; simpl.
  - destruct (run _ _ _ _) as [m'|] eqn:E; [|done]. intros [= <-].
    apply (run_reads w Q Q ltac:(done)) in E as (st' & [= <-] & _ & Hc); done.
  - destruct (run _ _ _ _) as [m'|] eqn:E.
    + intros [= <-].
      apply (run_reads w Q Q ltac:(done)) in E as (st' & [= <-] & _ & Hc); done.
    + apply IH. by inversion Hs.
Qed.

Lemma group_captured (Q : N -> Prop) m g s :
  Forall (fun c : nat * pystr => Forall Q c.2) m -> group m g = Some s -> Forall Q s.
Proof.
  induction 1 as [|[j x] m Hx _ IH]; simpl; [done|].
  destruct (g =? j)%nat; [by intros [= <-]|done].
Qed.

(** A starved pattern matches nowhere in the text. *)
Lemma starved_fails w text r :
  starved text r = true ->
  forall (A : Type) st (k : mstate -> option A),
    Forall (fun c => c ∈ text) (rest st) -> run w r st k = None.
Proof.
  induction r as [|p|r1 IH1 r2 IH2|r1 IH1 r2 IH2|r0 IH|i r0 IH|];
    simpl; intros Hs A st k Hst; try done.
  - destruct (rest st) as [|c tl]; [done|].
    rewrite forallb_forall in Hs. inversion Hst as [|? ? Hc _]; subst.
    apply list_elem_of_In, Hs, negb_true_iff in Hc. by rewrite Hc.
  - apply orb_prop in Hs as [Hs|Hs]; [by apply IH1|].
    destruct (run w r1 st _) as [a|] eqn:E; [|done].
    apply (run_reads w (fun c => c ∈ text) (fun _ => True) ltac:(done)) in E
      as (st1 & E1 & G1 & _).
    + by rewrite (IH2 Hs) in E1.
    + split; [done|]. apply Forall_forall. intros ? _. by apply Forall_forall.
  - apply andb_prop in Hs as [H1 H2]. by rewrite IH1, IH2.
  - by apply IH.
Qed.

Lemma search_from_starved w text r : starved text r = true ->
  forall s prev, Forall (fun c => c ∈ text) s -> search_from w r prev s = None.
Proof.
  intros Hs. induction s as [|c s IH]; intros prev Hin; simpl.
  - by rewrite (starved_fails w text r Hs).
  - rewrite (starved_fails w text r Hs) by done. apply IH. by inversion Hin.
Qed.

Lemma search_starved w text r : starved text r = true -> search w r text = None.
Proof.
  intros Hs. apply (search_from_starved w text r Hs).
  apply Forall_forall. by intros.
Qed.

End RegexProps.

(* ===================================================================== *)
(** * The number parser: texts without digits, plain decimals *)
(* ===================================================================== *)

Module NumberParsingMore.
Import PyStr Regex NumberParsing NumberParsingSpec RegexSpec RegexProps NumberParsingProps.

Lemma split_dot_parts s : forall ip fo,
  split_dot s = (ip, fo) ->
  Forall (fun c => c ∈ s) ip /\ Forall (fun c => c ∈ s) (default [] fo).
Proof.
  induction s as [|c s IH]; intros ip fo; cbn [split_dot].
  - intros [= <- <-]. split; constructor.
  - destruct (c =? chr ".")%N.
    + intros [= <- <-]. split; [constructor|]. simpl.
      apply Forall_forall. intros x Hx. by right.
    + destruct (split_dot s) as [i f]. intros [= <- <-].
      destruct (IH i f eq_refl) as [Hi Hf]. split.
      * constructor; [by left|]. eapply Forall_impl; [exact Hi|]. intros x Hx. by right.
      * eapply Forall_impl; [exact Hf|]. intros x Hx. by right.
Qed.

Lemma py_float_needs_digit s :
  Forall (fun c => is_ascii_digit c = false) s -> py_float s = None.
Proof.
  intros Hs. unfold py_float. destruct (split_dot s) as [ip fo] eqn:E.
  apply split_dot_parts in E as [Hi Hf]. rewrite Forall_forall in Hs.
  destruct ip as [|c ip].
  - destruct (default [] fo) as [|d fp]; [done|].
    inversion Hf as [|? ? Hd _]; subst. simpl. by rewrite (Hs d Hd).
  - inversion Hi as [|? ? Hc _]; subst. simpl. by rewrite (Hs c Hc).
Qed.

Lemma remove_char_sub (Q : N -> Prop) c s : Forall Q s -> Forall Q (remove_char c s).
Proof.
  intros Hs. unfold remove_char. apply Forall_forall. intros x Hx.
  apply list_elem_of_filter in Hx as [_ Hx]. rewrite Forall_forall in Hs. by apply Hs.
Qed.

Lemma float_of_group1_needs_digit w r text m :
  Forall (fun c => is_ascii_digit c = false) text ->
  search w r text = Some m -> float_of_group1 m = None.
Proof.
  intros Hs Hm. unfold float_of_group1.
  destruct (group m 1) as [g|] eqn:G; [|done]. simpl.
  apply py_float_needs_digit, remove_char_sub.
  eapply group_captured; [|exact G].
  by eapply search_from_captures; [|exact Hm].
Qed.

Lemma pattern234_need_digit text :
  forallb (fun c => negb (is_ascii_digit c)) text = true ->
  starved text pattern2 = true /\ starved text pattern3 = true
  /\ starved text pattern4 = true.
Proof. intros H. cbn. rewrite H. done. Qed.

(** X1. A text without an ASCII digit has no number: every grouping and
    plain pattern asks for a digit, and what the rupee pattern can take
    from such a text (commas and dots) is not a float. *)
Theorem parse_needs_a_digit (w : N -> bool) (text : pystr) :
  forallb (fun c => negb (is_ascii_digit c)) text = true ->
  parse_inr_number w text = None.
Proof.
  intros H. destruct (pattern234_need_digit text H) as (S2 & S3 & S4).
  unfold parse_inr_number. destruct text as [|c0 t0] eqn:Et; [done|]. rewrite <- Et in *.
  assert (Forall (fun c => is_ascii_digit c = false) text) as Hnd.
  { apply Forall_forall. intros c Hc. rewrite forallb_forall in H.
    by apply list_elem_of_In, H, negb_true_iff in Hc. }
  destruct (search w pattern1 text) as [m|] eqn:E1.
  { by eapply float_of_group1_needs_digit. }
  by rewrite (search_starved w text pattern2 S2), (search_starved w text pattern3 S3),
    (search_starved w text pattern4 S4).
Qed.

Lemma parse_needs_a_digit_witness :
  parse_inr_number (is_word ascii_only) (u "₹ ,. Cr (approx.)") = None.
Proof. exact (parse_needs_a_digit (is_word ascii_only) (u "₹ ,. Cr (approx.)") eq_refl). Defined.

End NumberParsingMore.

(* ===================================================================== *)
(** * The number parser: plain decimals *)
(* ===================================================================== *)

Module PlainDecimal.
Import PyStr Regex NumberParsing NumberParsingSpec RegexSpec RegexProps NumberParsingProps.

Section Steps.
Context {A : Type} (w : N -> bool).

Lemma run_Alt r1 r2 st (k : mstate -> option A) :
  run w (Alt r1 r2) st k =
  match run w r1 st k with Some a => Some a | None => run w r2 st k end.
Proof. reflexivity. Qed.

Lemma run_WordB st (k : mstate -> option A) :
  run w WordB st k = if at_boundary w (before st) (head (rest st)) then k st else None.
Proof. reflexivity. Qed.

Lemma run_Eps st (k : mstate -> option A) : run w Eps st k = k st.
Proof. reflexivity. Qed.

Lemma run_Sym_end p b cs (k : mstate -> option A) :
  run w (Sym p) (MState b [] cs) k = None.
Proof. reflexivity. Qed.

End Steps.

Lemma adv_last b xs :
  adv b xs = match last xs with Some c => Some c | None => b end.
Proof.
  revert b. induction xs as [|x xs IH]; intros b; [done|].
  change (adv b (x :: xs)) with (adv (Some x) xs). rewrite IH.
  destruct xs as [|y xs]; [done|].
  change (last (x :: y :: xs)) with (last (y :: xs)).
  destruct (last (y :: xs)) eqn:E; [done|]. by apply last_None in E.
Qed.

Lemma search_from_skip w r pre : forall prev s,
  (forall p c tl, c ∈ pre ->
     run w r (MState p (c :: tl) []) (fun st => Some (caps st)) = None) ->
  search_from w r prev (pre ++ s) = search_from w r (adv prev pre) s.
Proof.
  induction pre as [|c pre IH]; intros prev s Hpre; [done|].
  cbn [app search_from]. rewrite Hpre by (by left).
  change (adv prev (c :: pre)) with (adv (Some c) pre). apply IH.
  intros p c' tl Hc'. apply Hpre. by right.
Qed.

Lemma digit_is_word uni c : is_ascii_digit c = true -> is_word uni c = true.
Proof.
  unfold is_word, is_ascii_digit. intros H. apply andb_prop in H as [H1 H2].
  apply N.leb_le in H2. replace (c <? 128)%N with true by (symmetry; apply N.ltb_lt; lia).
  unfold is_ascii_digit. rewrite H1. simpl. by apply N.leb_le in H2 as ->.
Qed.

Lemma not_word_not_digit uni (o : option N) :
  from_option (is_word uni) false o = false -> from_option is_ascii_digit false o = false.
Proof.
  destruct o as [c|]; simpl; [|done]. intros H.
  destruct (is_ascii_digit c) eqn:E; [|done]. by rewrite (digit_is_word uni c E) in H.
Qed.

Lemma adv_digits_word uni x xs :
  is_ascii_digit x = true -> forallb is_ascii_digit xs = true ->
  from_option (is_word uni) false (adv (Some x) xs) = true.
Proof.
  revert x. induction xs as [|y xs IH]; intros x Hx Hxs.
  - by apply digit_is_word.
  - simpl in Hxs. apply andb_prop in Hxs as [Hy Hxs].
    change (adv (Some x) (y :: xs)) with (adv (Some y) xs). by apply IH.
Qed.

Lemma pattern4_needs_digit w p c tl :
  is_ascii_digit c = false ->
  run w pattern4 (MState p (c :: tl) []) (fun st => Some (caps st)) = None.
Proof.
  intros Hc. unfold pattern4. rewrite run_Cat, run_WordB.
  destruct (at_boundary _ _ _); [|done].
  rewrite run_Cat, run_Group. unfold Plus at 1. rewrite !run_Cat.
  unfold digit at 1. by apply run_Sym_miss.
Qed.

(** At a word boundary before a decimal literal that ends at a word
    boundary, pattern 4 matches and its group 1 is the whole literal. *)
Lemma pattern4_at uni prev ip fo tl :
  from_option (is_word uni) false prev = false ->
  digits ip ->
  (forall fp, fo = Some fp -> digits fp) ->
  from_option (is_word uni) false (head tl) = false ->
  (fo = None -> forall tl', tl = chr "." :: tl' ->
     from_option is_ascii_digit false (head tl') = false) ->
  run (is_word uni) pattern4 (MState prev (decimal_literal ip fo ++ tl) [])
      (fun st => Some (caps st))
  = Some [(1%nat, decimal_literal ip fo)].
Proof.
  intros Hprev [Hne Hip] Hfo Htl Hdot. set (w := is_word uni).
  destruct ip as [|d0 ip]; [done|]. simpl in Hip. apply andb_prop in Hip as [Hd0 Hip].
  set (lit := decimal_literal (d0 :: ip) fo).
  set (st0 := MState prev (lit ++ tl) []).
  (* the state and the continuation after the whole literal *)
  assert (forall b, from_option w false b = true ->
            (fun st' : mstate => run w WordB (set_cap 1 st0 st') (fun st => Some (caps st)))
              (MState b tl []) = Some [(1%nat, lit)]) as Hend.
  { intros b Hb. rewrite run_WordB. unfold set_cap. cbn [before rest caps head].
    unfold at_boundary. rewrite Hb. fold w in Htl. rewrite Htl. cbn [xorb].
    unfold st0. cbn [rest]. by rewrite take_app_exact. }
  assert (w d0 = true) as Hw0 by (by apply digit_is_word).
  assert (at_boundary w (before st0) (head (rest st0)) = true) as Hb0.
  { unfold at_boundary, st0. cbn [before rest]. fold w in Hprev. rewrite Hprev.
    replace (head (lit ++ tl)) with (Some d0) by done. cbn [from_option]. by rewrite Hw0. }
  unfold pattern4. rewrite run_Cat, run_WordB, Hb0.
  rewrite run_Cat, run_Group, run_Cat. unfold Plus at 1. rewrite run_Cat.
  unfold digit at 1. unfold st0 at 1.
  unfold lit, decimal_literal. rewrite <- !app_assoc, <- app_comm_cons.
  rewrite run_Sym_hit by done. rewrite run_Star. cbn [rest]. unfold digit at 1.
  destruct fo as [fp|].
  - destruct (Hfo fp eq_refl) as [Hfne Hfp]. destruct fp as [|f0 fp]; [done|].
    simpl in Hfp. apply andb_prop in Hfp as [Hf0 Hfp].
    assert (run w (Opt (Cat (Sym (is_char (chr "."))) (Plus digit)))
              (MState (adv (Some d0) ip) ((chr "." :: f0 :: fp) ++ tl) [])
              (fun st' => run w WordB (set_cap 1 st0 st') (fun st => Some (caps st)))
            = Some [(1%nat, lit)]) as Hopt.
    { unfold Opt. rewrite run_Alt, run_Cat. rewrite <- app_comm_cons.
      rewrite run_Sym_hit by apply N.eqb_refl.
      unfold Plus. rewrite run_Cat. unfold digit at 1. rewrite <- app_comm_cons.
      rewrite run_Sym_hit by done. rewrite run_Star. cbn [rest]. unfold digit.
      rewrite (star_sym_greedy w is_ascii_digit _ fp tl (Some f0) [] _ Hfp).
      - cbv beta. by rewrite Hend by (by apply adv_digits_word).
      - by eapply not_word_not_digit.
      - rewrite length_app. lia.
      - cbv beta. rewrite Hend by (by apply adv_digits_word). eauto. }
    rewrite (star_sym_greedy w is_ascii_digit _ ip _ (Some d0) [] _ Hip).
    + exact Hopt.
    + done.
    + rewrite !length_app. lia.
    + cbv beta. rewrite Hopt. eauto.
  - assert (run w (Opt (Cat (Sym (is_char (chr "."))) (Plus digit)))
              (MState (adv (Some d0) ip) ([] ++ tl) [])
              (fun st' => run w WordB (set_cap 1 st0 st') (fun st => Some (caps st)))
            = Some [(1%nat, lit)]) as Hopt.
    { unfold Opt. rewrite run_Alt, run_Cat. cbn [app].
      assert (run w (Sym (is_char (chr "."))) (MState (adv (Some d0) ip) tl [])
                (fun st' => run w (Plus digit) st'
                   (fun st'0 => run w WordB (set_cap 1 st0 st'0) (fun st => Some (caps st))))
              = None) as ->.
      { destruct tl as [|c tl']; [done|].
        destruct (is_char (chr ".") c) eqn:Ec.
        - rewrite run_Sym_hit by done. apply N.eqb_eq in Ec. subst c.
          specialize (Hdot eq_refl tl' eq_refl).
          unfold Plus. rewrite run_Cat. unfold digit at 1.
          destruct tl' as [|c' tl'']; [done|]. by apply run_Sym_miss.
        - by apply run_Sym_miss. }
      rewrite run_Eps. by rewrite Hend by (by apply adv_digits_word). }
    rewrite (star_sym_greedy w is_ascii_digit _ ip _ (Some d0) [] _ Hip).
    + exact Hopt.
    + by eapply not_word_not_digit.
    + rewrite !length_app. lia.
    + cbv beta. rewrite Hopt. eauto.
Qed.

Lemma split_dot_literal ip fo :
  forallb is_ascii_digit ip = true -> split_dot (decimal_literal ip fo) = (ip, fo).
Proof.
  unfold decimal_literal. induction ip as [|c ip IH]; intros Hip.
  - destruct fo; [|done]. cbn [app split_dot]. by rewrite N.eqb_refl.
  - simpl in Hip. apply andb_prop in Hip as [Hc Hip].
    cbn [app split_dot]. rewrite (IH Hip).
    replace (c =? chr ".")%N with false; [done|].
    symmetry. apply N.eqb_neq. intros ->. done.
Qed.

Lemma py_float_literal ip fo :
  digits ip -> (forall fp, fo = Some fp -> digits fp) ->
  py_float (decimal_literal ip fo)
  = Some (round_ratio (int_of_digits (ip ++ default [] fo))
                      (Z.to_pos (10 ^ Z.of_nat (length (default [] fo))))).
Proof.
  intros [Hne Hip] Hfo. unfold py_float. rewrite (split_dot_literal ip fo Hip), Hip.
  assert (forallb is_ascii_digit (default [] fo) = true) as ->.
  { destruct fo as [fp|]; [|done]. by destruct (Hfo fp eq_refl). }
  destruct ip; [done|]. done.
Qed.

Lemma starved_pattern1 text :
  forallb (fun c => negb (is_char rupee c)) text = true -> starved text pattern1 = true.
Proof. intros H. unfold pattern1. cbn [starved]. by rewrite H. Qed.

Lemma starved_pattern23 text :
  forallb (fun c => negb (is_char (chr ",") c)) text = true ->
  starved text pattern2 = true /\ starved text pattern3 = true.
Proof.
  intros H. unfold pattern2, pattern3, Plus, comma. cbn [starved]. rewrite H.
  cbn [orb]. by rewrite !orb_true_r.
Qed.

(** X2. In a text without rupee sign and without comma, whose first ASCII
    digit begins a decimal literal (digits, then possibly a dot and digits)
    standing between word boundaries, the parser returns [float] of that
    literal: the nearest binary64 to the decimal it denotes. *)
Theorem parse_plain_decimal (uni_alnum : N -> bool) (pre ip : pystr)
    (fo : option pystr) (tl : pystr) :
  forallb (fun c => negb (is_ascii_digit c || is_char rupee c || is_char (chr ",") c)) pre
  = true ->
  forallb (fun c => negb (is_char rupee c || is_char (chr ",") c)) tl = true ->
  from_option (is_word uni_alnum) false (last pre) = false ->
  digits ip ->
  (forall fp, fo = Some fp -> digits fp) ->
  from_option (is_word uni_alnum) false (head tl) = false ->
  (fo = None -> forall tl', tl = chr "." :: tl' ->
     from_option is_ascii_digit false (head tl') = false) ->
  first_matching_pattern (is_word uni_alnum) (pre ++ decimal_literal ip fo ++ tl)
  = Some 4%nat
  /\ parse_inr_number (is_word uni_alnum) (pre ++ decimal_literal ip fo ++ tl)
     = py_float (decimal_literal ip fo)
  /\ py_float (decimal_literal ip fo)
     = Some (round_ratio (int_of_digits (ip ++ default [] fo))
                         (Z.to_pos (10 ^ Z.of_nat (length (default [] fo))))).
Proof.
  intros Hpre Htl Hlast Hip Hfo Hhead Hdot.
  set (w := is_word uni_alnum). set (lit := decimal_literal ip fo).
  set (text := pre ++ lit ++ tl).
  assert (forallb is_ascii_digit (default [] fo) = true) as Hfp.
  { destruct fo as [fp|]; [|done]. by destruct (Hfo fp eq_refl). }
  assert (forall c, c ∈ lit -> is_ascii_digit c = true \/ c = chr ".") as Hlit.
  { intros c. unfold lit, decimal_literal. destruct Hip as [_ Hip].
    rewrite forallb_forall in Hip, Hfp. intros Hc.
    apply elem_of_app in Hc as [Hc|Hc]; [left; by apply Hip, list_elem_of_In|].
    destruct fo as [fp|]; [|by apply elem_of_nil in Hc].
    apply elem_of_cons in Hc as [->|Hc]; [by right|].
    left. by apply Hfp, list_elem_of_In. }
  assert (forall c, c ∈ text -> is_char rupee c = false /\ is_char (chr ",") c = false)
    as Htext.
  { intros c Hc. rewrite forallb_forall in Hpre, Htl. unfold text in Hc.
    apply elem_of_app in Hc as [Hc|Hc].
    - apply list_elem_of_In, Hpre, negb_true_iff in Hc.
      by apply orb_false_elim in Hc as [[_ ?]%orb_false_elim ?].
    - apply elem_of_app in Hc as [Hc|Hc].
      + apply Hlit in Hc as [Hc| ->]; [|done].
        unfold is_ascii_digit in Hc. apply andb_prop in Hc as [H1 H2].
        apply N.leb_le in H1, H2. unfold is_char.
        split; apply N.eqb_neq; [unfold rupee|change (chr ",") with 44%N]; lia.
      + apply list_elem_of_In, Htl, negb_true_iff in Hc.
        by apply orb_false_elim in Hc. }
  assert (search w pattern1 text = None) as E1.
  { apply search_starved, starved_pattern1, forallb_forall.
    intros c Hc. apply list_elem_of_In, Htext in Hc as [-> _]. done. }
  assert (forallb (fun c => negb (is_char (chr ",") c)) text = true) as Hcomma.
  { apply forallb_forall. intros c Hc. apply list_elem_of_In, Htext in Hc as [_ ->]. done. }
  destruct (starved_pattern23 text Hcomma) as [S2 S3].
  assert (search w pattern4 text = Some [(1%nat, lit)]) as E4.
  { unfold search, text. rewrite search_from_skip.
    - apply search_from_hit, pattern4_at; try done.
      rewrite adv_last. by destruct (last pre).
    - intros p c tl' Hc. apply pattern4_needs_digit.
      rewrite forallb_forall in Hpre. apply list_elem_of_In, Hpre, negb_true_iff in Hc.
      by apply orb_false_elim in Hc as [[? _]%orb_false_elim _]. }
  assert (text <> []) as Hne.
  { unfold text, lit, decimal_literal. destruct Hip as [Hne _].
    destruct pre; [|done]. by destruct ip. }
  unfold first_matching_pattern, parse_inr_number. fold text.
  destruct text as [|c0 t0] eqn:Et; [done|]. rewrite <- Et in *.
  rewrite E1, (search_starved w text pattern2 S2), (search_starved w text pattern3 S3), E4.
  cbn [is_Some_b group Nat.eqb mbind option_bind].
  split; [done|]. split; [done|]. by apply py_float_literal.
Qed.

Lemma parse_plain_decimal_witness :
  first_matching_pattern (is_word ascii_only) (u "EPS (diluted): 31.45 per share")
  = Some 4%nat
  /\ parse_inr_number (is_word ascii_only) (u "EPS (diluted): 31.45 per share")
     = py_float (u "31.45")
  /\ py_float (u "31.45") = Some 31.45%float.
Proof.
  pose proof (parse_plain_decimal ascii_only (u "EPS (diluted): ") (u "31")
                (Some (u "45")) (u " per share") eq_refl eq_refl eq_refl) as H.
  assert (digits (u "31")) as D1 by (split; [discriminate|reflexivity]).
  assert (forall fp, Some (u "45") = Some fp -> digits fp) as D2.
  { intros fp [= <-]. split; [discriminate|reflexivity]. }
  exact (H D1 D2 eq_refl ltac:(discriminate)).
Defined.

End PlainDecimal.

(* ===================================================================== *)
(** * The cascade: counters, the text stage, batches *)
(* ===================================================================== *)

Module CascadeMore.
Import PyStr Extractor CascadeSpec ExtractorProps Batch.

(** ** The counters of the insertion loops *)

Lemma insert_if_absent_count B allowed mk m n c :
  ((insert_if_absent B allowed mk (m, n) c).2 + size m
   = n + size (insert_if_absent B allowed mk (m, n) c).1)%nat
  /\ m ⊆ (insert_if_absent B allowed mk (m, n) c).1.
Proof.
  unfold insert_if_absent. cbn [fst snd].
  destruct (_normalize_metric_key B (c_label c)) as [key|]; [|done].
  destruct (negb (String.eqb key "") && allowed key
            && negb (bool_decide (is_Some (m !! key)))) eqn:Hins; [|done].
  apply andb_prop in Hins as [_ Habs].
  apply negb_true_iff, bool_decide_eq_false, eq_None_not_Some in Habs.
  cbn [fst snd]. split.
  - rewrite map_size_insert_None by done. lia.
  - by apply insert_subseteq.
Qed.

(** An insertion loop raises its counter by the number of keys it adds,
    and keeps what was there. *)
Lemma insert_loop_count B allowed mk cs : forall a,
  ((fold_left (insert_if_absent B allowed mk) cs a).2 + size a.1
   = a.2 + size (fold_left (insert_if_absent B allowed mk) cs a).1)%nat
  /\ a.1 ⊆ (fold_left (insert_if_absent B allowed mk) cs a).1.
Proof.
  induction cs as [|c cs IH]; intros [m n]; simpl; [done|].
  destruct (insert_if_absent_count B allowed mk m n c) as [Hn Hsub].
  destruct (IH (insert_if_absent B allowed mk (m, n) c)) as [Hn' Hsub'].
  split; [lia|]. etrans; [exact Hsub|exact Hsub'].
Qed.

Lemma size_normalized (m : gmap string entry) :
  (forall k e, m !! k = Some e -> k ∈ normalized_keys) -> (size m <= 6)%nat.
Proof.
  intros Hm. rewrite <- size_dom.
  assert (dom m ⊆ (list_to_set normalized_keys : gset string)) as Hsub.
  { intros k Hk. apply elem_of_dom in Hk as [e He]. apply elem_of_list_to_set. eauto. }
  apply subseteq_size in Hsub. etrans; [exact Hsub|].
  rewrite size_list_to_set; [done|]. by apply (bool_decide_unpack _).
Qed.

Lemma camelot_stage_counts B path s :
  let s' := camelot_stage B path s in
  (metrics_found (log_camelot (extraction_log_of s')) + size (metrics s)
   = metrics_found (log_camelot (extraction_log_of s)) + size (metrics s'))%nat
  /\ log_pdfplumber (extraction_log_of s') = log_pdfplumber (extraction_log_of s)
  /\ log_ocr (extraction_log_of s') = log_ocr (extraction_log_of s).
Proof.
  unfold camelot_stage. destruct (_HAS_CAMELOT B); [|done].
  match goal with |- context [fold_left (insert_if_absent B ?al ?mk) ?cs ?a] =>
    pose proof (insert_loop_count B al mk cs a) as [L _];
    destruct (fold_left (insert_if_absent B al mk) cs a) as [m found] end.
  simpl in *. split; [lia|done].
Qed.

Lemma pdfplumber_stage_counts B path s :
  let s' := pdfplumber_stage B path s in
  (metrics_found (log_pdfplumber (extraction_log_of s')) + size (metrics s)
   = metrics_found (log_pdfplumber (extraction_log_of s)) + size (metrics s'))%nat
  /\ log_camelot (extraction_log_of s') = log_camelot (extraction_log_of s)
  /\ log_ocr (extraction_log_of s') = log_ocr (extraction_log_of s).
Proof.
  unfold pdfplumber_stage. destruct (missing_in _ _); [done|].
  destruct (_extract_text_with_pdfplumber B path); [simpl; split; [lia|done]|].
  match goal with |- context [fold_left (insert_if_absent B ?al ?mk) ?cs ?a] =>
    pose proof (insert_loop_count B al mk cs a) as [L _];
    destruct (fold_left (insert_if_absent B al mk) cs a) as [m found] end.
  simpl in *. split; [lia|done].
Qed.

Lemma ocr_stage_counts B path s :
  let s' := ocr_stage B path s in
  (metrics_found (log_ocr (extraction_log_of s')) + size (metrics s)
   = metrics_found (log_ocr (extraction_log_of s)) + size (metrics s'))%nat
  /\ log_camelot (extraction_log_of s') = log_camelot (extraction_log_of s)
  /\ log_pdfplumber (extraction_log_of s') = log_pdfplumber (extraction_log_of s).
Proof.
  unfold ocr_stage. destruct (critical_missing _); [|done].
  destruct (_extract_with_ocr B path 5); [simpl; split; [lia|done]|].
  match goal with |- context [fold_left (insert_if_absent B ?al ?mk) ?cs ?a] =>
    pose proof (insert_loop_count B al mk cs a) as [L _];
    destruct (fold_left (insert_if_absent B al mk) cs a) as [m found] end.
  simpl in *. split; [lia|done].
Qed.

(** X3. The three counters of the extraction log account for the metric
    map: [metrics_found] of a method is the number of keys its stage added,
    the three add up to [metrics_count], which is the size of the map and
    never exceeds six (the keys the normalizer can return). *)
Theorem cascade_counters (B : backends) (path : pystr) (M : Type) (meta : M) :
  let r := _extract_from_single_report B path meta in
  metrics_found (log_camelot (res_log r)) = size (metrics (after_table B path))
  /\ (metrics_found (log_pdfplumber (res_log r)) + size (metrics (after_table B path))
      = size (metrics (after_text B path)))%nat
  /\ (metrics_found (log_ocr (res_log r)) + size (metrics (after_text B path))
      = size (metrics (after_ocr B path)))%nat
  /\ (metrics_found (log_camelot (res_log r)) + metrics_found (log_pdfplumber (res_log r))
      + metrics_found (log_ocr (res_log r)) = metrics_count r)%nat
  /\ metrics_count r = size (res_metrics r)
  /\ (metrics_count r <= 6)%nat.
Proof.
  cbv zeta. unfold _extract_from_single_report. cbn [res_log metrics_count res_metrics].
  destruct (camelot_stage_counts B path init) as (C1 & C2 & C3).
  destruct (pdfplumber_stage_counts B path (after_table B path)) as (T1 & T2 & T3).
  destruct (ocr_stage_counts B path (after_text B path)) as (O1 & O2 & O3).
  fold (after_table B path) in C1, C2, C3. fold (after_text B path) in T1, T2, T3.
  fold (after_ocr B path) in O1, O2, O3.
  rewrite O2, O3, T2. rewrite T3, C2, C3 in *. simpl in C1, T1, O1.
  rewrite map_size_empty in C1.
  assert (size (metrics (after_ocr B path)) <= 6)%nat as H6.
  { apply size_normalized. intros k e. apply CascadeTheorems.final_keys_normalized. }
  repeat split; lia.
Qed.

(** ** When the text stage runs *)

Lemma missing_in_spec (m : gmap string entry) keys :
  missing_in m keys <> [] <-> exists k, k ∈ keys /\ m !! k = None.
Proof.
  unfold missing_in. split.
  - destruct (filter _ keys) as [|k l] eqn:E; [done|]. intros _. exists k.
    assert (k ∈ filter (fun k => m !! k = None) keys) as Hin by (rewrite E; by left).
    by apply list_elem_of_filter in Hin as [? ?].
  - intros (k & Hk & Hm) E.
    assert (k ∈ filter (fun k => m !! k = None) keys) as Hin
      by (by apply list_elem_of_filter).
    rewrite E in Hin. by apply elem_of_nil in Hin.
Qed.

Lemma after_table_shape B path :
  (_HAS_CAMELOT B = false /\ after_table B path = init)
  \/ (_HAS_CAMELOT B = true
      /\ attempted (log_camelot (extraction_log_of (after_table B path))) = true
      /\ calls (after_table B path) = [CallCamelot path]).
Proof.
  unfold after_table, camelot_stage. destruct (_HAS_CAMELOT B); [right|by left].
  by destruct (fold_left _ _ _).
Qed.

Lemma pdfplumber_stage_shape B path s :
  (missing_in (metrics s) required_metrics = [] /\ pdfplumber_stage B path s = s)
  \/ (missing_in (metrics s) required_metrics <> []
      /\ attempted (log_pdfplumber (extraction_log_of (pdfplumber_stage B path s))) = true
      /\ calls (pdfplumber_stage B path s) = CallPdfplumber path :: calls s).
Proof.
  unfold pdfplumber_stage. destruct (missing_in _ _) as [|k0 l]; [by left|right].
  split; [done|]. destruct (_extract_text_with_pdfplumber B path); [done|].
  by destruct (fold_left _ _ _).
Qed.

Lemma ocr_stage_shape B path s :
  (critical_missing (metrics s) = false /\ ocr_stage B path s = s)
  \/ (critical_missing (metrics s) = true
      /\ calls (ocr_stage B path s) = CallOcr path 5 :: calls s).
Proof.
  unfold ocr_stage. destruct (critical_missing _); [right|by left].
  split; [done|]. destruct (_extract_with_ocr B path 5); [done|].
  by destruct (fold_left _ _ _).
Qed.

(** X4. The text stage is attempted, and pdfplumber called, exactly when
    one of the four required metrics is missing after the table stage (so
    always when Camelot is not installed); Camelot is attempted exactly
    when it is installed.  When the table stage supplies all four required
    metrics the cascade ends there: pdfplumber and OCR are not called and
    the metric map is the table stage's. *)
Theorem text_stage_escalation (B : backends) (path : pystr) (M : Type) (meta : M) :
  let r := _extract_from_single_report B path meta in
  attempted (log_camelot (res_log r)) = _HAS_CAMELOT B
  /\ (attempted (log_pdfplumber (res_log r)) = true
      <-> exists k, k ∈ required_metrics /\ metrics (after_table B path) !! k = None)
  /\ (CallPdfplumber path ∈ calls (after_ocr B path)
      <-> exists k, k ∈ required_metrics /\ metrics (after_table B path) !! k = None)
  /\ (_HAS_CAMELOT B = false -> attempted (log_pdfplumber (res_log r)) = true)
  /\ ((forall k, k ∈ required_metrics -> is_Some (metrics (after_table B path) !! k)) ->
      res_metrics r = metrics (after_table B path)
      /\ calls (after_ocr B path) = [CallCamelot path]).
Proof.
  cbv zeta. unfold _extract_from_single_report. cbn [res_log res_metrics].
  destruct (camelot_stage_counts B path init) as (_ & C2 & C3).
  destruct (pdfplumber_stage_counts B path (after_table B path)) as (_ & T2 & T3).
  destruct (ocr_stage_counts B path (after_text B path)) as (_ & O2 & O3).
  fold (after_table B path) in C2, C3. fold (after_text B path) in T2, T3.
  fold (after_ocr B path) in O2, O3.
  rewrite <- missing_in_spec.
  assert (attempted (log_pdfplumber (extraction_log_of (after_ocr B path))) = true
          <-> missing_in (metrics (after_table B path)) required_metrics <> []) as Hatt.
  { rewrite O3. unfold after_text.
    destruct (pdfplumber_stage_shape B path (after_table B path)) as [[Hm ->]|(Hm & -> & _)].
    - rewrite C2, Hm. simpl. split; [done|congruence].
    - done. }
  assert (CallPdfplumber path ∈ calls (after_ocr B path)
          <-> missing_in (metrics (after_table B path)) required_metrics <> []) as Hcall.
  { assert (CallPdfplumber path ∈ calls (after_text B path)
            <-> missing_in (metrics (after_table B path)) required_metrics <> []) as Ht.
    { unfold after_text.
      destruct (pdfplumber_stage_shape B path (after_table B path)) as [[Hm ->]|(Hm & _ & ->)].
      - rewrite Hm. split; [|congruence]. intros Hin.
        destruct (after_table_shape B path) as [[_ E]|(_ & _ & E)]; rewrite E in Hin.
        + by apply elem_of_nil in Hin.
        + by apply list_elem_of_singleton in Hin.
      - split; [done|]. intros _. by left. }
    rewrite <- Ht. unfold after_ocr.
    destruct (ocr_stage_shape B path (after_text B path)) as [[_ ->]|[_ ->]]; [done|].
    rewrite elem_of_cons. split; [by intros [?|?]|by right]. }
  split; [|split; [exact Hatt|split; [exact Hcall|split]]].
  - rewrite O2, T2. by destruct (after_table_shape B path) as [[-> ->]|(-> & -> & _)].
  - intros Hno. apply Hatt, missing_in_spec. exists "total_revenue"%string.
    destruct (after_table_shape B path) as [[_ ->]|[E _]]; [|congruence].
    split; [by left|done].
  - intros Hall.
    assert (missing_in (metrics (after_table B path)) required_metrics = []) as Hmiss.
    { destruct (missing_in _ _) eqn:E; [done|].
      assert (missing_in (metrics (after_table B path)) required_metrics <> []) as Hne
        by (by rewrite E).
      apply missing_in_spec in Hne as (k & Hk & Hnone).
      destruct (Hall k Hk) as [e He]. congruence. }
    assert (after_text B path = after_table B path) as Et.
    { unfold after_text.
      by destruct (pdfplumber_stage_shape B path (after_table B path)) as [[_ ->]|[? _]]. }
    assert (after_ocr B path = after_table B path) as Eo.
    { unfold after_ocr. rewrite Et.
      destruct (ocr_stage_shape B path (after_table B path)) as [[_ ->]|[Hc _]]; [done|].
      apply CascadeTheorems.critical_missing_iff in Hc as [Hc|Hc].
      - destruct (Hall "total_revenue"%string) as [e He]; [by left|congruence].
      - destruct (Hall "net_profit"%string) as [e He]; [by right; left|congruence]. }
    rewrite Eo. split; [done|].
    destruct (after_table_shape B path) as [[_ E]|(_ & _ & E)]; [|done].
    destruct (Hall "total_revenue"%string) as [e He]; [by left|].
    by rewrite E in He.
Qed.

(** ** Batches of reports *)

Lemma extract_loop {M : Type} get ex B (reports : list M) : forall acc,
  fold_left (extract_turn get ex B) reports acc
  = acc ++ map (fun report => default (FileError report "file_not_found" ∅)
                                (head (extract_turn get ex B [] report))) reports.
Proof.
  induction reports as [|report reports IH]; intros acc; simpl.
  - by rewrite app_nil_r.
  - rewrite IH.
    assert (extract_turn get ex B acc report
            = acc ++ [default (FileError report "file_not_found" ∅)
                              (head (extract_turn get ex B [] report))]) as ->.
    { unfold extract_turn. by destruct (no_file get ex report). }
    by rewrite <- app_assoc.
Qed.

(** X5. [extract] returns one result per report, in the order of the
    reports, each carrying its report as [doc_meta], with status
    "completed" whatever happened: a report without a path, with an empty
    path or with a path that does not exist gets the "file_not_found"
    record with no metrics; any other gets the cascade's result for its
    path, with at most six metrics. *)
Theorem extract_one_result_per_report (M : Type) (get_local_path : M -> option pystr)
    (path_exists : pystr -> bool) (B : backends) (reports : list M) :
  let out := extract get_local_path path_exists B reports in
  batch_status out = "completed"%string
  /\ reports_processed out = length reports
  /\ length (results out) = length reports
  /\ (forall i report, reports !! i = Some report ->
        exists r, results out !! i = Some r
          /\ result_doc_meta r = report
          /\ (size (result_metrics r) <= 6)%nat
          /\ (get_local_path report = None \/ get_local_path report = Some []
              \/ (exists p, get_local_path report = Some p /\ path_exists p = false) ->
              r = FileError report "file_not_found" ∅)
          /\ (forall p, get_local_path report = Some p -> p <> [] ->
                path_exists p = true ->
                r = Extracted (_extract_from_single_report B p report)))
  /\ extract_financial_data get_local_path path_exists B reports = out.
Proof.
  cbv zeta. unfold extract_financial_data, extract.
  cbn [batch_status reports_processed results].
  rewrite extract_loop, app_nil_l, length_map.
  split; [done|]. split; [done|]. split; [done|]. split; [|done].
  intros i report Hi. rewrite list_lookup_fmap, Hi. cbn [fmap option_fmap option_map].
  eexists. split; [reflexivity|]. unfold extract_turn, no_file.
  destruct (get_local_path report) as [[|c p]|] eqn:Hget; cbn [app head default].
  - split; [done|]. split; [simpl; rewrite map_size_empty; lia|]. split; [done|].
    by intros p [= <-].
  - destruct (path_exists (c :: p)) eqn:Hex; cbn [negb app head default].
    + split; [done|]. split.
      { simpl. apply size_normalized. intros k e.
        apply CascadeTheorems.final_keys_normalized. }
      split; [|by intros p' [= <-]].
      intros [?|[?|(p' & [= <-] & ?)]]; congruence.
    + split; [done|]. split; [simpl; rewrite map_size_empty; lia|]. split; [done|].
      intros p' [= <-] _ ?. congruence.
  - split; [done|]. split; [simpl; rewrite map_size_empty; lia|]. split; [done|].
    by intros p.
Qed.

End CascadeMore.

(* ===================================================================== *)
(** * Labels: the table filter, the normalizer, the text scanner *)
(* ===================================================================== *)

Module LabelProps.
Import PyStr NumberParsing Extractor ExtractorBackends CascadeSpec BackendSpec ExtractorProps.

Lemma is_prefix_app p q s : is_prefix (p ++ q) s = true -> is_prefix p s = true.
Proof.
  revert s. induction p as [|a p IH]; intros s; [done|].
  destruct s as [|b s]; simpl; [done|].
  intros H. apply andb_prop in H as [-> H]. by rewrite (IH s H).
Qed.

Lemma contains_app p q s : contains (p ++ q) s = true -> contains p s = true.
Proof.
  induction s as [|b s IH]; cbn [contains].
  - rewrite !orb_false_r. apply is_prefix_app.
  - intros H. apply orb_prop in H as [H|H].
    + by rewrite (is_prefix_app p q _ H).
    + rewrite (IH H). apply orb_true_r.
Qed.

Lemma is_prefix_refl s : is_prefix s s = true.
Proof. induction s as [|a s IH]; [done|]. simpl. by rewrite N.eqb_refl. Qed.

Lemma contains_refl s : contains s s = true.
Proof. destruct s; cbn [contains]; by rewrite is_prefix_refl. Qed.

(** X6. A label that the normalizer maps to a metric key is accepted by the
    label filter of the table scan, unless it is shorter than three code
    points; and the key is one of the six the cascade knows. *)
Theorem normalized_label_is_financial (py : interpreter) (W : world)
    (lbl : pystr) (k : string) :
  _normalize_metric_key (source_backends py W) lbl = Some k ->
  k ∈ normalized_keys
  /\ (_is_financial_label py lbl = true \/ (length lbl < 3)%nat).
Proof.
  intros Hk. split; [by eapply normalize_range|].
  unfold _is_financial_label. destruct (length lbl <? 3)%nat eqn:Hlen.
  { right. by apply Nat.ltb_lt. }
  left. revert Hk. unfold _normalize_metric_key. destruct lbl as [|c0 lbl]; [done|].
  cbn [lower source_backends]. set (low := str_lower py (c0 :: lbl)).
  assert (contains (u "profit after tax") low = true -> contains (u "profit") low = true)
    as Hpat by apply (contains_app (u "profit") (u " after tax")).
  assert (contains (u "earnings per share") low = true -> contains (u "earnings") low = true)
    as Heps by apply (contains_app (u "earnings") (u " per share")).
  cbn [existsb].
  destruct (contains (u "revenue") low) eqn:H1; [done|].
  destruct (contains (u "sales") low) eqn:H2; [by rewrite !orb_true_r|].
  destruct (contains (u "profit") low) eqn:H3; [done|].
  destruct (contains (u "pat") low) eqn:H4; [by rewrite !orb_true_r|].
  destruct (contains (u "profit after tax") low) eqn:H5; [by specialize (Hpat eq_refl)|].
  destruct (contains (u "income") low) eqn:H6; [done|].
  destruct (contains (u "ebitda") low) eqn:H7; [done|].
  destruct (contains (u "eps") low) eqn:H8; [by rewrite !orb_true_r|].
  destruct (contains (u "margin") low) eqn:H9; [by rewrite !orb_true_r|].
  destruct (contains (u "earnings per share") low) eqn:H10.
  { rewrite (Heps eq_refl). by rewrite !orb_true_r. }
  rewrite !andb_false_r. cbn [orb andb].
  destruct (bool_decide (low = u "ebit")) eqn:Hebit; [|done].
  apply bool_decide_eq_true in Hebit. rewrite Hebit. intros _. by vm_compute.
Qed.

Lemma normalized_label_is_financial_witness :
  "operating_profit"%string ∈ normalized_keys
  /\ (_is_financial_label ascii_interpreter (u "EBIT") = true
      \/ (length (u "EBIT") < 3)%nat).
Proof.
  exact (normalized_label_is_financial ascii_interpreter no_libraries (u "EBIT")
           "operating_profit" eq_refl).
Defined.

(** ** The label scan of a text *)

Lemma normalize_by_lower B1 B2 lbl :
  lower B1 lbl = lower B2 lbl ->
  _normalize_metric_key B1 lbl = _normalize_metric_key B2 lbl.
Proof. intros H. unfold _normalize_metric_key. by rewrite H. Qed.

Lemma text_labels_keys (py : interpreter) (W : world) :
  lowers_labels py ->
  Forall (fun l => exists k, _normalize_metric_key (source_backends py W) (u l) = Some k
                             /\ k ∈ text_keys) text_labels.
Proof.
  intros Hlow.
  assert (forallb (fun l =>
            match _normalize_metric_key (source_backends ascii_interpreter W) (u l) with
            | Some k => bool_decide (k ∈ text_keys)
            | None => false
            end) text_labels = true) as Hascii by (by vm_compute).
  rewrite forallb_forall in Hascii. unfold lowers_labels in Hlow.
  rewrite Forall_forall in Hlow. apply Forall_forall. intros l Hl.
  rewrite (normalize_by_lower _ (source_backends ascii_interpreter W)) by (by apply Hlow).
  apply list_elem_of_In, Hascii in Hl.
  destruct (_normalize_metric_key _ (u l)) as [k|]; [|done].
  exists k. split; [done|]. by apply bool_decide_eq_true in Hl.
Qed.

Lemma omap_scan {X Y Z : Type} (f : X -> option Y) (g : Y -> Z) (h : X -> Z)
    (Q : Y -> Prop) (ls : list X) :
  (forall a b, a ∈ ls -> f a = Some b -> g b = h a /\ Q b) ->
  sublist (map g (omap f ls)) (map h ls)
  /\ (length (omap f ls) <= length ls)%nat
  /\ Forall Q (omap f ls).
Proof.
  induction ls as [|a ls IH]; intros HQ.
  - split; [done|]. split; [done|constructor].
  - destruct IH as (S1 & L1 & F1).
    { intros a' b Ha'. apply HQ. by right. }
    change (omap f (a :: ls)) with
      (match f a with Some y => y :: omap f ls | None => omap f ls end).
    destruct (f a) as [b|] eqn:E.
    + destruct (HQ a b ltac:(by left) E) as [Hg Hb].
      split; [cbn [map]; rewrite Hg; by apply sublist_skip|].
      split; [cbn [length]; lia|by constructor].
    + split; [by apply sublist_cons|]. split; [cbn [length]; lia|done].
Qed.

(** X7. The text scanner returns at most one candidate for each of its
    twelve labels, in the order of the label list.  A candidate carries
    the label as written in the list, the unit INR_Cr, no page and no
    confidence; its value is the number parsed from the 300 code points
    that begin at the first case-insensitive occurrence of the label, and
    its context is the first 150 of them.  Every label normalizes to one of
    total_revenue, net_profit, operating_profit, ebitda, eps: the cascade
    never drops a text candidate for want of a key, and never reads an
    operating margin from text. *)
Theorem text_candidates_shape (py : interpreter) (W : world) (text : pystr) :
  lowers_labels py ->
  sublist (map c_label (_parse_metrics_from_text py text)) (map u text_labels)
  /\ (length (_parse_metrics_from_text py text) <= 12)%nat
  /\ Forall (fun c =>
       c_unit c = Some INR_Cr /\ c_page c = None /\ c_confidence c = None
       /\ (exists start,
             ci_find py (c_label c) text 0 = Some start
             /\ parse_inr_number (is_word (uni_alnum py)) (take 300 (drop start text))
                = Some (c_value c)
             /\ c_context c = Some (take 150 (drop start text)))
       /\ (exists k, _normalize_metric_key (source_backends py W) (c_label c) = Some k
                     /\ k ∈ text_keys))
     (_parse_metrics_from_text py text).
Proof.
  intros Hlow. pose proof (text_labels_keys py W Hlow) as Hkeys.
  rewrite Forall_forall in Hkeys.
  unfold _parse_metrics_from_text. apply omap_scan.
  intros l c Hl Hc.
  destruct (ci_find py (u l) text 0) as [start|] eqn:Hs; [|done].
  cbn [mbind option_bind] in Hc.
  destruct (parse_inr_number _ (take 300 (drop start text))) as [value|] eqn:Hv; [|done].
  injection Hc as <-. cbn [c_unit c_page c_confidence c_label c_value c_context].
  split; [done|]. split; [done|]. split; [done|]. split; [done|]. split; [|by apply Hkeys].
  exists start. split; [done|]. split; [done|]. by rewrite take_take.
Qed.

Lemma text_candidates_shape_witness :
  sublist (map c_label (_parse_metrics_from_text ascii_interpreter
                          (u "Net profit rose to 11,342 while EBITDA was flat")))
          (map u text_labels)
  /\ (length (_parse_metrics_from_text ascii_interpreter
                (u "Net profit rose to 11,342 while EBITDA was flat")) <= 12)%nat.
Proof.
  assert (lowers_labels ascii_interpreter) as Hlow.
  { unfold lowers_labels. apply Forall_forall. by intros. }
  destruct (text_candidates_shape ascii_interpreter no_libraries
              (u "Net profit rose to 11,342 while EBITDA was flat") Hlow) as (H1 & H2 & _).
  exact (conj H1 H2).
Defined.

End LabelProps.

(* ===================================================================== *)
(** * The three backends: tables, pages, OCR *)
(* ===================================================================== *)

Module BackendProps.
Import PyStr NumberParsing Extractor ExtractorBackends BackendSpec BackendSamples.

(** ** Page loops *)

Lemma joined_cons s texts : joined (s :: texts) = two_newlines ++ s ++ joined texts.
Proof. unfold joined. cbn [map concat]. by rewrite <- app_assoc. Qed.

Lemma joined_app l1 l2 : joined (l1 ++ l2) = joined l1 ++ joined l2.
Proof. unfold joined. by rewrite map_app, concat_app. Qed.

Lemma joined_nil texts : joined texts = [] <-> texts = [].
Proof. destruct texts; [done|]. by rewrite joined_cons. Qed.

Lemma pdfplumber_loop_joined pages : forall text,
  pdfplumber_loop pages text = text ++ joined (kept_texts pages).
Proof.
  induction pages as [|[[|c s]| |] pages IH]; intros text; cbn [pdfplumber_loop kept_texts].
  - by rewrite app_nil_r.
  - apply IH.
  - rewrite IH, joined_cons. by rewrite <- !app_assoc.
  - apply IH.
  - by rewrite app_nil_r.
Qed.

Lemma kept_texts_until_raise before after :
  kept_texts (before ++ PageRaised :: after) = kept_texts before.
Proof.
  induction before as [|[[|c s]| |] before IH]; cbn [app kept_texts]; try done.
  by rewrite IH.
Qed.

Lemma ocr_loop_joined pages : forall text,
  ocr_loop pages text = text ++ joined (ocr_texts pages).
Proof.
  induction pages as [|[s| |] pages IH]; intros text; cbn [ocr_loop].
  - by rewrite app_nil_r.
  - rewrite IH. change (ocr_texts (PageText s :: pages)) with (s :: ocr_texts pages).
    rewrite joined_cons. by rewrite <- !app_assoc.
  - apply IH.
  - apply IH.
Qed.

(** X8. pdfplumber's text is made of the first ten pages only: each page
    with a text that is not empty contributes a blank line and its text, in
    page order; a page on which [extract_text] raises ends the extraction
    with the pages before it kept.  The text is empty exactly when no page
    contributes, and when the library cannot be loaded or the file opened. *)
Theorem pdfplumber_text_pages (W : world) (path : pystr) :
  (pdfplumber_pages W path = None -> _extract_text_with_pdfplumber W path = [])
  /\ (forall pages, pdfplumber_pages W path = Some pages ->
        _extract_text_with_pdfplumber W path = joined (kept_texts (take 10 pages))
        /\ (forall first rest, pages = first ++ rest -> length first = 10%nat ->
              _extract_text_with_pdfplumber W path = joined (kept_texts first))
        /\ (forall before after, pages = before ++ PageRaised :: after ->
              (length before < 10)%nat ->
              _extract_text_with_pdfplumber W path = joined (kept_texts before))
        /\ (_extract_text_with_pdfplumber W path = [] <-> kept_texts (take 10 pages) = [])).
Proof.
  unfold _extract_text_with_pdfplumber. split; [by intros ->|].
  intros pages ->. rewrite pdfplumber_loop_joined, app_nil_l.
  split; [done|]. split; [|split].
  - intros first rest -> Hlen. by rewrite <- Hlen, take_app_length.
  - intros before after -> Hlen. rewrite take_app, (take_ge before) by lia.
    destruct (10 - length before)%nat as [|n] eqn:E; [lia|].
    cbn [take]. by rewrite kept_texts_until_raise.
  - apply joined_nil.
Qed.

(** X9. The OCR text is made of the first [max_pages] page images only:
    each page on which [image_to_string] returns contributes a blank line
    and its text, even an empty one, in page order; a page on which it
    raises is skipped and the pages after it are still read.  The text is
    empty exactly when no page contributes, and when a library cannot be
    loaded or the conversion raises. *)
Theorem ocr_text_pages (W : world) (path : pystr) (max_pages : Z) :
  (ocr_pages W path 200 = None -> _extract_with_ocr W path max_pages = [])
  /\ (forall pages, ocr_pages W path 200 = Some pages ->
        _extract_with_ocr W path max_pages = joined (ocr_texts (slice_to_Z pages max_pages))
        /\ (0 <= max_pages ->
            _extract_with_ocr W path max_pages
            = joined (ocr_texts (take (Z.to_nat max_pages) pages)))
        /\ (forall before after, slice_to_Z pages max_pages = before ++ PageRaised :: after ->
              _extract_with_ocr W path max_pages
              = joined (ocr_texts before) ++ joined (ocr_texts after))
        /\ (_extract_with_ocr W path max_pages = []
            <-> ocr_texts (slice_to_Z pages max_pages) = [])
        /\ (_extract_with_ocr W path max_pages <> [] ->
            (2 <= length (_extract_with_ocr W path max_pages))%nat)).
Proof.
  unfold _extract_with_ocr. split; [by intros ->|].
  intros pages ->. rewrite ocr_loop_joined, app_nil_l.
  split; [done|]. split; [|split; [|split]].
  - intros Hk. unfold slice_to_Z. by rewrite (proj2 (Z.leb_le 0 max_pages) Hk).
  - intros before after ->. unfold ocr_texts. rewrite omap_app. cbn [omap list_omap].
    apply joined_app.
  - apply joined_nil.
  - destruct (ocr_texts _) as [|s texts]; [done|]. intros _.
    rewrite joined_cons, length_app. simpl. lia.
Qed.

(** ** The table scan *)

Lemma first_some_range {X : Type} (f : nat -> option X) (n : nat) : forall a,
  match first_some (map f (seq a n)) with
  | Some v => exists k, (a <= k < a + n)%nat /\ f k = Some v
                        /\ forall j, (a <= j < k)%nat -> f j = None
  | None => forall j, (a <= j < a + n)%nat -> f j = None
  end.
Proof.
  induction n as [|n IH]; intros a; cbn [seq map first_some].
  - intros j Hj. lia.
  - destruct (f a) as [v|] eqn:Ea.
    + exists a. split; [lia|]. split; [done|]. intros j Hj. lia.
    + specialize (IH (S a)). destruct (first_some _) as [v|].
      * destruct IH as (k & Hk & Hv & Hnone). exists k. split; [lia|]. split; [done|].
        intros j Hj. destruct (decide (j = a)) as [->|Hne]; [done|]. apply Hnone. lia.
      * intros j Hj. destruct (decide (j = a)) as [->|Hne]; [done|]. apply IH. lia.
Qed.

Lemma first_some_py_range {X : Type} (f : nat -> option X) (a b : nat) :
  match first_some (map f (py_range a b)) with
  | Some v => exists k, (a <= k < b)%nat /\ f k = Some v
                        /\ forall j, (a <= j < k)%nat -> f j = None
  | None => forall j, (a <= j < b)%nat -> f j = None
  end.
Proof.
  unfold py_range. pose proof (first_some_range f (b - a) a) as H.
  destruct (first_some _) as [v|].
  - destruct H as (k & Hk & Hv & Hnone). exists k. split; [lia|done].
  - intros j Hj. apply H. lia.
Qed.

Lemma elem_of_concat {X : Type} (x : X) (ls : list (list X)) :
  x ∈ concat ls -> exists l, x ∈ l /\ l ∈ ls.
Proof.
  rewrite list_elem_of_In, in_concat. intros (l & Hl & Hx).
  exists l. by rewrite !list_elem_of_In.
Qed.

(** X10. Every hit of the table scan comes from a table that one of the
    two Camelot flavors returned, and from a cell of it that passes the
    label filter: the hit carries the stripped cell as label, the table's
    page, the unit INR_Cr and the confidence 0.85, and its value is the
    first number that parses among the next four cells of the row or, only
    when none of these parses, among the next two cells of the column. *)
Theorem camelot_hit_provenance (py : interpreter) (W : world) (path : pystr)
    (c : candidate) :
  c ∈ _extract_with_camelot py W path ->
  c_unit c = Some INR_Cr /\ c_confidence c = Some 0.85%float /\ c_context c = None
  /\ exists flavor tables t r col,
       (flavor = "lattice" \/ flavor = "stream")%string
       /\ camelot_read_pdf W path flavor = Some tables /\ t ∈ tables
       /\ c_page c = Some (table_page t)
       /\ (r < n_rows t)%nat /\ (col < n_cols t)%nat
       /\ _is_financial_label py (cell_of t r col) = true
       /\ c_label c = py_strip (cell_of t r col)
       /\ ((exists k, (col < k < Nat.min (n_cols t) (col + 5))%nat
              /\ parse_inr_number (is_word (uni_alnum py)) (cell_of t r k) = Some (c_value c)
              /\ forall j, (col < j < k)%nat ->
                   parse_inr_number (is_word (uni_alnum py)) (cell_of t r j) = None)
           \/ ((forall j, (col < j < Nat.min (n_cols t) (col + 5))%nat ->
                  parse_inr_number (is_word (uni_alnum py)) (cell_of t r j) = None)
               /\ exists k, (r < k < Nat.min (n_rows t) (r + 3))%nat
                    /\ parse_inr_number (is_word (uni_alnum py)) (cell_of t k col)
                       = Some (c_value c)
                    /\ forall j, (r < j < k)%nat ->
                         parse_inr_number (is_word (uni_alnum py)) (cell_of t j col) = None)).
Proof.
  unfold _extract_with_camelot. intros Hc.
  apply elem_of_concat in Hc as (hits & Hc & Hhits).
  apply list_elem_of_fmap in Hhits as (t & -> & Ht).
  apply elem_of_concat in Ht as (tables & Ht & Htables).
  apply list_elem_of_fmap in Htables as (flavor & -> & Hflavor).
  assert ((flavor = "lattice" \/ flavor = "stream")%string) as Hfl.
  { apply elem_of_cons in Hflavor as [->|Hflavor]; [by left|].
    apply list_elem_of_singleton in Hflavor as ->. by right. }
  destruct (camelot_read_pdf W path flavor) as [tables|] eqn:Hread;
    [|by apply elem_of_nil in Ht]. cbn [default] in Ht.
  unfold scan_table in Hc.
  apply elem_of_concat in Hc as (row_hits & Hc & Hrow).
  apply list_elem_of_fmap in Hrow as (r & -> & Hr).
  apply list_elem_of_omap in Hc as (col & Hcol & Hc).
  apply elem_of_seq in Hr, Hcol.
  fold (n_rows t) in Hc, Hr. fold (n_cols t) in Hc, Hcol. unfold cell_of.
  destruct (_is_financial_label py (nth col (nth r (df t) []) [])) eqn:Hlabel; [|done].
  pose proof (first_some_py_range
                (fun k => parse_inr_number (is_word (uni_alnum py)) (nth k (nth r (df t) []) []))
                (col + 1) (Nat.min (n_cols t) (col + 5))) as Hright.
  pose proof (first_some_py_range
                (fun k => parse_inr_number (is_word (uni_alnum py)) (nth col (nth k (df t) []) []))
                (r + 1) (Nat.min (n_rows t) (r + 3))) as Hbelow.
  destruct (first_some (map (fun k => parse_inr_number _ (nth k (nth r (df t) []) [])) _))
    as [v|].
  - injection Hc as <-. cbn [c_unit c_confidence c_context c_page c_label c_value].
    split; [done|]. split; [done|]. split; [done|].
    exists flavor, tables, t, r, col. repeat (split; [done || lia|]).
    left. destruct Hright as (k & Hk & Hv & Hnone). exists k.
    split; [lia|]. split; [done|]. intros j Hj. apply Hnone. lia.
  - destruct (first_some (map (fun k => parse_inr_number _ (nth col (nth k (df t) []) [])) _))
      as [v|];
      [|done].
    injection Hc as <-. cbn [c_unit c_confidence c_context c_page c_label c_value].
    split; [done|]. split; [done|]. split; [done|].
    exists flavor, tables, t, r, col. repeat (split; [done || lia|]).
    right. split; [intros j Hj; apply Hright; lia|].
    destruct Hbelow as (k & Hk & Hv & Hnone). exists k.
    split; [lia|]. split; [done|]. intros j Hj. apply Hnone. lia.
Qed.

Lemma camelot_hit_provenance_witness :
  _extract_with_camelot ascii_interpreter one_table (u "q2.pdf") = [revenue_hit]
  /\ c_unit revenue_hit = Some INR_Cr
  /\ c_confidence revenue_hit = Some 0.85%float.
Proof.
  assert (_extract_with_camelot ascii_interpreter one_table (u "q2.pdf") = [revenue_hit])
    as Hrun by (by vm_compute).
  split; [exact Hrun|].
  destruct (camelot_hit_provenance ascii_interpreter one_table (u "q2.pdf") revenue_hit)
    as (H1 & H2 & _).
  - rewrite Hrun. by left.
  - exact (conj H1 H2).
Defined.

End BackendProps.

(* ===================================================================== *)
(** * The enricher's fallback: what it leaves alone *)
(* ===================================================================== *)

Module EnricherMore.
Import PyStr Enricher EnricherSpec EnricherProps.

Section Fallback.
Variable float_of_str : pystr -> option float.

Lemma add_operating_margin_keys m k v :
  add_operating_margin float_of_str m !! k = Some v ->
  m !! k = Some v \/ (k = "operating_margin"%string /\ m !! k = None).
Proof.
  unfold add_operating_margin.
  destruct (m !! "operating_margin"%string) eqn:Hom; [by left|].
  destruct (m !! "operating_profit"%string); [|by left].
  destruct (m !! "total_revenue"%string); [|by left].
  destruct (_ ≫= _); [|by left]. destruct (_ ≫= _); [|by left].
  destruct (negb _); [|by left].
  destruct (decide (k = "operating_margin"%string)) as [->|Hk].
  - by right.
  - rewrite lookup_insert_ne by done. by left.
Qed.

Lemma add_qoq_keys bases : forall m k v,
  add_qoq float_of_str bases m !! k = Some v ->
  m !! k = Some v \/ exists b, b ∈ bases /\ k = (b +:+ "_qoq_pct")%string.
Proof.
  induction bases as [|b bases IH]; intros m k v; cbn [add_qoq]; [by left|].
  assert (forall m', add_qoq float_of_str bases m' !! k = Some v ->
            (m' = m \/ exists x, m' = <[(b +:+ "_qoq_pct")%string := x]> m) ->
            m !! k = Some v
            \/ exists b', b' ∈ b :: bases /\ k = (b' +:+ "_qoq_pct")%string) as Hstep.
  { intros m' Hk Hm'. apply IH in Hk as [Hk|(b' & Hb' & ->)].
    - destruct Hm' as [->|(x & ->)]; [by left|].
      destruct (decide (k = (b +:+ "_qoq_pct")%string)) as [->|Hne].
      + right. exists b. split; [by left|done].
      + rewrite lookup_insert_ne in Hk by done. by left.
    - right. exists b'. split; [by right|done]. }
  destruct (m !! b) as [c|]; [|by intros H; eapply Hstep; eauto].
  destruct (m !! (b +:+ "_prev")%string) as [p|]; [|by intros H; eapply Hstep; eauto].
  destruct (value_of c) as [cur_val|]; [|by left].
  destruct (value_of p) as [prev_val|]; [|by left].
  destruct (py_float_of float_of_str cur_val) as [cur|];
    [|by intros H; eapply Hstep; eauto].
  destruct (py_float_of float_of_str prev_val) as [prev|];
    [|by intros H; eapply Hstep; eauto].
  destruct (negb _); intros H; eapply Hstep; eauto.
Qed.

End Fallback.

(** X11. The deterministic fallback leaves the caller's metrics alone: a
    key other than [operating_margin] and the three [_qoq_pct] keys comes
    out as the cleaned form of what came in (a dict keeps its value, with
    unit INR_Cr and confidence 0.5 when it has none; a bare number becomes a
    float with unit INR_Cr and confidence 0.4; anything else is dropped); an
    [operating_margin] supplied by the caller is never recomputed; no
    margin is derived from a revenue of zero; and no key comes out that did
    not come in, these four derived keys apart. *)
Theorem fallback_keeps_other_metrics (float_of_str : pystr -> option float)
    (metrics : gmap string mval) :
  (forall k, k <> "operating_margin"%string ->
     (forall b, b ∈ qoq_bases -> k <> (b +:+ "_qoq_pct")%string) ->
     deterministic_enrichment float_of_str metrics !! k
     = metrics !! k ≫= clean float_of_str)
  /\ (forall v, metrics !! "operating_margin"%string = Some v ->
        deterministic_enrichment float_of_str metrics !! "operating_margin"%string
        = clean float_of_str v)
  /\ (forall r rev, metrics !! "operating_margin"%string = None ->
        metrics !! "total_revenue"%string = Some r ->
        value_of r ≫= py_float_of float_of_str = Some rev ->
        (rev =? 0)%float = true ->
        deterministic_enrichment float_of_str metrics !! "operating_margin"%string = None)
  /\ (forall k c, deterministic_enrichment float_of_str metrics !! k = Some c ->
        is_Some (metrics !! k) \/ k = "operating_margin"%string
        \/ exists b, b ∈ qoq_bases /\ k = (b +:+ "_qoq_pct")%string)
  /\ (forall d x, d !! "value"%string = Some x ->
        clean float_of_str (MDict d)
        = Some (Cleaned x (default (SStr (u "INR_Cr")) (d !! "unit"%string))
                          (default (SFloat 0.5) (d !! "confidence"%string))))
  /\ (forall d, d !! "value"%string = None -> clean float_of_str (MDict d) = None)
  /\ (forall x, clean float_of_str (MScalar x)
        = f ← py_float_of float_of_str x;
          Some (Cleaned (SFloat f) (SStr (u "INR_Cr")) (SFloat 0.4))).
Proof.
  unfold deterministic_enrichment.
  split; [|split; [|split; [|split; [|split; [|split]]]]].
  - intros k Hk Hq. by rewrite lookup_omap, (add_qoq_other float_of_str),
      (add_operating_margin_other float_of_str).
  - intros v Hv. rewrite lookup_omap, (add_qoq_other float_of_str)
      by apply EnricherTheorems.base_qoq_not_margin.
    by rewrite (add_operating_margin_keeps float_of_str _ _ v Hv).
  - intros r rev Hom Hr Hrev Hz. rewrite lookup_omap, (add_qoq_other float_of_str)
      by apply EnricherTheorems.base_qoq_not_margin.
    unfold add_operating_margin. rewrite Hom, Hr.
    destruct (metrics !! "operating_profit"%string) as [p|]; [|by rewrite Hom].
    destruct (value_of p ≫= _); [|by rewrite Hom].
    rewrite Hrev, Hz. cbn [negb]. by rewrite Hom.
  - intros k c Hk. rewrite lookup_omap in Hk.
    destruct (add_qoq _ _ _ !! k) as [v|] eqn:Hv; [|done].
    apply add_qoq_keys in Hv as [Hv|Hv]; [|by right; right].
    apply add_operating_margin_keys in Hv as [Hv|[-> _]]; [left|right; left]; eauto.
  - intros d x Hx. cbn [clean]. by rewrite Hx.
  - intros d Hx. cbn [clean]. by rewrite Hx.
  - done.
Qed.

End EnricherMore.

(* ===================================================================== *)
(** * [_chunk_text]: windows of words *)
(* ===================================================================== *)

Module ChunkProps.
Import PyStr Qualitative ChunkSpec.

(** ** [str.split()] and [" ".join] *)

Lemma split_ws_word w : forall cur s,
  Forall (fun c => py_isspace c = false) w ->
  split_ws cur (w ++ s) = split_ws (rev w ++ cur) s.
Proof.
  induction w as [|c w IH]; intros cur s Hw; [done|].
  inversion Hw as [|? ? Hc Hw']; subst. cbn [app split_ws]. rewrite Hc.
  rewrite IH by done. cbn [rev]. by rewrite <- app_assoc.
Qed.

Lemma split_ws_tokens s : forall cur,
  Forall (fun c => py_isspace c = false) cur -> Forall is_token (split_ws cur s).
Proof.
  assert (forall cur, cur <> [] -> Forall (fun c => py_isspace c = false) cur ->
            is_token (rev cur)) as Hrev.
  { intros cur Hne Hcur. split.
    - intros E. apply (f_equal (@length N)) in E. rewrite length_rev in E.
      by destruct cur.
    - by apply Forall_rev. }
  induction s as [|c s IH]; intros cur Hcur; cbn [split_ws].
  - destruct cur as [|x cur]; [constructor|]. constructor; [by apply Hrev|constructor].
  - destruct (py_isspace c) eqn:Hc.
    + destruct cur as [|x cur]; [by apply IH|].
      constructor; [by apply Hrev|by apply IH].
    + apply IH. by constructor.
Qed.

Lemma py_split_tokens s : Forall is_token (py_split s).
Proof. apply split_ws_tokens. constructor. Qed.

Lemma split_ws_nil s : forall cur,
  split_ws cur s = [] <-> cur = [] /\ forallb py_isspace s = true.
Proof.
  induction s as [|c s IH]; intros cur; cbn [split_ws forallb].
  - destruct cur; split; try done. by intros [? _].
  - destruct (py_isspace c); cbn [andb].
    + destruct cur as [|x cur]; [apply IH|]. split; [done|by intros [? _]].
    + rewrite IH. split; [by intros [? _]|by intros [_ ?]].
Qed.

Lemma py_split_join ws : Forall is_token ws -> py_split (join_sp ws) = ws.
Proof.
  unfold py_split. induction 1 as [|w ws [Hne Hw] Hws IH]; [done|].
  assert (rev (rev w ++ []) = w) as Hrr by (by rewrite app_nil_r, rev_involutive).
  assert (rev w ++ [] <> []) as Hnn.
  { rewrite app_nil_r. intros E. apply (f_equal (@length N)) in E.
    rewrite length_rev in E. by destruct w. }
  destruct ws as [|w' ws].
  - cbn [join_sp]. rewrite <- (app_nil_r w) at 1. rewrite split_ws_word by done.
    remember (rev w ++ []) as cur eqn:Ecur. destruct cur as [|x cur]; [done|].
    cbn [split_ws]. by rewrite Hrr.
  - change (join_sp (w :: w' :: ws)) with (w ++ 32%N :: join_sp (w' :: ws)).
    rewrite split_ws_word by done.
    remember (rev w ++ []) as cur eqn:Ecur. destruct cur as [|x cur]; [done|].
    cbn [split_ws]. change (py_isspace 32) with true. cbn match.
    by rewrite Hrr, IH.
Qed.

Lemma join_sp_not_blank ws :
  ws <> [] -> Forall is_token ws -> forallb py_isspace (join_sp ws) = false.
Proof.
  intros Hne Hws. destruct ws as [|w ws]; [done|].
  inversion Hws as [|? ? [Hw Hc] _]; subst. destruct w as [|c w]; [done|].
  inversion Hc as [|? ? Hc0 _]; subst.
  destruct ws; cbn [join_sp app forallb]; by rewrite Hc0.
Qed.

(** ** Windows *)

Lemma windows_concat size : (0 < size)%nat -> forall fuel (ws : list pystr),
  (length ws <= fuel)%nat -> concat (windows fuel size ws) = ws.
Proof.
  intros Hsize. induction fuel as [|f IH]; intros ws Hlen.
  - destruct ws; [done|simpl in Hlen; lia].
  - destruct ws as [|w ws]; [done|]. cbn [windows concat].
    rewrite IH; [apply take_drop|]. rewrite length_drop. simpl in *. lia.
Qed.

Lemma windows_lookup size : forall fuel (ws : list pystr) i win,
  windows fuel size ws !! i = Some win ->
  win = take size (drop (i * size) ws).
Proof.
  induction fuel as [|f IH]; intros ws i win; [done|].
  destruct ws as [|w ws]; [done|]. cbn [windows].
  destruct i as [|i]; cbn [lookup list_lookup].
  - by intros [= <-].
  - intros Hi. apply IH in Hi as ->.
    by rewrite drop_drop, (Nat.add_comm size), <- Nat.mul_succ_l.
Qed.

Lemma windows_nonempty size : (0 < size)%nat -> forall fuel (ws : list pystr),
  Forall (fun win => win <> []) (windows fuel size ws).
Proof.
  intros Hsize. induction fuel as [|f IH]; intros ws; [constructor|].
  destruct ws as [|w ws]; [constructor|]. cbn [windows]. constructor; [|apply IH].
  destruct size; [lia|done].
Qed.

Lemma windows_length size : (0 < size)%nat -> forall fuel (ws : list pystr),
  (length ws <= fuel)%nat -> length (windows fuel size ws) = div_up (length ws) size.
Proof.
  intros Hsize. unfold div_up. induction fuel as [|f IH]; intros ws Hlen.
  - destruct ws; [|simpl in Hlen; lia]. simpl. symmetry. apply Nat.div_small. lia.
  - destruct ws as [|w ws].
    { simpl. symmetry. apply Nat.div_small. lia. }
    cbn [windows length]. rewrite IH by (rewrite length_drop; simpl in *; lia).
    rewrite length_drop. cbn [length].
    destruct (decide (size <= S (length ws))%nat) as [Hle|Hgt].
    + replace (S (length ws) + size - 1)%nat
        with ((S (length ws) - size + size - 1) + 1 * size)%nat by lia.
      rewrite Nat.div_add by lia. lia.
    + replace (S (length ws) - size)%nat with 0%nat by lia.
      rewrite (Nat.div_small (0 + size - 1)) by lia.
      apply (Nat.div_unique _ _ 1 (length ws)); lia.
Qed.

Lemma filter_all {X : Type} (P : X -> bool) (l : list X) :
  Forall (fun x => P x = true) l -> filter P l = l.
Proof.
  induction 1 as [|x l Hx _ IH]; [done|].
  rewrite filter_cons_True by (by rewrite Hx). by rewrite IH.
Qed.

Lemma chunk_text_windows text n : (0 < n)%nat ->
  _chunk_text text n
  = map join_sp (windows (length (py_split text)) n (py_split text))
  /\ Forall (fun win => win <> [] /\ Forall is_token win)
            (windows (length (py_split text)) n (py_split text)).
Proof.
  intros Hn. set (words := py_split text).
  assert (Forall (fun win => win <> [] /\ Forall is_token win)
                 (windows (length words) n words)) as Hwins.
  { apply Forall_forall. intros win Hwin. split.
    - pose proof (windows_nonempty n Hn (length words) words) as Hne.
      rewrite Forall_forall in Hne. by apply Hne.
    - apply list_elem_of_lookup in Hwin as [i Hi]. apply windows_lookup in Hi as ->.
      apply Forall_take, Forall_drop, py_split_tokens. }
  split; [|done]. unfold _chunk_text. fold words. apply filter_all.
  apply Forall_fmap. eapply Forall_impl; [exact Hwins|]. intros win [Hne Htok].
  cbn. by rewrite join_sp_not_blank.
Qed.

(** X12. For a positive window size [_chunk_text] cuts the words of the
    text ([text.split()]) into consecutive windows: chunk [i] is the words
    [i*n .. i*n + n - 1] joined by single blanks, so it has between one and
    [n] words; there are ceil(words / n) chunks; splitting the chunks
    again gives back every word of the text, once and in order; and no
    chunk is produced exactly when the text is empty or blank. *)
Theorem chunk_text_partition (text : pystr) (chunk_words : nat) :
  (0 < chunk_words)%nat ->
  concat (map py_split (_chunk_text text chunk_words)) = py_split text
  /\ length (_chunk_text text chunk_words) = div_up (length (py_split text)) chunk_words
  /\ (forall i c, _chunk_text text chunk_words !! i = Some c ->
        c = join_sp (take chunk_words (drop (i * chunk_words) (py_split text)))
        /\ py_split c = take chunk_words (drop (i * chunk_words) (py_split text))
        /\ (1 <= length (py_split c) <= chunk_words)%nat)
  /\ (_chunk_text text chunk_words = [] <-> forallb py_isspace text = true).
Proof.
  intros Hn. destruct (chunk_text_windows text chunk_words Hn) as [-> Hwins].
  set (words := py_split text) in *.
  assert (forall win, win ∈ windows (length words) chunk_words words ->
            py_split (join_sp win) = win) as Hback.
  { intros win Hwin. rewrite Forall_forall in Hwins.
    apply py_split_join. by apply Hwins. }
  split; [|split; [|split]].
  - transitivity (concat (windows (length words) chunk_words words));
      [|by apply windows_concat].
    f_equal. rewrite map_map.
    transitivity (map (fun win : list pystr => win) (windows (length words) chunk_words words));
      [|apply map_id].
    apply map_ext_in. intros win Hwin. by apply Hback, list_elem_of_In.
  - rewrite length_map. by apply windows_length.
  - intros i c Hc. rewrite list_lookup_fmap in Hc.
    destruct (windows _ _ _ !! i) as [win|] eqn:Hi; [|done]. injection Hc as <-.
    pose proof (Hback win ltac:(by eapply list_elem_of_lookup_2)) as Hsplit.
    rewrite Forall_forall in Hwins.
    destruct (Hwins win ltac:(by eapply list_elem_of_lookup_2)) as [Hne _].
    apply windows_lookup in Hi as E. rewrite Hsplit. rewrite <- E.
    split; [done|]. split; [done|]. split.
    + destruct win; [done|simpl; lia].
    + rewrite E. rewrite length_take. lia.
  - assert (words = [] <-> forallb py_isspace text = true) as Hblank.
    { unfold words, py_split. rewrite (split_ws_nil text []). by split; [intros [_ ?]|]. }
    rewrite <- Hblank. split.
    + intros E. apply (f_equal (@length _)) in E.
      rewrite length_map, (windows_length _ Hn) in E by done.
      destruct words as [|w ws]; [done|exfalso].
      unfold div_up in E. cbn [length] in E.
      assert (1 <= (S (length ws) + chunk_words - 1) / chunk_words)%nat; [|lia].
      apply Nat.div_le_lower_bound; lia.
    + by intros ->.
Qed.

Lemma chunk_text_partition_witness :
  concat (map py_split (_chunk_text (u "  margins  improved on  strong deal wins ") 3))
  = py_split (u "  margins  improved on  strong deal wins ")
  /\ length (_chunk_text (u "  margins  improved on  strong deal wins ") 3) = 2%nat.
Proof.
  destruct (chunk_text_partition (u "  margins  improved on  strong deal wins ") 3
              ltac:(lia)) as (H1 & H2 & _).
  exact (conj H1 H2).
Defined.

End ChunkProps.

(* ===================================================================== *)
(** * Chunk ids *)
(* ===================================================================== *)

Module ChunkIdProps.
Import PyStr Qualitative ChunkIdSpec.

(** ** [str(i)] *)

Lemma digits_of_spec : forall fuel n acc,
  (n < N.of_nat fuel)%N ->
  exists ds, digits_of fuel n acc = ds ++ acc
             /\ Forall (fun c => is_ascii_digit c = true) ds
             /\ decimal_value ds = n.
Proof.
  induction fuel as [|f IH]; intros n acc Hn; [lia|].
  cbn [digits_of].
  assert (is_ascii_digit (48 + n mod 10) = true) as Hd.
  { unfold is_ascii_digit. pose proof (N.mod_upper_bound n 10 ltac:(lia)) as Hm.
    set (r := (n mod 10)%N) in *.
    apply andb_true_intro. split; apply N.leb_le.
    all: lia. }
  destruct (n <? 10)%N eqn:Hlt.
  - apply N.ltb_lt in Hlt. exists [(48 + n mod 10)%N]. split; [done|].
    split; [by constructor|]. unfold decimal_value. cbn [fold_left].
    rewrite N.mod_small by lia. lia.
  - apply N.ltb_ge in Hlt.
    destruct (IH (n / 10)%N ((48 + n mod 10)%N :: acc)) as (ds & -> & Hds & Hv).
    { assert (n / 10 < n)%N by (apply N.div_lt; lia). lia. }
    exists (ds ++ [(48 + n mod 10)%N]). split; [by rewrite <- app_assoc|].
    split; [apply Forall_app; split; [done|by constructor]|].
    unfold decimal_value. rewrite fold_left_app. fold (decimal_value ds).
    rewrite Hv. cbn [fold_left].
    pose proof (N.div_mod n 10 ltac:(lia)) as Hdm.
    set (q := (n / 10)%N) in *. set (r := (n mod 10)%N) in *. lia.
Qed.

Lemma str_of_nat_spec i :
  Forall (fun c => is_ascii_digit c = true) (str_of_nat i)
  /\ decimal_value (str_of_nat i) = N.of_nat i.
Proof.
  unfold str_of_nat.
  destruct (digits_of_spec (S i) (N.of_nat i) [] ltac:(lia)) as (ds & -> & Hds & Hv).
  by rewrite app_nil_r.
Qed.

Lemma str_of_nat_inj i j : str_of_nat i = str_of_nat j -> i = j.
Proof.
  intros E. apply (f_equal decimal_value) in E.
  rewrite (proj2 (str_of_nat_spec i)), (proj2 (str_of_nat_spec j)) in E. lia.
Qed.

(** ** A name, a tag, a number *)

Lemma digit_prefix_unique (x : N) : is_ascii_digit x = false ->
  forall p1 p2 r1 r2,
  Forall (fun c => is_ascii_digit c = true) p1 ->
  Forall (fun c => is_ascii_digit c = true) p2 ->
  p1 ++ x :: r1 = p2 ++ x :: r2 -> p1 = p2 /\ r1 = r2.
Proof.
  intros Hx. induction p1 as [|c1 p1 IH]; intros [|c2 p2] r1 r2 H1 H2 E.
  - by injection E as <-.
  - injection E as <- _. inversion H2; congruence.
  - injection E as -> _. inversion H1; congruence.
  - injection E as <- E. inversion H1; inversion H2; subst.
    destruct (IH p2 r1 r2) as [-> ->]; done.
Qed.

Lemma id_of_inj nm1 nm2 i j : id_of nm1 i = id_of nm2 j -> nm1 = nm2 /\ i = j.
Proof.
  unfold id_of. intros E. apply (f_equal (@rev N)) in E.
  rewrite !rev_app_distr in E.
  change (rev (u "_chunk_")) with (95%N :: rev (u "_chunk")) in E.
  rewrite <- !app_assoc in E. cbn [app] in E.
  apply digit_prefix_unique in E as [Ed En]; [|done|apply Forall_rev..].
  2,3: apply str_of_nat_spec.
  apply (f_equal (@rev N)) in Ed. rewrite !rev_involutive in Ed.
  apply str_of_nat_inj in Ed as ->.
  apply app_inv_head in En. apply (f_equal (@rev N)) in En.
  by rewrite !rev_involutive in En.
Qed.

(** ** The chunks of a batch *)

Lemma chunks_of_lookup E t i c :
  chunks_of E t !! i = Some c ->
  source (c_meta c) = name_of t /\ chunk_id (c_meta c) = id_of (name_of t) i
  /\ exists path text, local_path t = Some path /\ read_file E path = Some text
                       /\ _chunk_text text 300 !! i = Some (c_text c).
Proof.
  unfold chunks_of. destruct (local_path t) as [[|p0 path]|] eqn:Hp; [done| |done].
  destruct (read_file E (p0 :: path)) as [text|] eqn:Hr; [|done].
  rewrite list_lookup_imap. destruct (_chunk_text text 300 !! i) as [x|] eqn:Hx; [|done].
  intros [= <-]. cbn. split; [done|]. split; [done|]. eauto.
Qed.

Lemma all_chunks_elem E ts c :
  c ∈ all_chunks E ts -> exists t i, t ∈ ts /\ chunks_of E t !! i = Some c.
Proof.
  unfold all_chunks. rewrite list_elem_of_In, in_concat. intros (l & Hl & Hc).
  apply in_map_iff in Hl as (t & <- & Ht).
  apply list_elem_of_In, list_elem_of_lookup in Hc as [i Hi].
  exists t, i. by rewrite list_elem_of_In.
Qed.

(** X13. A chunk carries the name of its transcript ("unknown" when it has
    none) as [source] and "<name>_chunk_<i>" as [chunk_id], [i] being its
    position among the chunks of that transcript.  The id determines the
    name and the position, so in a batch of transcripts with pairwise
    different names no two chunks share an id. *)
Theorem chunk_ids_identify (E : env) (ts : list transcript) :
  (forall t i c, chunks_of E t !! i = Some c ->
     source (c_meta c) = name_of t /\ chunk_id (c_meta c) = id_of (name_of t) i
     /\ exists path text, local_path t = Some path /\ read_file E path = Some text
                          /\ _chunk_text text 300 !! i = Some (c_text c))
  /\ (forall c, c ∈ all_chunks E ts -> exists t i, t ∈ ts /\ chunks_of E t !! i = Some c)
  /\ (forall nm1 nm2 i j, id_of nm1 i = id_of nm2 j -> nm1 = nm2 /\ i = j)
  /\ (NoDup (map name_of ts) ->
      NoDup (map (fun c => chunk_id (c_meta c)) (all_chunks E ts))).
Proof.
  split; [apply chunks_of_lookup|]. split; [apply all_chunks_elem|].
  split; [apply id_of_inj|].
  induction ts as [|t ts IH]; intros Hnames; [constructor|].
  apply NoDup_cons in Hnames as [Hfresh Hnames].
  change (all_chunks E (t :: ts)) with (chunks_of E t ++ all_chunks E ts).
  rewrite map_app. apply NoDup_app. split; [|split; [|by apply IH]].
  - apply NoDup_alt. intros i j x Hi Hj.
    rewrite list_lookup_fmap in Hi, Hj.
    destruct (chunks_of E t !! i) as [ci|] eqn:Eci; [|done].
    destruct (chunks_of E t !! j) as [cj|] eqn:Ecj; [|done].
    apply chunks_of_lookup in Eci as (_ & Hidi & _).
    apply chunks_of_lookup in Ecj as (_ & Hidj & _).
    injection Hi as <-. injection Hj as Hj. rewrite Hidi, Hidj in Hj.
    by apply id_of_inj in Hj as [_ ->].
  - intros x Hx Hx'.
    apply list_elem_of_fmap in Hx as (c & -> & Hc).
    apply list_elem_of_fmap in Hx' as (c' & Heq & Hc').
    apply list_elem_of_lookup in Hc as [i Hi].
    apply chunks_of_lookup in Hi as (_ & Hid & _).
    apply all_chunks_elem in Hc' as (t' & j & Ht' & Hj).
    apply chunks_of_lookup in Hj as (_ & Hid' & _).
    rewrite Hid, Hid' in Heq. apply id_of_inj in Heq as [Hn _].
    apply Hfresh. rewrite Hn. apply list_elem_of_fmap. by exists t'.
Qed.

End ChunkIdProps.

(* ===================================================================== *)
(** * [retrieve]: what it leaves untouched, what it never reaches *)
(* ===================================================================== *)

Module RetrieveMore.
Import PyStr Qualitative RetrieverSpec RetrieveSpec ToolInit RetrieverProps.

Lemma retrieve_tool E query top_k t :
  (retrieve E query top_k t).2 =
  if (is_none (index t) && is_none (_embeddings t)) || bool_decide (chunks t = [])
  then t else (ensure_embedder E t).2.
Proof.
  unfold retrieve. destruct (_ || _); [done|].
  destruct (ensure_embedder E t) as [emb t1]. cbn [snd].
  destruct (index t1) as [stored|].
  - destruct (_ ≫= _) as [[ds ixs]|]; done.
  - destruct (_embeddings t1) as [store|]; [|done].
    by destruct (numpy_scan _ _ _ _ _ _).
Qed.

Lemma ensure_embedder_idem E t :
  (ensure_embedder E (ensure_embedder E t).2).2 = (ensure_embedder E t).2.
Proof.
  unfold ensure_embedder. destruct (embedder t) eqn:He; cbn [snd embedder].
  - by rewrite He.
  - done.
Qed.

(** X14. [retrieve] never touches the chunks, the FAISS index or the
    stored embeddings of the tool; the one thing it may change is to load
    an embedder into a tool that holds none, and then only when there is
    something to search.  After one call the tool is stable: any further
    call leaves it exactly as it is. *)
Theorem retrieve_frame (E : env) (query : pystr) (top_k : Z) (t : tool) :
  let t' := (retrieve E query top_k t).2 in
  chunks t' = chunks t /\ index t' = index t /\ _embeddings t' = _embeddings t
  /\ (embedder t' = embedder t
      \/ (embedder t = None /\ chunks t <> []
          /\ embedder t' = Some (default (fake_embedder E) (sentence_transformer E))))
  /\ (is_Some (embedder t) -> t' = t)
  /\ (forall query2 top_k2, (retrieve E query2 top_k2 t').2 = t').
Proof.
  cbv zeta. rewrite retrieve_tool.
  destruct (ensure_embedder_chunks E t) as (Hc & Hi & He).
  assert (embedder (ensure_embedder E t).2 = embedder t
          \/ (embedder t = None
              /\ embedder (ensure_embedder E t).2
                 = Some (default (fake_embedder E) (sentence_transformer E)))) as Hemb.
  { unfold ensure_embedder. destruct (embedder t) eqn:Hemb; [left|by right].
    cbn [snd]. by rewrite Hemb. }
  assert (is_Some (embedder t) -> (ensure_embedder E t).2 = t) as Hsome.
  { unfold ensure_embedder. destruct (embedder t); [done|]. by intros [? ?]. }
  destruct ((is_none (index t) && is_none (_embeddings t))
            || bool_decide (chunks t = [])) eqn:G.
  - split; [done|]. split; [done|]. split; [done|]. split; [by left|].
    split; [done|]. intros q2 k2. by rewrite retrieve_tool, G.
  - split; [done|]. split; [done|]. split; [done|]. split.
    { destruct Hemb as [?|[? ?]]; [by left|right]. split; [done|]. split; [|done].
      apply orb_false_elim in G as [_ G]. by apply bool_decide_eq_false in G. }
    split; [done|]. intros q2 k2. rewrite retrieve_tool, Hc, Hi, He, G.
    apply ensure_embedder_idem.
Qed.

(** X15. The keyword matching written at the end of [retrieve] is never
    reached: the result does not depend on [str.lower], which only that
    branch uses; a tool without FAISS index and without stored embeddings,
    a newly constructed one in particular, answers every query with no hit
    and stays as it is, whatever its chunks contain. *)
Theorem keyword_fallback_unreachable (E : env) (query : pystr) (top_k : Z) (t : tool) :
  (forall f, retrieve (with_lower E f) query top_k t = retrieve E query top_k t)
  /\ (index t = None -> _embeddings t = None -> retrieve E query top_k t = (Ok [], t))
  /\ (forall force embedder,
        retrieve E query top_k (init E force embedder) = (Ok [], init E force embedder))
  /\ (forall hits t', retrieve E query top_k t = (Ok hits, t') -> hits <> [] ->
        chunks t <> [] /\ (index t <> None \/ _embeddings t <> None)).
Proof.
  split; [|split; [|split]].
  - intros f. unfold retrieve.
    destruct (index t) as [stored|] eqn:Hi; destruct (_embeddings t) as [store|] eqn:He;
      cbn [is_none andb orb]; try done;
      (destruct (bool_decide (chunks t = [])); [done|]);
      unfold ensure_embedder; destruct (embedder t) as [emb|];
      cbn [index _embeddings chunks]; rewrite ?Hi, ?He; reflexivity.
  - intros Hi He. unfold retrieve. by rewrite Hi, He.
  - intros force embedder. unfold retrieve, init. done.
  - intros hits t' Hr Hne. unfold retrieve in Hr.
    destruct (index t) as [stored|] eqn:Hi; destruct (_embeddings t) as [store|] eqn:He;
      cbn [is_none andb orb] in Hr;
      destruct (bool_decide (chunks t = [])) eqn:Hc;
      try (injection Hr as <- _; done);
      apply bool_decide_eq_false in Hc; split; try done; eauto.
Qed.

End RetrieveMore.

(* ===================================================================== *)
(** * [analyze]: sizes of what it returns *)
(* ===================================================================== *)

Module AnalyzerBounds.
Import PyStr Qualitative RetrieverSpec RetrieveSpec QualitativeProps RetrieverProps.

Lemma faiss_hits_length cs pairs : forall hits,
  faiss_hits cs pairs = Some hits -> (length hits <= length pairs)%nat.
Proof.
  induction pairs as [|[idx d] ps IH]; intros hits; cbn [faiss_hits].
  - by intros [= <-].
  - destruct (idx <? _).
    + destruct (py_index cs idx) as [c|]; [|done]. cbn [mbind option_bind].
      destruct (faiss_hits cs ps) as [r|]; [|done]. cbn [mbind option_bind].
      intros [= <-]. specialize (IH r eq_refl). simpl. lia.
    + intros H. apply IH in H. simpl. lia.
Qed.

Lemma hits_of_length cs dists idxs hits :
  hits_of cs dists idxs = Some hits -> length hits = length idxs.
Proof. unfold hits_of. intros H. symmetry. by eapply length_mapM. Qed.

Lemma slice_to_length {X : Type} (l : list X) (k : Z) :
  0 <= k -> (length (slice_to l k) <= Z.to_nat k)%nat.
Proof. intros Hk. rewrite slice_to_take by done. rewrite length_take. lia. Qed.

(** With [0 <= top_k], at most [top_k] hits. *)
Lemma retrieve_length E query top_k t hits t' :
  search_within_k E -> 0 <= top_k ->
  retrieve E query top_k t = (Ok hits, t') -> (length hits <= Z.to_nat top_k)%nat.
Proof.
  intros Hfaiss Hk. unfold retrieve. destruct (_ || _).
  { intros [= <- _]. simpl. lia. }
  destruct (ensure_embedder E t) as [emb t1].
  set (m := Z.min top_k (Z.of_nat (length (chunks t1)))).
  assert (0 <= m /\ (Z.to_nat m <= Z.to_nat top_k)%nat) as [Hm Hmk] by (unfold m; lia).
  destruct (index t1) as [stored|].
  - destruct (emb [query]) as [q|]; cbn [mbind option_bind].
    2:{ intros [= <- _]. simpl. lia. }
    destruct (faiss_search E stored q m) as [[ds ixs]|] eqn:Hs.
    2:{ intros [= <- _]. simpl. lia. }
    intros [= Hh _]. apply of_option_Ok, faiss_hits_length in Hh.
    apply Hfaiss in Hs. rewrite length_zip in Hh. lia.
  - destruct (_embeddings t1) as [store|].
    + destruct (numpy_scan E emb t1 store query top_k) as [results|] eqn:Hn.
      * intros [= <- _]. unfold numpy_scan in Hn. destruct (has_numpy E); [|done].
        destruct (emb [query]) as [q|]; [|done]. cbn [mbind option_bind] in Hn.
        destruct (np_dists E _ q) as [dists|]; [|done]. cbn [mbind option_bind] in Hn.
        apply hits_of_length in Hn. rewrite Hn.
        pose proof (slice_to_length (np_argsort E dists) m Hm). fold m. lia.
      * unfold python_scan. destruct (emb [query]) as [qv|]; [|done].
        intros [= Hh _]. apply of_option_Ok, hits_of_length in Hh. rewrite Hh.
        match goal with |- (length (slice_to ?l _) <= _)%nat =>
          pose proof (slice_to_length l m Hm) end. fold m. lia.
    + unfold keyword_scan. destruct (mapM _ (chunks t1)) as [marked|]; [|done].
      intros [= <- _]. by apply slice_to_length.
Qed.

Lemma count_hits_le E qs : search_within_k E -> forall t c t',
  count_hits E qs t = (Ok c, t') -> 0 <= c <= 3 * Z.of_nat (length qs).
Proof.
  intros Hfaiss. induction qs as [|q qs IH]; intros t c t' Hrun.
  - injection Hrun as <- _. simpl. lia.
  - cbn [count_hits] in Hrun.
    apply bind_Ok in Hrun as (results & t1 & Hr & Hrun).
    apply bind_Ok in Hrun as (later & t2 & Hlater & Hret).
    injection Hret as <- _. apply IH in Hlater.
    apply retrieve_length in Hr; [|done|lia]. cbn [length]. lia.
Qed.

Lemma collect_themes_sizes E qs : search_within_k E -> forall t ths t',
  collect_themes E qs t = (Ok ths, t') ->
  sublist (map theme_name ths) (map fst qs)
  /\ Forall (fun th => (1 <= count th <= 5)%nat
                       /\ length (examples th) = Nat.min 3 (count th)) ths.
Proof.
  intros Hfaiss. induction qs as [|[nm q] qs IH]; intros t ths t' Hrun.
  - injection Hrun as <- _. split; [done|constructor].
  - cbn [collect_themes] in Hrun.
    apply bind_Ok in Hrun as (results & t1 & Hr & Hrun).
    apply bind_Ok in Hrun as (later & t2 & Hlater & Hret).
    injection Hret as <- _. apply IH in Hlater as [Hsub Hall].
    apply retrieve_length in Hr; [|done|lia].
    destruct results as [|r results].
    + split; [by apply sublist_cons|done].
    + split; [by apply sublist_skip|]. constructor; [|done].
      cbn [count examples]. rewrite length_take. cbn [length] in *. lia.
Qed.

Lemma collect_risks_evidence ths names :
  Forall (fun th => length (examples th) = Nat.min 3 (count th)) ths ->
  Forall (fun r => (1 <= length (evidence r) <= 3)%nat) (collect_risks ths names).
Proof.
  intros Hths. unfold collect_risks. apply Forall_forall. intros r Hr.
  apply list_elem_of_omap in Hr as (nm & _ & Hr).
  destruct (List.find _ ths) as [th|] eqn:Hf; [|done].
  destruct (0 <? count th)%nat eqn:Hc; [|done]. injection Hr as <-.
  apply find_some in Hf as [Hin _]. apply list_elem_of_In in Hin.
  rewrite Forall_forall in Hths. apply Hths in Hin.
  apply Nat.ltb_lt in Hc. cbn [evidence]. rewrite length_map. lia.
Qed.

(** X16. When a vector search returns at most the [k] neighbours it is
    asked for, the summary of [analyze] is bounded: at most five themes, in
    the order of the query table, each with one to five hits of which the
    first three are kept as examples; at most five forward-guidance hits;
    one to three chunk ids as evidence of a risk; and a sentiment computed
    from two counts between 0 and 12 (four queries, three hits each). *)
Theorem analyze_bounds (E : env) (ts : list transcript) (t : tool)
    (s : qualitative_summary) :
  search_within_k E ->
  (analyze E ts t).1 = Ok s ->
  sublist (map theme_name (themes s)) (map fst theme_queries)
  /\ (length (themes s) <= 5)%nat
  /\ Forall (fun th => (1 <= count th <= 5)%nat
                       /\ length (examples th) = Nat.min 3 (count th)) (themes s)
  /\ (length (forward_guidance s) <= 5)%nat
  /\ Forall (fun r => (1 <= length (evidence r) <= 3)%nat) (risks s)
  /\ (s = insufficient_data
      \/ exists p n, 0 <= p <= 12 /\ 0 <= n <= 12
                     /\ management_sentiment s = classify_sentiment p n).
Proof.
  intros Hfaiss Hfst. destruct (analyze E ts t) as [o t'] eqn:Hrun.
  cbn [fst] in Hfst. subst o. revert Hrun. unfold analyze.
  destruct (index_transcripts E ts t) as [[|] t0]; cbn [negb].
  2:{ intros [= <- _]. cbn [themes forward_guidance risks insufficient_data map length].
      split; [apply sublist_nil_l|]. split; [lia|]. split; [constructor|].
      split; [lia|]. split; [constructor|by left]. }
  intros Hrun.
  apply bind_Ok in Hrun as (ths & t1 & Hths & Hrun).
  apply bind_Ok in Hrun as (p & t2 & Hp & Hrun).
  apply bind_Ok in Hrun as (n & t3 & Hn & Hrun).
  apply bind_Ok in Hrun as (fg & t4 & Hfg & Hret).
  assert (Forall (fun r => (1 <= length (evidence r) <= 3)%nat)
                 (collect_risks ths risk_themes)) as Hrisks.
  { apply collect_risks_evidence. apply collect_themes_sizes in Hths as [_ Hall]; [|done].
    eapply Forall_impl; [exact Hall|]. by intros th [_ ?]. }
  set (rs := collect_risks ths risk_themes) in *. unfold ret in Hret.
  injection Hret as <- _. cbn [themes forward_guidance risks management_sentiment].
  apply collect_themes_sizes in Hths as [Hsub Hall]; [|done].
  apply count_hits_le in Hp, Hn; try done.
  apply retrieve_length in Hfg; [|done|lia].
  split; [done|]. split.
  { apply sublist_length in Hsub. by rewrite !length_map in Hsub. }
  split; [done|]. split; [simpl in Hfg; lia|]. split; [done|].
  right. exists p, n. change (length positive_queries) with 4%nat in Hp.
  change (length negative_queries) with 4%nat in Hn. repeat split; lia.
Qed.

Lemma analyze_bounds_witness :
  (length (themes Samples.sample_summary) <= 5)%nat
  /\ (length (forward_guidance Samples.sample_summary) <= 5)%nat.
Proof.
  assert (search_within_k Samples.sample_env) as Hk by (by intros stored q k ds ixs).
  assert ((analyze Samples.sample_env Samples.sample_transcripts Samples.fresh_tool).1
          = Ok Samples.sample_summary) as Hrun by (vm_compute; reflexivity).
  destruct (analyze_bounds Samples.sample_env Samples.sample_transcripts
              Samples.fresh_tool Samples.sample_summary Hk Hrun) as (_ & H1 & _ & H2 & _).
  exact (conj H1 H2).
Defined.

(** ** The sentiment over the counts that can occur *)

Lemma small_count (x : Z) : 0 <= x <= 12 ->
  x = 0 \/ x = 1 \/ x = 2 \/ x = 3 \/ x = 4 \/ x = 5 \/ x = 6 \/ x = 7 \/ x = 8
  \/ x = 9 \/ x = 10 \/ x = 11 \/ x = 12.
Proof. lia. Qed.

(** X17. For counts between 0 and 12, the ones [analyze] can reach, the
    sentiment is decided by integer comparisons: "positive" when
    2 * positive > 3 * negative, "cautiously optimistic" for a smaller
    majority, "negative" when 2 * negative > 3 * positive, "cautious" for a
    smaller majority, "neutral" at equal counts.  The score of a majority
    lies in (0.5, 0.8], of a minority in [-0.8, -0.5), and is 0.0 at equal
    counts: no score between -0.5 and 0.5 other than 0.0 is ever produced. *)
Theorem sentiment_by_counts (p n : Z) :
  0 <= p <= 12 -> 0 <= n <= 12 ->
  summary (classify_sentiment p n) = label_by_counts p n
  /\ (n < p -> ((0.5 <? score (classify_sentiment p n))
                && (score (classify_sentiment p n) <=? 0.8))%float = true)
  /\ (p < n -> ((score (classify_sentiment p n) <? -0.5)
                && (-0.8 <=? score (classify_sentiment p n)))%float = true)
  /\ (p = n -> score (classify_sentiment p n) = 0%float).
Proof.
  intros Hp Hn. apply small_count in Hp, Hn.
  repeat (destruct Hp as [->|Hp]); try subst p;
    repeat (destruct Hn as [->|Hn]); try subst n;
    (split; [vm_compute; reflexivity|]);
    (split; [intros H; first [lia | vm_compute; reflexivity]|]);
    (split; [intros H; first [lia | vm_compute; reflexivity]|]);
    intros H; first [lia | vm_compute; reflexivity].
Qed.

Lemma sentiment_by_counts_witness :
  summary (classify_sentiment 3 2) = "cautiously optimistic"%string
  /\ ((0.5 <? score (classify_sentiment 3 2))
      && (score (classify_sentiment 3 2) <=? 0.8))%float = true.
Proof.
  destruct (sentiment_by_counts 3 2 ltac:(lia) ltac:(lia)) as (H1 & H2 & _).
  exact (conj H1 (H2 ltac:(lia))).
Defined.

End AnalyzerBounds.

(* ===================================================================== *)
(** * The fallback embedder: one component per digest byte *)
(* ===================================================================== *)

Module FakeEmbedderMore.
Import PyStr FakeEmbedder.

Section Components.
Context {F : Type} {AF : Arith F}.

Lemma raw_vector_lookup e t i :
  (i < Z.to_nat (dim e))%nat ->
  raw_vector e t !! i = Some (component (byte_at (sha256 e t) i)).
Proof.
  intros Hi. unfold raw_vector. rewrite list_lookup_fmap, lookup_seq_lt by done.
  done.
Qed.

Lemma encode_one_lookup e t i :
  (i < Z.to_nat (dim e))%nat ->
  encode_one e t !! i
  = Some (if a_pos (norm_of (raw_vector e t))
          then a_div (component (byte_at (sha256 e t) i)) (norm_of (raw_vector e t))
          else component (byte_at (sha256 e t) i)).
Proof.
  intros Hi. unfold encode_one. destruct (a_pos _).
  - by rewrite list_lookup_fmap, raw_vector_lookup.
  - by apply raw_vector_lookup.
Qed.

End Components.

(** X18. In whatever arithmetic it runs, component [i] of a fallback
    embedding is computed from byte [i mod len(digest)] of the digest alone
    (and the common norm): two positions that agree modulo the digest
    length carry the same number, so a 64-dimensional vector made from a
    32-byte digest is its first half written twice.  A dimension of zero
    or less gives the empty vector. *)
Theorem fake_embedding_repeats (F : Type) (AF : Arith F) (e : embedder) (t : pystr) :
  (forall i j, (i < Z.to_nat (dim e))%nat -> (j < Z.to_nat (dim e))%nat ->
     (i mod length (sha256 e t) = j mod length (sha256 e t))%nat ->
     encode_one (F := F) e t !! i = encode_one (F := F) e t !! j)
  /\ (length (sha256 e t) = 32%nat -> dim e = 64 ->
      drop 32 (encode_one (F := F) e t) = take 32 (encode_one (F := F) e t))
  /\ (dim e <= 0 -> encode_one (F := F) e t = []).
Proof.
  assert (forall i j, (i < Z.to_nat (dim e))%nat -> (j < Z.to_nat (dim e))%nat ->
            (i mod length (sha256 e t) = j mod length (sha256 e t))%nat ->
            encode_one (F := F) e t !! i = encode_one (F := F) e t !! j) as Hper.
  { intros i j Hi Hj Hmod. rewrite !encode_one_lookup by done.
    unfold byte_at. by rewrite Hmod. }
  split; [exact Hper|]. split.
  - intros Hlen Hdim. apply list_eq. intros i.
    rewrite lookup_drop.
    destruct (decide (i < 32)%nat) as [Hi|Hi].
    + rewrite lookup_take_lt by done. apply Hper; rewrite ?Hdim, ?Hlen; try lia.
      replace (32 + i)%nat with (i + 1 * 32)%nat by lia. by rewrite Nat.Div0.mod_add.
    + rewrite lookup_take_ge by lia. apply lookup_ge_None.
      rewrite FakeEmbedderTheorems.encode_one_length, Hdim. lia.
  - intros Hdim. apply length_zero_iff_nil.
    rewrite FakeEmbedderTheorems.encode_one_length. lia.
Qed.

End FakeEmbedderMore.

(* ===================================================================== *)
(** * [extract_metrics_from_text]: the shape of the result *)
(* ===================================================================== *)

Module TextMetricsProps.
Import PyStr Regex NumberParsing ExtractorBackends TextMetrics TextMetricsSpec.
Import RegexSpec RegexProps NumberParsingProps.

(** ** Lazy loops *)

Lemma no_group_lazy_then g x rest n :
  no_group g x = true -> no_group g rest = true ->
  no_group g (lazy_then n x rest) = true.
Proof.
  intros Hx Hr. induction n as [|n IH]; cbn [lazy_then no_group]; [done|].
  by rewrite Hx, Hr, IH.
Qed.

Lemma starved_lazy_then text x rest n :
  starved text rest = true -> starved text (lazy_then n x rest) = true.
Proof.
  intros Hr. induction n as [|n IH]; cbn [lazy_then starved]; [done|].
  by rewrite Hr, IH, orb_true_r.
Qed.

Lemma search_from_no_group w g r : no_group g r = true ->
  forall s prev m, search_from w r prev s = Some m -> group m g = None.
Proof.
  intros Hg.
  assert (forall st m, caps st = [] ->
            run w r st (fun st' => Some (caps st')) = Some m -> group m g = None) as Hrun.
  { intros st m Hst Hm.
    apply (run_keeps_group w g r Hg) in Hm as (st' & [= <-] & Hgr).
    by rewrite Hgr, Hst. }
  induction s as [|c s IH]; intros prev m; cbn [search_from].
  - destruct (run _ _ _ _) as [m'|] eqn:E; [|done]. intros [= <-].
    by apply (fun H => Hrun _ _ H E).
  - destruct (run _ _ _ _) as [m'|] eqn:E.
    + intros [= <-]. by apply (fun H => Hrun _ _ H E).
    + apply IH.
Qed.

(** ** The loop over the patterns *)

Section Loop.
Variable py : interpreter.
Variable uni_decimal : N -> bool.
Variable float_of_str : pystr -> option float.
Variable text : pystr.

Local Abbreviation turn := (found_turn py float_of_str text).
Local Abbreviation entry_of := (turn_entry py uni_decimal float_of_str text).

Lemma found_turn_entry found kp :
  turn found kp = match entry_of kp with
                  | Some e => <[kp.1 := e]> found
                  | None => found
                  end.
Proof.
  unfold found_turn, turn_entry.
  destruct (search _ kp.2 text) as [m|]; [|done]. cbn [mbind option_bind].
  destruct (group m 1 ≫= _) as [val|]; [|done]. cbn [mbind option_bind].
  by destruct (negb _).
Qed.

Lemma fold_found_lookup (kps : list (string * regex)) : NoDup kps.*1 ->
  forall acc k,
  (k ∉ kps.*1 -> fold_left turn kps acc !! k = acc !! k)
  /\ (forall p, (k, p) ∈ kps ->
        fold_left turn kps acc !! k
        = match entry_of (k, p) with Some e => Some e | None => acc !! k end).
Proof.
  induction kps as [|[k0 p0] kps IH]; intros Hnd acc k.
  { split; [done|]. intros p Hp. by apply elem_of_nil in Hp. }
  cbn [fmap list_fmap fst] in Hnd. apply NoDup_cons in Hnd as [Hk0 Hnd].
  cbn [fold_left]. destruct (IH Hnd (turn acc (k0, p0)) k) as [Hout Hin].
  assert (k <> k0 -> turn acc (k0, p0) !! k = acc !! k) as Hother.
  { intros Hne. rewrite found_turn_entry. destruct (entry_of (k0, p0)); [|done].
    by rewrite lookup_insert_ne. }
  split.
  - intros Hk. cbn [fmap list_fmap fst] in Hk. apply not_elem_of_cons in Hk as [Hne Hk].
    rewrite Hout by done. by apply Hother.
  - intros p Hp. apply elem_of_cons in Hp as [[= -> ->]|Hp].
    + rewrite Hout by done. rewrite found_turn_entry.
      destruct (entry_of (k0, p0)); [by rewrite lookup_insert_eq|done].
    + rewrite (Hin p Hp). destruct (entry_of (k, p)); [done|].
      apply Hother. intros ->. apply Hk0. apply list_elem_of_fmap. by exists (k0, p).
Qed.

End Loop.

End TextMetricsProps.

(* ===================================================================== *)
(** * What a match consists of *)
(* ===================================================================== *)

Module RegexDenProps.
Import PyStr Regex RegexDen.

Lemma star_loop_den {A : Type} (body : mstate -> (mstate -> option A) -> option A) r0 :
  (forall st k a, body st k = Some a ->
     exists st' xs cs, k st' = Some a /\ rest st = xs ++ rest st'
                       /\ caps st' = cs ++ caps st /\ den r0 xs cs) ->
  forall fuel st k a, star_loop body k fuel st = Some a ->
     exists st' parts, k st' = Some a /\ rest st = concat parts.*1 ++ rest st'
                       /\ caps st' = concat (rev parts.*2) ++ caps st
                       /\ Forall (fun p => den r0 p.1 p.2) parts.
Proof.
  intros Hbody. induction fuel as [|f IH]; intros st k a; cbn [star_loop].
  - intros Hk. by exists st, [].
  - destruct (body st _) as [a'|] eqn:E.
    + intros [= <-]. apply Hbody in E as (st1 & xs & cs & E1 & Hr & Hc & Hd).
      destruct (_ <? _)%nat; [|done].
      apply IH in E1 as (st' & parts & Hk & Hr' & Hc' & Hp).
      exists st', ((xs, cs) :: parts). split; [done|].
      cbn [fmap list_fmap fst snd concat rev]. split; [|split].
      * by rewrite Hr, Hr', app_assoc.
      * rewrite Hc', Hc, concat_app. cbn [concat]. by rewrite app_nil_r, app_assoc.
      * by constructor.
    + intros Hk. by exists st, [].
Qed.

(** The matcher is sound: where the continuation takes over, the pattern
    has read a string it matches and pushed the captures of that match. *)
Lemma run_den w r : forall (A : Type) st (k : mstate -> option A) a,
  run w r st k = Some a ->
  exists st' xs cs, k st' = Some a /\ rest st = xs ++ rest st'
                    /\ caps st' = cs ++ caps st /\ den r xs cs.
Proof.
  induction r as [|p|r1 IH1 r2 IH2|r1 IH1 r2 IH2|r0 IH|i r0 IH|];
    cbn [run den]; intros A st k a Hrun.
  - by exists st, [], [].
  - destruct st as [b [|c tl] cs]; cbn [rest caps] in *; [done|].
    destruct (p c) eqn:Hp; [|done].
    eexists _, [c], []. split; [exact Hrun|]. cbn [rest caps]. eauto 6.
  - apply IH1 in Hrun as (st1 & x1 & c1 & E1 & Hr1 & Hc1 & Hd1).
    apply IH2 in E1 as (st2 & x2 & c2 & E2 & Hr2 & Hc2 & Hd2).
    exists st2, (x1 ++ x2), (c2 ++ c1). split; [done|]. split; [|split].
    + by rewrite Hr1, Hr2, app_assoc.
    + by rewrite Hc2, Hc1, app_assoc.
    + by exists x1, x2, c1, c2.
  - destruct (run w r1 st k) as [a'|] eqn:E.
    + injection Hrun as <-. apply IH1 in E as (st' & xs & cs & ?). exists st', xs, cs. tauto.
    + apply IH2 in Hrun as (st' & xs & cs & ?). exists st', xs, cs. tauto.
  - eapply (star_loop_den _ r0) in Hrun as (st' & parts & Hk & Hr & Hc & Hp);
      [|intros; by eapply IH].
    exists st', (concat parts.*1), (concat (rev parts.*2)). eauto 8.
  - apply IH in Hrun as (st1 & xs & cs & E1 & Hr & Hc & Hd).
    exists (set_cap i st st1), xs, ((i, xs) :: cs). split; [done|].
    unfold set_cap. cbn [rest caps]. split; [done|]. split; [|by exists cs].
    rewrite Hc, Hr, length_app, Nat.add_sub, take_app_length. done.
  - destruct (at_boundary _ _ _); [|done]. by exists st, [], [].
Qed.

(** [re.search]: the match is a piece of the text. *)
Lemma search_from_den w r : forall s prev m,
  search_from w r prev s = Some m ->
  exists pre xs post, s = pre ++ xs ++ post /\ den r xs m.
Proof.
  assert (forall prev s m,
    run w r (MState prev s []) (fun st => Some (caps st)) = Some m ->
    exists pre xs post, s = pre ++ xs ++ post /\ den r xs m) as Hrun.
  { intros prev s m E.
    apply run_den in E as (st' & xs & cs & [= <-] & Hr & Hc & Hd).
    cbn [rest caps] in *. exists [], xs, (rest st'). rewrite Hc, app_nil_r. done. }
  induction s as [|c s IH]; intros prev m; cbn [search_from].
  - destruct (run _ _ _ _) as [m'|] eqn:E; [|done]. intros [= <-]. by eapply Hrun.
  - destruct (run _ _ _ _) as [m'|] eqn:E.
    + intros [= <-]. by eapply Hrun.
    + intros Hs. apply IH in Hs as (pre & xs & post & -> & Hd).
      by exists (c :: pre), xs, post.
Qed.

Lemma den_star_sym p xs cs :
  den (Star (Sym p)) xs cs -> cs = [] /\ forallb p xs = true.
Proof.
  cbn [den]. intros (parts & -> & -> & Hp).
  induction Hp as [|[x c] parts Hd _ [IH1 IH2]]; [done|].
  cbn [den fst snd] in Hd. destruct Hd as (-> & ch & -> & Hch).
  cbn [fmap list_fmap fst snd concat rev]. rewrite concat_app. cbn [concat].
  rewrite app_nil_r, IH1. cbn [forallb app]. by rewrite Hch, IH2.
Qed.

Lemma den_plus_sym p xs cs :
  den (Plus (Sym p)) xs cs -> cs = [] /\ xs <> [] /\ forallb p xs = true.
Proof.
  unfold Plus. cbn [den]. intros (x1 & x2 & c1 & c2 & -> & -> & (-> & ch & -> & Hch) & Hs).
  apply den_star_sym in Hs as [-> Hs]. cbn [app forallb]. by rewrite Hch, Hs.
Qed.

Lemma den_opt r xs cs : den (Opt r) xs cs -> den r xs cs \/ (xs = [] /\ cs = []).
Proof. unfold Opt. cbn [den]. tauto. Qed.

End RegexDenProps.

(* ===================================================================== *)
(** * [extract_metrics_from_text]: what is found, and where *)
(* ===================================================================== *)

Module TextMetricsTheorems.
Import PyStr Regex NumberParsing ExtractorBackends TextMetrics TextMetricsSpec.
Import RegexSpec RegexProps RegexDen RegexDenProps NumberParsingProps NumberParsingMore.
Import TextMetricsProps.

(** ** The pieces of the patterns *)

Section Pieces.
Variable py : interpreter.
Variable uni_decimal : N -> bool.

Lemma den_word s : forall xs cs,
  den (word py s) xs cs -> cs = [] /\ ci_literal py s xs.
Proof.
  induction s as [|c s IH]; intros xs cs; cbn [word den].
  - intros [-> ->]. split; [done|constructor].
  - intros (x1 & x2 & c1 & c2 & -> & -> & H1 & H2).
    apply IH in H2 as [-> H2].
    assert (c1 = [] /\ exists ch, x1 = [ch]
            /\ if is_ascii_lower c then ci_eq py ch c = true else ch = c) as (-> & ch & -> & Hch).
    { destruct (is_ascii_lower c); cbn [den] in H1; destruct H1 as (-> & ch & -> & Hch);
        (split; [done|]); exists ch; (split; [done|]); [done|].
      by apply N.eqb_eq in Hch. }
    split; [done|]. by constructor.
Qed.

Lemma den_alts rs : forall xs cs,
  den (alts rs) xs cs -> exists r, r ∈ rs /\ den r xs cs.
Proof.
  induction rs as [|r rs IH]; intros xs cs; cbn [alts].
  - cbn [den]. by intros (_ & ? & _ & ?).
  - destruct rs as [|r' rs].
    + intros H. exists r. split; [by left|done].
    + cbn [den]. intros [H|H].
      * exists r. split; [by left|done].
      * apply IH in H as (r0 & Hr0 & H). exists r0. split; [by right|done].
Qed.

Lemma den_words ws xs cs :
  den (words py ws) xs cs ->
  cs = [] /\ exists l, l ∈ ws /\ ci_literal py (u l) xs.
Proof.
  intros H. apply den_alts in H as (r & Hr & H).
  apply list_elem_of_In, in_map_iff in Hr as (l & <- & Hl).
  apply den_word in H as [-> H]. split; [done|].
  exists l. split; [by apply list_elem_of_In|done].
Qed.

Lemma den_lazy_then p rest n : forall xs cs,
  den (lazy_then n (Sym p) rest) xs cs ->
  exists gap t, xs = gap ++ t /\ forallb p gap = true /\ den rest t cs.
Proof.
  induction n as [|n IH]; intros xs cs; cbn [lazy_then].
  - intros H. by exists [], xs.
  - cbn [den]. intros [H|(x1 & x2 & c1 & c2 & -> & -> & (-> & ch & -> & Hch) & H)].
    + by exists [], xs.
    + apply IH in H as (gap & t & -> & Hgap & H).
      exists (ch :: gap), t. rewrite app_nil_r. cbn [forallb]. by rewrite Hch, Hgap.
Qed.

Lemma any_gap gap :
  forallb (fun c => negb (c =? 10)%N) gap = true -> Forall (fun c => c <> 10%N) gap.
Proof.
  intros H. apply Forall_forall. intros c Hc. rewrite forallb_forall in H.
  apply list_elem_of_In, H, negb_true_iff in Hc. by apply N.eqb_neq.
Qed.

(** A label, the rest of the line lazily, and the tail of the pattern. *)
Lemma den_labelled ws tl n xs cs :
  den (Cat (words py ws) (lazy_then n any tl)) xs cs ->
  exists lab gap t l,
    xs = lab ++ gap ++ t /\ l ∈ ws /\ ci_literal py (u l) lab
    /\ Forall (fun c => c <> 10%N) gap /\ den tl t cs.
Proof.
  cbn [den]. intros (lab & x2 & c1 & c2 & -> & -> & H1 & H2).
  apply den_words in H1 as (-> & l & Hl & Hlab).
  apply den_lazy_then in H2 as (gap & t & -> & Hgap & H2).
  exists lab, gap, t, l. rewrite app_nil_r. apply any_gap in Hgap. done.
Qed.

Lemma den_bounded_label ws tl n xs cs :
  den (Cat WordB (Cat (words py ws) (Cat WordB (lazy_then n any tl)))) xs cs ->
  exists lab gap t l,
    xs = lab ++ gap ++ t /\ l ∈ ws /\ ci_literal py (u l) lab
    /\ Forall (fun c => c <> 10%N) gap /\ den tl t cs.
Proof.
  cbn [den]. intros (? & x2 & ? & c2 & -> & -> & [-> ->] & lab & x3 & c1 & c3
                     & -> & -> & H1 & ? & x4 & ? & c4 & -> & -> & [-> ->] & H2).
  apply den_words in H1 as (-> & l & Hl & Hlab).
  apply den_lazy_then in H2 as (gap & t & -> & Hgap & H2).
  exists lab, gap, t, l. rewrite !app_nil_r. cbn [app]. apply any_gap in Hgap. done.
Qed.

(** [([\d,\.]+)\s*(u1|u2|...)?] *)
Lemma den_amount units t cs :
  den (amount_with_unit py uni_decimal units) t cs ->
  exists raw sp (un : option pystr),
    t = raw ++ sp ++ default [] un
    /\ raw <> [] /\ forallb (amount_char uni_decimal) raw = true
    /\ forallb py_isspace sp = true
    /\ group cs 1 = Some raw /\ group cs 2 = un
    /\ (forall x, un = Some x -> exists l, l ∈ units /\ ci_literal py (u l) x).
Proof.
  unfold amount_with_unit. cbn [den].
  intros (raw & x2 & c1 & c2 & -> & -> & (c0 & -> & H1) & sp & x3 & c3 & c4
          & -> & -> & H2 & H3).
  apply den_plus_sym in H1 as (-> & Hne & Hraw).
  apply den_star_sym in H2 as (-> & Hsp).
  apply den_opt in H3 as [(c5 & -> & H3)|[-> ->]].
  - apply den_words in H3 as (-> & l & Hl & Hx).
    exists raw, sp, (Some x3). repeat split; try done.
    intros x [= <-]. eauto.
  - exists raw, sp, None. repeat split; done.
Qed.

(** [([\d\.]+)\s*%] *)
Lemma den_percentage t cs :
  den (percentage uni_decimal) t cs ->
  exists raw sp,
    t = raw ++ sp ++ [chr "%"]
    /\ raw <> [] /\ forallb (figure_char uni_decimal) raw = true
    /\ forallb py_isspace sp = true
    /\ group cs 1 = Some raw /\ group cs 2 = None.
Proof.
  unfold percentage. cbn [den].
  intros (raw & x2 & c1 & c2 & -> & -> & (c0 & -> & H1) & sp & x3 & c3 & c4
          & -> & -> & H2 & -> & ch & -> & Hch).
  apply den_plus_sym in H1 as (-> & Hne & Hraw).
  apply den_star_sym in H2 as (-> & Hsp).
  apply N.eqb_eq in Hch as <-.
  exists raw, sp. repeat split; done.
Qed.

(** [([\d\.]+)] *)
Lemma den_figure t cs :
  den (figure uni_decimal) t cs ->
  t <> [] /\ forallb (figure_char uni_decimal) t = true
  /\ group cs 1 = Some t /\ group cs 2 = None.
Proof.
  unfold figure. cbn [den]. intros (c0 & -> & H1).
  apply den_plus_sym in H1 as (-> & Hne & Hraw). repeat split; done.
Qed.

Lemma figure_is_amount raw :
  forallb (figure_char uni_decimal) raw = true ->
  forallb (amount_char uni_decimal) raw = true.
Proof.
  rewrite !forallb_forall. intros H c Hc. apply H in Hc.
  unfold figure_char, amount_char in *.
  apply orb_prop in Hc as [->| ->]; [done|by rewrite orb_true_r].
Qed.

End Pieces.

(** ** The result of the loop *)

Ltac pick_pattern Hin :=
  repeat (apply elem_of_cons in Hin as [Hin|Hin]);
  [..|by apply elem_of_nil in Hin];
  try discriminate Hin; injection Hin; clear Hin; intros; subst.

Section Results.
Variable py : interpreter.
Variable uni_decimal : N -> bool.
Variable float_of_str : pystr -> option float.

Local Abbreviation w := (is_word (uni_alnum py)).
Local Abbreviation metrics_of text :=
  (tm_metrics (extract_metrics_from_text py uni_decimal float_of_str text)).

Lemma pattern_keys_nodup : NoDup pattern_keys.
Proof. by apply (bool_decide_unpack _). Qed.

Lemma found_lookup text k e :
  metrics_of text !! k = Some e ->
  exists p, (k, p) ∈ patterns py uni_decimal (length text)
            /\ turn_entry py uni_decimal float_of_str text (k, p) = Some e.
Proof.
  unfold extract_metrics_from_text. cbn [tm_metrics].
  set (kps := patterns py uni_decimal (length text)).
  assert (NoDup kps.*1) as Hnd by apply pattern_keys_nodup.
  destruct (fold_found_lookup py uni_decimal float_of_str text kps Hnd ∅ k) as [Hout Hin].
  destruct (decide (k ∈ kps.*1)) as [Hk|Hk].
  - apply list_elem_of_fmap in Hk as ([k' p] & -> & Hp). cbn [fst] in *.
    rewrite (Hin p Hp). exists p. split; [done|].
    destruct (turn_entry _ _ _ _ _); [done|by rewrite lookup_empty in H].
  - rewrite (Hout Hk), lookup_empty. done.
Qed.

Lemma entry_inv text k p e :
  turn_entry py uni_decimal float_of_str text (k, p) = Some e ->
  exists m raw val,
    search_from w p None text = Some m /\ group m 1 = Some raw
    /\ value_of_raw py float_of_str raw = Some val /\ PrimFloat.is_nan val = false
    /\ e = Found (scaled py k (group m 2) val) (unit_of k) 0.6.
Proof.
  unfold turn_entry, search. cbn [fst snd].
  destruct (search_from _ _ _ _) as [m|] eqn:Hs; [|done]. cbn [mbind option_bind].
  destruct (group m 1) as [raw|] eqn:Hg; [|done]. cbn [mbind option_bind].
  destruct (value_of_raw _ _ raw) as [val|] eqn:Hv; [|done]. cbn [mbind option_bind].
  destruct (PrimFloat.is_nan val) eqn:Hnan; [done|]. cbn [negb].
  intros [= <-]. by exists m, raw, val.
Qed.

Lemma scaled_cases k un val :
  scaled py k un val = val
  \/ (scaled py k un val = (val / 10)%float /\ (k ∉ unscaled_keys) /\ un <> None).
Proof.
  unfold scaled.
  destruct (contains _ _) eqn:Hc; [|by left].
  destruct (bool_decide (k ∈ unscaled_keys)) eqn:Hk; [by left|].
  right. apply bool_decide_eq_false in Hk. split; [done|]. split; [done|].
  by intros ->.
Qed.

Lemma amount_or_eps k :
  k ∈ pattern_keys -> k ∉ unscaled_keys -> k ∈ amount_keys \/ k = "eps"%string.
Proof.
  intros Hk Hn. unfold pattern_keys in Hk.
  repeat (apply elem_of_cons in Hk as [->|Hk]);
    try (left; by apply (bool_decide_unpack _));
    try (by right);
    try (exfalso; apply Hn; by apply (bool_decide_unpack _)).
  by apply elem_of_nil in Hk.
Qed.

Lemma group_app_some (c2 c1 : list (nat * pystr)) g x :
  group c2 g = Some x -> group (c2 ++ c1) g = Some x.
Proof.
  induction c2 as [|[j s] c2 IH]; cbn [group app]; [done|].
  destruct (g =? j)%nat; [done|exact IH].
Qed.

(** Group 1 of every pattern is a run of [[\d,\.]]. *)
Lemma captured_amount n k p xs m raw :
  (k, p) ∈ patterns py uni_decimal n -> den p xs m -> group m 1 = Some raw ->
  forallb (amount_char uni_decimal) raw = true.
Proof.
  intros Hin Hd Hg. unfold patterns in Hin. pick_pattern Hin.
  1,2,6,8: (apply den_labelled in Hd as (lab & gap & t & l & -> & _ & _ & _ & Hd);
    apply den_amount in Hd as (raw' & sp & un & -> & _ & Hraw & _ & Hg1 & _);
    rewrite Hg1 in Hg; by injection Hg as <-).
  1,2,4: (apply den_labelled in Hd as (lab & gap & t & l & -> & _ & _ & _ & Hd);
    apply den_percentage in Hd as (raw' & sp & -> & _ & Hraw & _ & Hg1 & _);
    rewrite Hg1 in Hg; injection Hg as <-; by apply figure_is_amount).
  - apply den_bounded_label in Hd as (lab & gap & t & l & -> & _ & _ & _ & Hd).
    apply den_figure in Hd as (_ & Hraw & Hg1 & _).
    rewrite Hg1 in Hg. injection Hg as <-. by apply figure_is_amount.
  - cbn [den] in Hd. destruct Hd as (x1 & x2 & c1 & c2 & -> & -> & _ & Hd).
    apply den_lazy_then in Hd as (gap & t & -> & _ & Hd).
    apply den_figure in Hd as (_ & Hraw & Hg1 & _).
    rewrite (group_app_some _ _ _ _ Hg1) in Hg. injection Hg as <-.
    by apply figure_is_amount.
Qed.

Lemma size_pattern_keys {A : Type} (m : gmap string A) :
  (forall k e, m !! k = Some e -> k ∈ pattern_keys) -> (size m <= 9)%nat.
Proof.
  intros Hm. rewrite <- size_dom.
  assert (dom m ⊆ (list_to_set pattern_keys : gset string)) as Hsub.
  { intros k Hk. apply elem_of_dom in Hk as [e He]. apply elem_of_list_to_set. eauto. }
  apply subseteq_size in Hsub. etrans; [exact Hsub|].
  rewrite size_list_to_set; [done|]. apply pattern_keys_nodup.
Qed.


Lemma parse_digitless text :
  forallb (fun c => negb (is_ascii_digit c)) text = true ->
  parse_inr_number w text = None.
Proof.
  intros H. destruct (pattern234_need_digit text H) as (S2 & S3 & S4).
  unfold parse_inr_number. destruct text as [|c0 t0] eqn:Et; [done|]. rewrite <- Et in *.
  assert (Forall (fun c => is_ascii_digit c = false) text) as Hnd.
  { apply Forall_forall. intros c Hc. rewrite forallb_forall in H.
    by apply list_elem_of_In, H, negb_true_iff in Hc. }
  destruct (search w pattern1 text) as [m|] eqn:E1.
  { by eapply float_of_group1_needs_digit. }
  by rewrite (search_starved w text pattern2 S2), (search_starved w text pattern3 S3),
    (search_starved w text pattern4 S4).
Qed.

Lemma digitless_value raw :
  (forall s, forallb (is_char (chr ".")) s = true -> float_of_str s = None) ->
  Forall (fun c => is_decimal uni_decimal c = false) raw ->
  forallb (amount_char uni_decimal) raw = true ->
  value_of_raw py float_of_str raw = None.
Proof.
  intros Hfloat Hnd Hraw. unfold value_of_raw.
  rewrite Forall_forall in Hnd. rewrite forallb_forall in Hraw.
  rewrite parse_digitless.
  - apply Hfloat. apply forallb_forall. intros c Hc.
    apply list_elem_of_In in Hc. unfold remove_char in Hc.
    apply list_elem_of_filter in Hc as [Hcomma Hc].
    pose proof (Hnd c Hc) as Hd. apply list_elem_of_In, Hraw in Hc.
    unfold amount_char in Hc. rewrite Hd in Hc. cbn [orb] in Hc.
    apply negb_prop_elim, Is_true_false in Hcomma. rewrite Hcomma in Hc. cbn [orb] in Hc.
    unfold is_char. by rewrite N.eqb_sym.
  - apply forallb_forall. intros c Hc. apply list_elem_of_In, Hnd in Hc.
    unfold is_decimal in Hc. destruct (is_ascii_digit c) eqn:Hdig; [|done].
    unfold is_ascii_digit in Hdig. apply andb_prop in Hdig as [_ Hle].
    apply N.leb_le in Hle. assert ((c <? 128)%N = true) as Hlt by (apply N.ltb_lt; lia).
    by rewrite Hlt in Hc.
Qed.

(** X20. A text without a decimal digit gives no metric, when [float]
    refuses the strings of dots (as it does): the patterns may capture
    commas and dots, but neither way of reading them gives a number. *)
Theorem digitless_text_has_no_metrics (text : pystr) :
  (forall s, forallb (is_char (chr ".")) s = true -> float_of_str s = None) ->
  forallb (fun c => negb (is_decimal uni_decimal c)) text = true ->
  extract_metrics_from_text py uni_decimal float_of_str text = TextMetricsResult ∅ 0.
Proof.
  intros Hfloat Htext.
  assert (metrics_of text = ∅) as Hempty.
  { apply map_empty. intros k.
    destruct (metrics_of text !! k) as [e|] eqn:Hlook; [exfalso|done].
    apply found_lookup in Hlook as (p & Hin & He).
    apply entry_inv in He as (m & raw & val & Hs & Hg & Hv & _).
    assert (Forall (fun c => is_decimal uni_decimal c = false) text) as Hnd.
    { apply Forall_forall. intros c Hc. rewrite forallb_forall in Htext.
      by apply list_elem_of_In, Htext, negb_true_iff in Hc. }
    pose proof (search_from_captures w _ p text None m Hnd Hs) as Hcaps.
    pose proof (group_captured _ m 1 raw Hcaps Hg) as Hraw.
    apply search_from_den in Hs as (pre & xs & post & _ & Hd).
    pose proof (captured_amount _ k p xs m raw Hin Hd Hg) as Hamount.
    by rewrite (digitless_value raw Hfloat Hraw Hamount) in Hv. }
  unfold extract_metrics_from_text in *. cbn [tm_metrics] in Hempty.
  rewrite Hempty. by rewrite map_size_empty.
Qed.

Lemma scaled_either k un val :
  scaled py k un val = val \/ scaled py k un val = (val / 10)%float.
Proof. unfold scaled. destruct (_ && _); auto. Qed.

(** X21. Where a metric's value is read: a label of the key (in any
    case) stands in the text, and on the same line after it a run of
    digits, commas and dots (digits and dots for the margins, ROE and EPS;
    for the margins and ROE followed by a percent sign) that is the number
    read, possibly divided by ten. *)
Theorem text_metric_provenance (text : pystr) (k : string) (ws : list string)
    (e : found_entry) :
  (k, ws) ∈ label_words ->
  metrics_of text !! k = Some e ->
  exists pre lab gap raw post l val,
    text = pre ++ lab ++ gap ++ raw ++ post
    /\ l ∈ ws /\ ci_literal py (u l) lab
    /\ Forall (fun c => c <> 10%N) gap
    /\ raw <> [] /\ forallb (amount_char uni_decimal) raw = true
    /\ (k ∉ amount_keys -> forallb (figure_char uni_decimal) raw = true)
    /\ (k ∈ percent_keys ->
        exists sp post', post = sp ++ chr "%" :: post' /\ forallb py_isspace sp = true)
    /\ value_of_raw py float_of_str raw = Some val
    /\ (f_value e = val \/ f_value e = (val / 10)%float).
Proof.
  intros Hk Hlook. apply found_lookup in Hlook as (p & Hin & He).
  apply entry_inv in He as (m & raw & val & Hs & Hg & Hv & _ & ->).
  apply search_from_den in Hs as (pre & xs & post & Htext & Hd).
  cbn [f_value]. pose proof (scaled_either k (group m 2) val) as Hscaled.
  revert Hin. generalize (length text). intros n Hin. subst text.
  unfold label_words in Hk.
  repeat (apply elem_of_cons in Hk as [Hk|Hk]); [..|by apply elem_of_nil in Hk];
    injection Hk as -> ->; unfold patterns in Hin; pick_pattern Hin.
  1,2,6,8: (apply den_labelled in Hd as (lab & gap & t & l & -> & Hl & Hlab & Hgap & Hd);
    apply den_amount in Hd as (raw' & sp & un & -> & Hne & Hraw & _ & Hg1 & _);
    rewrite Hg1 in Hg; injection Hg as <-;
    exists pre, lab, gap, raw', ((sp ++ default [] un) ++ post), l, val;
    split; [by rewrite <- !app_assoc|];
    repeat (split; [done|]); split;
      [intros Hn; exfalso; apply Hn; by apply (bool_decide_unpack _)|];
    split; [|done];
    intros Hp; exfalso; revert Hp; by apply (bool_decide_unpack _)).
  1,2,4: (apply den_labelled in Hd as (lab & gap & t & l & -> & Hl & Hlab & Hgap & Hd);
    apply den_percentage in Hd as (raw' & sp & -> & Hne & Hraw & Hsp & Hg1 & _);
    rewrite Hg1 in Hg; injection Hg as <-;
    exists pre, lab, gap, raw', ((sp ++ [chr "%"]) ++ post), l, val;
    split; [by rewrite <- !app_assoc|];
    repeat (split; [done|]); split; [by apply figure_is_amount|];
    split; [done|]; split; [|done];
    intros _; exists sp, post; split; [by rewrite <- app_assoc|done]).
  apply den_bounded_label in Hd as (lab & gap & t & l & -> & Hl & Hlab & Hgap & Hd).
  apply den_figure in Hd as (Hne & Hraw & Hg1 & _).
  rewrite Hg1 in Hg. injection Hg as <-.
  exists pre, lab, gap, t, post, l, val.
  split; [by rewrite <- !app_assoc|].
  repeat (split; [done|]). split; [by apply figure_is_amount|].
  split; [done|]. split; [|done].
  intros Hp. exfalso. revert Hp. by apply (bool_decide_unpack _).
Qed.

End Results.

(** ** On ASCII tables *)

Lemma ci_ascii_lower s xs :
  forallb (fun c => negb (is_ascii_upper c)) s = true ->
  ci_literal ascii_interpreter s xs -> map ascii_lower xs = s.
Proof.
  intros Hs Hci. induction Hci as [|c x s xs Hcx _ IH]; [done|].
  cbn [forallb] in Hs. apply andb_prop in Hs as [Hc Hs]. apply negb_true_iff in Hc.
  cbn [map]. rewrite (IH Hs). f_equal.
  assert (ascii_lower c = c) as Hlow by (unfold ascii_lower; by rewrite Hc).
  destruct (is_ascii_lower c).
  - cbn [ci_eq ascii_interpreter] in Hcx. apply N.eqb_eq in Hcx. by rewrite Hcx.
  - by rewrite Hcx.
Qed.

Lemma ascii_unit_marker units x l :
  l ∈ units ->
  Forall (fun l => u l <> [] /\ forallb (fun c => negb (is_ascii_upper c)) (u l) = true)
         units ->
  ci_literal ascii_interpreter (u l) x ->
  unit_marker ascii_interpreter (Some x) = u l /\ map ascii_lower x = u l.
Proof.
  intros Hl Hunits Hci. rewrite Forall_forall in Hunits.
  destruct (Hunits l Hl) as [Hne Hup].
  pose proof (ci_ascii_lower _ _ Hup Hci) as Hlow. split; [|done].
  destruct x as [|c x]; [by cbn [map] in Hlow|]. exact Hlow.
Qed.

Lemma ascii_scale_condition n k p xs m :
  (k, p) ∈ patterns ascii_interpreter (fun _ => false) n -> den p xs m ->
  contains (u "million") (unit_marker ascii_interpreter (group m 2))
    && negb (bool_decide (k ∈ unscaled_keys))
  = bool_decide (k ∈ ["total_revenue"; "net_profit"]%string)
    && bool_decide (map ascii_lower <$> group m 2 = Some (u "million")).
Proof.
  intros Hin Hd. unfold patterns in Hin. pick_pattern Hin.
  1,2,6,8: (apply den_labelled in Hd as (lab & gap & t & l & _ & _ & _ & _ & Hd);
    apply den_amount in Hd as (raw & sp & [x|] & _ & _ & _ & _ & _ & -> & Hun);
    [|by vm_compute];
    destruct (Hun x eq_refl) as (l0 & Hl0 & Hci);
    eapply ascii_unit_marker in Hci as [-> Hlow]; [|exact Hl0|];
    [|repeat constructor; by vm_compute];
    cbn [fmap option_fmap option_map]; rewrite Hlow;
    repeat (apply elem_of_cons in Hl0 as [->|Hl0]); [..|by apply elem_of_nil in Hl0];
    by vm_compute).
  1,2,4,5: (rewrite (bool_decide_eq_true_2 (_ ∈ unscaled_keys))
              by (by apply (bool_decide_unpack _));
            by rewrite andb_false_r).
  apply den_bounded_label in Hd as (lab & gap & t & l & _ & _ & _ & _ & Hd).
  apply den_figure in Hd as (_ & _ & _ & ->). by vm_compute.
Qed.

(** X22. With ASCII tables, the number read for a key is divided by ten
    exactly when the key is total_revenue or net_profit and the unit the
    pattern captured is the word million in any case; in particular an
    EBITDA or a free cash flow stated in million is kept as it is. *)
Theorem ascii_million_scaling (text : pystr) (k : string) (e : found_entry) :
  tm_metrics (ascii_metrics text) !! k = Some e ->
  exists p m raw val,
    (k, p) ∈ patterns ascii_interpreter (fun _ => false) (length text)
    /\ search (is_word ascii_only) p text = Some m
    /\ group m 1 = Some raw
    /\ value_of_raw ascii_interpreter py_float raw = Some val
    /\ f_value e
       = if bool_decide (k ∈ ["total_revenue"; "net_profit"]%string)
            && bool_decide (map ascii_lower <$> group m 2 = Some (u "million"))
         then (val / 10)%float else val.
Proof.
  intros Hlook. apply found_lookup in Hlook as (p & Hin & He).
  apply entry_inv in He as (m & raw & val & Hs & Hg & Hv & _ & ->).
  exists p, m, raw, val. repeat (split; [done|]).
  pose proof Hs as Hs'. apply search_from_den in Hs' as (pre & xs & post & _ & Hd).
  cbn [f_value]. unfold scaled. by rewrite (ascii_scale_condition _ k p xs m Hin Hd).
Qed.

Lemma py_float_refuses_dots s :
  forallb (is_char (chr ".")) s = true -> py_float s = None.
Proof.
  intros Hs. apply py_float_needs_digit. apply Forall_forall. intros c Hc.
  rewrite forallb_forall in Hs. apply list_elem_of_In, Hs, N.eqb_eq in Hc. by subst c.
Qed.

Lemma digitless_text_has_no_metrics_witness :
  ascii_metrics (u "Revenue grew, and the EBITDA margin is up.") = TextMetricsResult ∅ 0.
Proof.
  apply (digitless_text_has_no_metrics ascii_interpreter (fun _ => false) py_float).
  - exact py_float_refuses_dots.
  - vm_compute. reflexivity.
Defined.

Lemma text_metric_provenance_witness :
  exists pre lab gap raw post l val,
    u "Q2: Net Profit rose to 1,204 crore" = pre ++ lab ++ gap ++ raw ++ post
    /\ l ∈ ["net profit"; "profit after tax"; "pat"]%string
    /\ ci_literal ascii_interpreter (u l) lab
    /\ Forall (fun c => c <> 10%N) gap
    /\ raw <> [] /\ forallb (amount_char (fun _ => false)) raw = true
    /\ value_of_raw ascii_interpreter py_float raw = Some val
    /\ (1204%float = val \/ 1204%float = (val / 10)%float).
Proof.
  assert (tm_metrics (ascii_metrics (u "Q2: Net Profit rose to 1,204 crore"))
            !! "net_profit"%string = Some (Found 1204 "INR_Cr" 0.6)) as Hlook.
  { vm_compute. reflexivity. }
  assert (("net_profit"%string, ["net profit"; "profit after tax"; "pat"]%string)
            ∈ label_words) as Hk.
  { unfold label_words. apply elem_of_cons. right. apply elem_of_cons. by left. }
  destruct (text_metric_provenance ascii_interpreter (fun _ => false) py_float
              _ _ _ _ Hk Hlook)
    as (pre & lab & gap & raw & post & l & val & H1 & H2 & H3 & H4 & H5 & H6 & _ & _ & H7 & H8).
  exists pre, lab, gap, raw, post, l, val. repeat (split; [assumption|]). exact H8.
Defined.

Lemma ascii_million_scaling_witness :
  exists p m raw val,
    ("ebitda"%string, p)
      ∈ patterns ascii_interpreter (fun _ => false) (length (u "EBITDA 40 million"))
    /\ search (is_word ascii_only) p (u "EBITDA 40 million") = Some m
    /\ group m 1 = Some raw
    /\ value_of_raw ascii_interpreter py_float raw = Some val
    /\ 40%float = val.
Proof.
  assert (tm_metrics (ascii_metrics (u "EBITDA 40 million")) !! "ebitda"%string
          = Some (Found 40 "INR_Cr" 0.6)) as Hlook.
  { vm_compute. reflexivity. }
  destruct (ascii_million_scaling _ _ _ Hlook) as (p & m & raw & val & H1 & H2 & H3 & H4 & H5).
  exists p, m, raw, val. repeat (split; [assumption|]). exact H5.
Defined.

End TextMetricsTheorems.
